(** * gh-viewer: the result-aggregation layer of [viewer.ts]

    A shallow embedding of the viewer that [createViewer] builds
    (repository discovery, file reading, tree globbing, code and commit
    search, ref comparison, listings) together with the properties its
    specification states about it, and with further properties of the
    code: of the caches, of the discovery, of the paged searches, of
    [parseNextLink] and of the [--read] argument of the command line.

    Conventions of the embedding.
    - JavaScript strings are Rocq strings, read as UTF-8: a decoded
      buffer is the string of its bytes.  [trim] and [\s] know the white
      space of JavaScript, beyond ASCII too; [toLowerCase] is given on the
      ASCII letters.  Collation ([localeCompare]), URL escaping
      ([encodeURIComponent]), the serialisation of a [URL] object with
      its search parameters, glob matching ([minimatch]) and decoding
      ([Buffer.from]) belong to the platform and are parameters.
    - A JavaScript number that reaches [normalizeLimit] or
      [normalizeOffset] is a [number]: NaN, an infinity or an exact
      rational.  [Number] applied to a run of digits rounds as a double
      does.  Counts, line numbers, the context of a snippet and
      priorities are integers.
    - [undefined] and [null] are [None].
    - The remote service is a parameter: for each shape of payload, a
      function from the URLs requested so far and the URL requested now
      to a typed response.  The request headers are not modelled.
    - A function of the viewer is a state transformer on the state that
      the closure of [createViewer] holds (the three caches) extended with
      the log of the requests issued, and ends in a value, in a thrown
      error or, for the pagination loops only, in exhausted fuel. *)

From Stdlib Require Import ZArith QArith Qround String Ascii List Lia.
From Stdlib Require Import Sorting.Sorted Sorting.Permutation.
From Stdlib Require Import DecimalString DecimalPos Lqa.
From stdpp Require Import gmap strings list.

Import ListNotations.

(** ** Strings *)

Module Str.

(** The width, in bytes, of the white space character at the head of
    [s], or 0 when there is none.  White space is what [trim] strips and
    what [\s] matches: TAB, LF, VT, FF, CR, SP, U+00A0, U+1680, U+2000 to
    U+200A, U+2028, U+2029, U+202F, U+205F, U+3000 and U+FEFF, the last
    ones in their UTF-8 encoding. *)
Definition whitespaceWidth (s : string) : nat :=
  match s with
  | EmptyString => 0
  | String c rest =>
      let n := nat_of_ascii c in
      if ((9 <=? n)%nat && (n <=? 13)%nat) || (n =? 32)%nat then 1
      else
        match rest with
        | String c1 rest1 =>
            let n1 := nat_of_ascii c1 in
            if ((n =? 194) && (n1 =? 160))%nat then 2
            else
              match rest1 with
              | String c2 _ =>
                  let n2 := nat_of_ascii c2 in
                  if ((n =? 225) && (n1 =? 154) && (n2 =? 128))%nat then 3
                  else if ((n =? 226) && (n1 =? 128))%nat
                          && (((128 <=? n2) && (n2 <=? 138))%nat
                              || (n2 =? 168)%nat || (n2 =? 169)%nat || (n2 =? 175)%nat)
                       then 3
                  else if ((n =? 226) && (n1 =? 129) && (n2 =? 159))%nat then 3
                  else if ((n =? 227) && (n1 =? 128) && (n2 =? 128))%nat then 3
                  else if ((n =? 239) && (n1 =? 187) && (n2 =? 191))%nat then 3
                  else 0
              | EmptyString => 0
              end
        | EmptyString => 0
        end
  end.

(** [skip] counts the bytes of a white space character that are still
    to be passed over. *)
Fixpoint trimStartFrom (skip : nat) (s : string) : string :=
  match s with
  | EmptyString => EmptyString
  | String c rest =>
      match skip with
      | S skip' => trimStartFrom skip' rest
      | O =>
          match whitespaceWidth s with
          | O => s
          | S width => trimStartFrom width rest
          end
      end
  end.

Definition trimStart (s : string) : string := trimStartFrom 0 s.

(** [s] is made of white space characters only. *)
Fixpoint blankFrom (skip : nat) (s : string) : bool :=
  match s with
  | EmptyString => true
  | String c rest =>
      match skip with
      | S skip' => blankFrom skip' rest
      | O =>
          match whitespaceWidth s with
          | O => false
          | S width => blankFrom width rest
          end
      end
  end.

(** [trimEnd] keeps a byte as long as what starts there is not white
    space to the end. *)
Fixpoint trimEnd (s : string) : string :=
  match s with
  | EmptyString => EmptyString
  | String c rest => if blankFrom 0 s then EmptyString else String c (trimEnd rest)
  end.

Definition trim (s : string) : string := trimEnd (trimStart s).

Definition isEmpty (s : string) : bool :=
  match s with EmptyString => true | _ => false end.

(** [s.split(sep)] for a one-character separator: the pieces between
    the separators, in order; never the empty list. *)
Fixpoint split (sep : ascii) (s : string) : list string :=
  match s with
  | EmptyString => [EmptyString]
  | String c rest =>
      if Ascii.eqb c sep then EmptyString :: split sep rest
      else match split sep rest with
           | piece :: pieces => String c piece :: pieces
           | [] => [String c EmptyString]
           end
  end.

Fixpoint join (sep : string) (parts : list string) : string :=
  match parts with
  | [] => EmptyString
  | [p] => p
  | p :: rest => p +:+ sep +:+ join sep rest
  end.

Fixpoint startsWith (s prefix : string) : bool :=
  match prefix, s with
  | EmptyString, _ => true
  | String p prefix', String c s' => Ascii.eqb c p && startsWith s' prefix'
  | String _ _, EmptyString => false
  end.

Fixpoint includes (s needle : string) : bool :=
  startsWith s needle ||
  match s with
  | EmptyString => false
  | String _ rest => includes rest needle
  end.

(** [s.replace(/pat/g, by)] for a literal, non-empty [pat]: scanning
    from the left, every occurrence is replaced and the scan resumes
    after it.  [skip] counts the characters of a replaced occurrence
    that are still to be passed over. *)
Fixpoint replaceAllFrom (skip : nat) (pat by_ s : string) : string :=
  match s with
  | EmptyString => EmptyString
  | String c rest =>
      match skip with
      | S skip' => replaceAllFrom skip' pat by_ rest
      | O =>
          if startsWith s pat
          then by_ +:+ replaceAllFrom (String.length pat - 1) pat by_ rest
          else String c (replaceAllFrom 0 pat by_ rest)
      end
  end.

Definition replaceAll (pat by_ s : string) : string :=
  if isEmpty pat then s else replaceAllFrom 0 pat by_ s.

Definition lowerChar (c : ascii) : ascii :=
  let n := nat_of_ascii c in
  if ((65 <=? n)%nat && (n <=? 90)%nat)%bool then ascii_of_nat (n + 32) else c.

Fixpoint toLowerCase (s : string) : string :=
  match s with
  | EmptyString => EmptyString
  | String c rest => String (lowerChar c) (toLowerCase rest)
  end.

Fixpoint repeat (c : ascii) (n : nat) : string :=
  match n with
  | O => EmptyString
  | S n' => String c (repeat c n')
  end.

(** [s.padStart(width, " ")]: blanks in front up to [width], nothing
    removed from a longer string. *)
Definition padStart (width : nat) (pad : ascii) (s : string) : string :=
  repeat pad (width - String.length s) +:+ s.

(** [n.toString()] of an integer. *)
Definition ofZ (z : Z) : string := NilZero.string_of_int (Z.to_int z).

Definition CR : ascii := ascii_of_nat 13.
Definition LF : ascii := ascii_of_nat 10.
Definition CRLF : string := String CR (String LF EmptyString).
Definition NL : string := String LF EmptyString.

End Str.

(** ** Values that may be missing *)

(** Truth value of a string that may be [undefined]: the empty string
    counts as missing. *)
Definition truthy (s : option string) : bool :=
  match s with
  | Some s => negb (Str.isEmpty s)
  | None => false
  end.

(** [a ?? b]. *)
Definition orElse {A : Type} (a : option A) (b : A) : A :=
  match a with Some x => x | None => b end.

(** ** Numbers *)

Inductive number : Type :=
| NaN
| NegInfinity
| Num (q : Q)
| Infinity.

(** A count that [Math.floor] may leave infinite. *)
Inductive count : Type :=
| Fin (n : Z)
| Inf.

(** [normalizeLimit(limit, fallback, max)]. *)
Definition normalizeLimit (limit : option number) (fallback max : Z) : Z :=
  match limit with
  | None => fallback
  | Some NaN => fallback
  | Some NegInfinity => fallback
  | Some (Num q) => if Qle_bool q 0 then fallback else Z.min (Qfloor q) max
  | Some Infinity => max
  end.

(** [normalizeOffset(offset)]. *)
Definition normalizeOffset (offset : option number) : count :=
  match offset with
  | None => Fin 0
  | Some NaN => Fin 0
  | Some NegInfinity => Fin 0
  | Some (Num q) => if Qle_bool q 0 then Fin 0 else Fin (Qfloor q)
  | Some Infinity => Inf
  end.

Module Count.

Definition add (c : count) (n : Z) : count :=
  match c with
  | Fin m => Fin (m + n)
  | Inf => Inf
  end.

(** [n < c] and [n >= c] for a finite [n]. *)
Definition gtb (c : count) (n : Z) : bool :=
  match c with
  | Fin m => (n <? m)%Z
  | Inf => true
  end.

Definition leb (c : count) (n : Z) : bool := negb (gtb c n).

(** [Math.min(k, c - n)]. *)
Definition minSub (k : Z) (c : count) (n : Z) : Z :=
  match c with
  | Fin m => Z.min k (m - n)
  | Inf => k
  end.

End Count.

(** ** Arrays *)

Section Arrays.

Context {A : Type}.

(** Where [Array.prototype.slice] puts a bound: a negative one counts
    from the end, and both are clamped to the array. *)
Definition clampIndex (len : Z) (i : count) : Z :=
  match i with
  | Inf => len
  | Fin i => if (i <? 0)%Z then Z.max (len + i) 0 else Z.min i len
  end.

(** [l.slice(start, end)]. *)
Definition slice (l : list A) (start end_ : count) : list A :=
  let len := Z.of_nat (length l) in
  let k := clampIndex len start in
  let final := clampIndex len end_ in
  firstn (Z.to_nat (final - k)) (skipn (Z.to_nat k) l).

End Arrays.

(** ** Data model *)

Record RepoTarget : Type := mkRepoTarget {
  owner : string;
  repo : string
}.

Record ReadRange : Type := mkReadRange {
  start : Z;
  end_ : Z
}.

(** [interface GitHubRepoSummary], the repository record of the remote
    payloads. *)
Module GitHubRepoSummary.
Record Owner : Type := mkOwner { login : option string }.
Record t : Type := mk {
  full_name : option string;
  name : option string;
  description : option string;
  language : option string;
  stargazers_count : option Z;
  forks_count : option Z;
  private : option bool;
  html_url : option string;
  default_branch : option string;
  topics : option (list string);
  visibility : option string;
  owner : option Owner;
  score : option Q
}.
End GitHubRepoSummary.

Module RepositorySummary.
Record t : Type := mk {
  name : string;
  fullName : string;
  description : option string;
  language : option string;
  stars : Z;
  forks : Z;
  private : bool;
  htmlUrl : string;
  defaultBranch : string;
  topics : list string;
  visibility : option string
}.
End RepositorySummary.

Record RepositorySearchParams : Type := mkRepositorySearchParams {
  rs_pattern : option string;
  rs_organization : option string;
  rs_language : option string;
  rs_limit : option number;
  rs_offset : option number
}.

(** ** Errors and outcomes *)

(** One constructor for each place where the viewer throws a
    [ViewerError], with the values its message is built from. *)
Inductive ViewerError : Type :=
| RequestFailed (status : Z) (statusText details : string)
| NotAFile (filePath : string)
| FileTooLarge (bytes : Z) (filePath : string)
| GlobCacheFailed
| PatternRequired
| BaseRequired
| HeadRequired
| BlobUnreadable (target : RepoTarget) (sha : string)
| NoTreeData (ref : string)
| NoDefaultBranch (target : RepoTarget)
| InvalidSlug (slug : string).

(** What a function can throw: a [ViewerError], or an error of the
    platform (a rejected fetch, an encoding [Buffer.from] does not
    know). *)
Inductive Exception : Type :=
| Viewer (e : ViewerError)
| FetchRejected (url : string)
| UnknownEncoding (encoding : string).

Inductive Outcome (A : Type) : Type :=
| Returned (a : A)
| Threw (e : Exception)
| OutOfFuel.

Arguments Returned {A} a.
Arguments Threw {A} e.
Arguments OutOfFuel {A}.

(** ** The monad of the viewer: state and exceptions *)

Definition M (S A : Type) : Type := S -> Outcome A * S.

Definition ret {S A : Type} (a : A) : M S A := fun s => (Returned a, s).

Definition throw {S A : Type} (e : Exception) : M S A := fun s => (Threw e, s).

Definition exhausted {S A : Type} : M S A := fun s => (OutOfFuel, s).

Definition bind {S A B : Type} (m : M S A) (k : A -> M S B) : M S B :=
  fun s =>
    match m s with
    | (Returned a, s') => k a s'
    | (Threw e, s') => (Threw e, s')
    | (OutOfFuel, s') => (OutOfFuel, s')
    end.

Notation "'let*' x ':=' m 'in' k" := (bind m (fun x => k))
  (at level 10, x pattern, m at level 100, k at level 200).

Definition gets {S A : Type} (f : S -> A) : M S A := fun s => (Returned (f s), s).

Definition modify {S : Type} (f : S -> S) : M S unit := fun s => (Returned tt, f s).

(** [try { m } catch (error) { if (!(error instanceof ViewerError)) throw error; }] *)
Definition swallowViewerError {S : Type} (m : M S unit) : M S unit :=
  fun s =>
    match m s with
    | (Threw (Viewer _), s') => (Returned tt, s')
    | other => other
    end.

(** ** Transport *)

Record Response (T : Type) : Type := mkResponse {
  ok : bool;
  status : Z;
  statusText : string;
  (** what [safeReadError] reads from the body of a failed response *)
  details : string;
  (** the URL [parseNextLink] extracts from the [link] header *)
  next : option string;
  (** [await response.json()] *)
  json : T
}.

Arguments ok {T} _.
Arguments status {T} _.
Arguments statusText {T} _.
Arguments details {T} _.
Arguments next {T} _.
Arguments json {T} _.

(** An end point of the remote service: given the URLs requested so far
    and the URL requested now, a response, or [None] when the fetch is
    rejected. *)
Definition Endpoint (T : Type) : Type := list string -> string -> option (Response T).

Record TreeCacheEntry : Type := mkTreeCacheEntry {
  matches : list string;
  truncated : bool
}.

(** The state of a viewer: the caches of [createViewer] and the requests
    that went through [fetchImpl]. *)
Record ViewerState : Type := mkViewerState {
  requests : list string;
  treeCache : gmap string TreeCacheEntry;
  blobCache : gmap string (list string);
  repoDefaults : gmap string string
}.

Definition freshViewer : ViewerState :=
  {| requests := []; treeCache := ∅; blobCache := ∅; repoDefaults := ∅ |}.

Definition logRequest (url : string) (s : ViewerState) : ViewerState :=
  {| requests := requests s ++ [url];
     treeCache := treeCache s;
     blobCache := blobCache s;
     repoDefaults := repoDefaults s |}.

(** [ghFetch(url)]: one request; a response that is not [ok] becomes a
    [ViewerError]. *)
Definition ghFetch {T : Type} (endpoint : Endpoint T) (url : string)
  : M ViewerState (Response T) :=
  fun s =>
    let s' := logRequest url s in
    match endpoint (requests s) url with
    | None => (Threw (FetchRejected url), s')
    | Some response =>
        if ok response then (Returned response, s')
        else (Threw (Viewer (RequestFailed (status response) (statusText response)
                                           (details response))), s')
    end.

(** ** Repository discovery: the pure part *)

(** An element of the [collected] map of [searchRepositories]. *)
Record Candidate : Type := mkCandidate {
  summary : RepositorySummary.t;
  priority : Z;
  stars : Z;
  score : option Q
}.

(** A JavaScript [Map] with string keys: the entries in insertion order;
    [set] on a key that is present replaces the value where it stands. *)
Module JsMap.
Section JsMap.

Context {V : Type}.

Definition t : Type := list (string * V).

Definition empty : t := [].

Fixpoint get (m : t) (key : string) : option V :=
  match m with
  | [] => None
  | (k, v) :: rest => if String.eqb k key then Some v else get rest key
  end.

Fixpoint set (m : t) (key : string) (value : V) : t :=
  match m with
  | [] => [(key, value)]
  | (k, v) :: rest =>
      if String.eqb k key then (k, value) :: rest
      else (k, v) :: set rest key value
  end.

Definition size (m : t) : Z := Z.of_nat (length m).

Definition keys (m : t) : list string := map fst m.

Definition values (m : t) : list V := map snd m.

End JsMap.
Arguments t V : clear implicits.
End JsMap.

(** [split(/\s+/)]: the pieces between the maximal runs of white space;
    [inRun] tells that the previous character was white space, [skip]
    counts the bytes of a white space character still to be passed
    over. *)
Fixpoint splitWhitespaceFrom (skip : nat) (inRun : bool) (s : string) : list string :=
  match s with
  | EmptyString => [EmptyString]
  | String c rest =>
      match skip with
      | S skip' => splitWhitespaceFrom skip' inRun rest
      | O =>
          match Str.whitespaceWidth s with
          | S width =>
              if inRun then splitWhitespaceFrom width true rest
              else EmptyString :: splitWhitespaceFrom width true rest
          | O =>
              match splitWhitespaceFrom 0 false rest with
              | piece :: pieces => String c piece :: pieces
              | [] => [String c EmptyString]
              end
          end
      end
  end.

Definition splitWhitespace (s : string) : list string := splitWhitespaceFrom 0 false s.

(** [matchesPattern(value, pattern)] *)
Definition matchesPattern (value pattern : string) : bool :=
  let terms :=
    filter (fun term => negb (Str.isEmpty term))
           (splitWhitespace (Str.toLowerCase pattern)) in
  match terms with
  | [] => true
  | _ =>
      let haystack := Str.toLowerCase value in
      forallb (fun term => Str.includes haystack term) terms
  end.

(** [mapRepoSummary(repo)] *)
Definition mapRepoSummary (repo : GitHubRepoSummary.t) : option RepositorySummary.t :=
  let fullName := orElse (GitHubRepoSummary.full_name repo) EmptyString in
  if Str.isEmpty fullName then None
  else
    let name := orElse (GitHubRepoSummary.name repo) fullName in
    Some {|
      RepositorySummary.name := name;
      RepositorySummary.fullName := fullName;
      RepositorySummary.description := GitHubRepoSummary.description repo;
      RepositorySummary.language := GitHubRepoSummary.language repo;
      RepositorySummary.stars := orElse (GitHubRepoSummary.stargazers_count repo) 0%Z;
      RepositorySummary.forks := orElse (GitHubRepoSummary.forks_count repo) 0%Z;
      RepositorySummary.private := orElse (GitHubRepoSummary.private repo) false;
      RepositorySummary.htmlUrl :=
        orElse (GitHubRepoSummary.html_url repo) ("https://github.com/" +:+ fullName);
      RepositorySummary.defaultBranch :=
        orElse (GitHubRepoSummary.default_branch repo) "main";
      RepositorySummary.topics := orElse (GitHubRepoSummary.topics repo) [];
      RepositorySummary.visibility := GitHubRepoSummary.visibility repo
    |}.

(** The filters of one [searchRepositories] call: the trimmed [pattern],
    [organization] and [language] of its parameters. *)
Record Filters : Type := mkFilters {
  pattern : option string;
  organization : option string;
  language : option string
}.

Definition trimmed (s : option string) : option string :=
  match s with
  | Some s => Some (Str.trim s)
  | None => None
  end.

Definition filtersOf (params : RepositorySearchParams) : Filters :=
  {| pattern := trimmed (rs_pattern params);
     organization := trimmed (rs_organization params);
     language := trimmed (rs_language params) |}.

Section Discovery.

(** [a.localeCompare(b, undefined, { sensitivity: "accent" })] and
    [a.localeCompare(b)]. *)
Variable localeCompareAccent : string -> string -> Z.
Variable localeCompare : string -> string -> Z.

Definition equalsIgnoreCase (a b : string) : bool :=
  (localeCompareAccent a b =? 0)%Z.

Variable filters : Filters.

(** The four early returns of [addRepository] that follow
    [mapRepoSummary]: [true] when the candidate is turned away. *)
Definition ownerMismatch (repo : GitHubRepoSummary.t) : bool :=
  match organization filters,
        GitHubRepoSummary.owner repo ≫= GitHubRepoSummary.login with
  | Some org, Some login =>
      negb (Str.isEmpty org) && negb (Str.isEmpty login)
      && negb (equalsIgnoreCase login org)
  | _, _ => false
  end.

Definition patternMismatch (s : RepositorySummary.t) : bool :=
  match pattern filters with
  | Some p =>
      negb (Str.isEmpty p)
      && negb (matchesPattern (RepositorySummary.fullName s) p)
      && negb (matchesPattern (RepositorySummary.name s) p)
  | None => false
  end.

Definition languageMismatch (s : RepositorySummary.t) : bool :=
  match language filters, RepositorySummary.language s with
  | Some wanted, Some actual =>
      negb (Str.isEmpty wanted) && negb (Str.isEmpty actual)
      && negb (equalsIgnoreCase actual wanted)
  | _, _ => false
  end.

Definition languageUnknown (s : RepositorySummary.t) (prio : Z) : bool :=
  truthy (language filters) && negb (truthy (RepositorySummary.language s))
  && (0 <? prio)%Z.

(** One of the four turns the candidate away. *)
Definition rejects (repo : GitHubRepoSummary.t) (s : RepositorySummary.t)
    (prio : Z) : bool :=
  ownerMismatch repo || patternMismatch s || languageMismatch s
  || languageUnknown s prio.

(** [addRepository(repo, priority)], on the [collected] map. *)
Definition addRepository (repo : GitHubRepoSummary.t) (prio : Z)
    (collected : JsMap.t Candidate) : JsMap.t Candidate :=
  match mapRepoSummary repo with
  | None => collected
  | Some s =>
      if ownerMismatch repo then collected
      else if patternMismatch s then collected
      else if languageMismatch s then collected
      else if languageUnknown s prio then collected
      else
        let fresh := {| summary := s;
                        priority := prio;
                        stars := RepositorySummary.stars s;
                        score := GitHubRepoSummary.score repo |} in
        match JsMap.get collected (RepositorySummary.fullName s) with
        | None => JsMap.set collected (RepositorySummary.fullName s) fresh
        | Some existing =>
            if (prio <? priority existing)%Z
            then JsMap.set collected (RepositorySummary.fullName s) fresh
            else collected
        end
  end.

(** The comparison function given to [sort]; only its sign is used. *)
Definition compareCandidates (a b : Candidate) : Q :=
  if negb (priority a =? priority b)%Z then inject_Z (priority a - priority b)
  else if negb (stars b =? stars a)%Z then inject_Z (stars b - stars a)
  else
    let aScore := orElse (score a) 0%Q in
    let bScore := orElse (score b) 0%Q in
    if negb (Qeq_bool bScore aScore) then (bScore - aScore)%Q
    else inject_Z (localeCompare (RepositorySummary.fullName (summary a))
                                 (RepositorySummary.fullName (summary b))).

End Discovery.

(** [Array.prototype.sort(compareFn)].  The sort of the platform is
    stable: elements that compare equal keep their order.  It is modelled
    by insertion, from the right, in front of the first element that does
    not come before the inserted one. *)
Section Sort.

Context {A : Type}.
Variable compareFn : A -> A -> Q.

Fixpoint insertSorted (x : A) (l : list A) : list A :=
  match l with
  | [] => [x]
  | y :: rest =>
      if Qle_bool (compareFn x y) 0 then x :: y :: rest
      else y :: insertSorted x rest
  end.

Definition sort (l : list A) : list A := foldr insertSorted [] l.

End Sort.

(** ** Payloads of the remote service *)

Module GitHubContentEntry.
Record t : Type := mk {
  type : option string;
  name : option string;
  path : option string;
  size : option Z;
  target : option string;
  content : option string;
  encoding : option string;
  sha : option string
}.
End GitHubContentEntry.

Module GitHubTreeEntry.
Record t : Type := mk { path : string; type : string }.
End GitHubTreeEntry.

Module GitHubTreeResponse.
Record t : Type := mk {
  tree : option (list GitHubTreeEntry.t);
  truncated : option bool
}.
End GitHubTreeResponse.

Module GitHubTextMatch.
Record Match : Type := mkMatch { text : option string }.
Record t : Type := mk {
  fragment : option string;
  matches : option (list Match)
}.
End GitHubTextMatch.

Module GitHubCodeSearchItem.
Record Repository : Type := mkRepository {
  full_name : string;
  name : string;
  owner : option GitHubRepoSummary.Owner
}.
Record t : Type := mk {
  path : string;
  sha : string;
  html_url : string;
  score : option Q;
  repository : Repository;
  text_matches : option (list GitHubTextMatch.t)
}.
End GitHubCodeSearchItem.

Module GitHubBlobResponse.
Record t : Type := mk {
  content : option string;
  encoding : option string
}.
End GitHubBlobResponse.

Record CommitStats : Type := mkCommitStats {
  additions : option Z;
  deletions : option Z;
  total : option Z
}.

Module GitHubCommitSearchItem.
Record Author : Type := mkAuthor {
  name : option string;
  email : option string;
  date : option string
}.
Record Commit : Type := mkCommit {
  message : option string;
  author : option Author
}.
Record t : Type := mk {
  sha : string;
  html_url : string;
  commit : Commit;
  (** the [author] of the item, the account of the commit's author *)
  account : option GitHubRepoSummary.Owner;
  stats : option CommitStats
}.
End GitHubCommitSearchItem.

Module GitHubCompareFile.
Record t : Type := mk {
  sha : option string;
  filename : string;
  status : string;
  additions : Z;
  deletions : Z;
  changes : Z;
  patch : option string;
  previous_filename : option string
}.
End GitHubCompareFile.

Module GitHubCompareResponse.
Record t : Type := mk {
  commits : option (list string);
  ahead_by : option Z;
  behind_by : option Z;
  total_commits : option Z;
  files : option (list GitHubCompareFile.t)
}.
End GitHubCompareResponse.

(** The remote service, one end point for each shape of payload that the
    viewer reads. *)
Record Remote : Type := mkRemote {
  (** [/orgs/:org/repos] and [/user/repos] *)
  repoListing : Endpoint (list GitHubRepoSummary.t);
  (** [/search/repositories], the [items] of the body *)
  repoSearch : Endpoint (option (list GitHubRepoSummary.t));
  (** [/repos/:owner/:repo/contents/:path] *)
  contents : Endpoint GitHubContentEntry.t;
  (** [/repos/:owner/:repo/git/trees/:ref] *)
  trees : Endpoint GitHubTreeResponse.t;
  (** [/repos/:owner/:repo], the [default_branch] of the body *)
  repository : Endpoint (option string);
  (** [/repos/:owner/:repo/git/blobs/:sha] *)
  blobs : Endpoint GitHubBlobResponse.t;
  (** [/search/code], the [items] of the body *)
  codeSearch : Endpoint (option (list GitHubCodeSearchItem.t));
  (** [/search/commits], the [items] of the body *)
  commitSearch : Endpoint (option (list GitHubCommitSearchItem.t));
  (** [/repos/:owner/:repo/compare/:base...:head] *)
  compare : Endpoint GitHubCompareResponse.t
}.

(** ** Options and results of the viewer *)

Record ReadOptions : Type := mkReadOptions {
  read_ref : option string;
  range : option ReadRange;
  includeLineNumbers : option bool
}.

Record ReadResult : Type := mkReadResult {
  rr_path : string;
  rr_ref : option string;
  rr_range : option ReadRange;
  rr_lines : list string
}.

Record GlobResult : Type := mkGlobResult {
  gr_pattern : string;
  gr_ref : string;
  gr_matches : list string;
  gr_truncated : bool
}.

Record CodeSearchOptions : Type := mkCodeSearchOptions {
  cs_pattern : string;
  cs_path : option string;
  cs_limit : option number;
  cs_offset : option number;
  cs_context : option Z
}.

Record CodeSearchSnippet : Type := mkCodeSearchSnippet {
  startLine : Z;
  endLine : Z;
  lines : list string
}.

Record CodeSearchResultItem : Type := mkCodeSearchResultItem {
  csr_repository : RepoTarget;
  csr_fullName : string;
  csr_path : string;
  csr_ref : string;
  csr_language : option string;
  csr_score : option Q;
  snippets : list CodeSearchSnippet;
  csr_htmlUrl : string
}.

Record CommitSearchOptions : Type := mkCommitSearchOptions {
  cm_query : option string;
  cm_author : option string;
  cm_path : option string;
  cm_since : option string;
  cm_until : option string;
  cm_limit : option number;
  cm_offset : option number
}.

Record CommitSearchResultItem : Type := mkCommitSearchResultItem {
  cmr_sha : string;
  cmr_message : string;
  authorName : option string;
  authorEmail : option string;
  cmr_date : option string;
  cmr_htmlUrl : string;
  cmr_stats : option CommitStats
}.

Module CompareFileChange.
Record t : Type := mk {
  sha : option string;
  filename : string;
  status : string;
  additions : Z;
  deletions : Z;
  changes : Z;
  patch : option string;
  previousFilename : option string
}.
End CompareFileChange.

Record CompareCommitsResult : Type := mkCompareCommitsResult {
  base : string;
  head : string;
  aheadBy : Z;
  behindBy : Z;
  totalCommits : Z;
  files : list CompareFileChange.t
}.

(** ** The helpers of [viewer.ts] *)

(** [parseRepo(slug)] *)
Definition parseRepo (slug : string) : Outcome RepoTarget :=
  match Str.split "/" slug with
  | [o; r] =>
      if Str.isEmpty o || Str.isEmpty r then Threw (Viewer (InvalidSlug slug))
      else Returned {| owner := o; repo := r |}
  | _ => Threw (Viewer (InvalidSlug slug))
  end.

(** [stripHighlights(value)]: [value.replace(/<\/?em>/g, "")], one scan
    from the left. *)
Fixpoint stripHighlightsFrom (skip : nat) (value : string) : string :=
  match value with
  | EmptyString => EmptyString
  | String c rest =>
      match skip with
      | S skip' => stripHighlightsFrom skip' rest
      | O =>
          if Str.startsWith value "<em>" then stripHighlightsFrom 3 rest
          else if Str.startsWith value "</em>" then stripHighlightsFrom 4 rest
          else String c (stripHighlightsFrom 0 rest)
      end
  end.

Definition stripHighlights (value : string) : string := stripHighlightsFrom 0 value.

(** The loop of [findLineIndicesInFile]: the index of the first line
    that contains the needle, and the [break]. *)
Fixpoint firstLineWith (fileLines : list string) (lowerNeedle : string) (index : Z)
  : list Z :=
  match fileLines with
  | [] => []
  | line :: rest =>
      if Str.includes (Str.toLowerCase line) lowerNeedle then [index]
      else firstLineWith rest lowerNeedle (index + 1)
  end.

(** [findLineIndicesInFile(fileLines, needle)] *)
Definition findLineIndicesInFile (fileLines : list string) (needle : string) : list Z :=
  let trimmed := Str.trim needle in
  if Str.isEmpty trimmed then []
  else firstLineWith fileLines (Str.toLowerCase trimmed) 0.

(** The loop of [extractRange]; [fuel] is the number of values that
    [lineNumber] takes between [range.start] and [range.end]. *)
Fixpoint extractRangeFrom (fuel : nat) (fileLines : list string)
    (lineNumber last : Z) (taken : list string) : list string :=
  match fuel with
  | O => taken
  | S fuel' =>
      if (lineNumber <=? last)%Z then
        let index := (lineNumber - 1)%Z in
        if (Z.of_nat (length fileLines) <=? index)%Z then taken
        else
          let line := if (index <? 0)%Z then EmptyString
                      else nth (Z.to_nat index) fileLines EmptyString in
          extractRangeFrom fuel' fileLines (lineNumber + 1) last (taken ++ [line])
      else taken
  end.

(** [extractRange(lines, range)] *)
Definition extractRange (fileLines : list string) (r : ReadRange) : list string :=
  extractRangeFrom (Z.to_nat (end_ r - start r + 1)) fileLines (start r) (end_ r) [].

(** [addLineNumbers(lines, start)] *)
Definition addLineNumbers (fileLines : list string) (first : Z) : list string :=
  imap (fun index line =>
          let lineNumber := (first + Z.of_nat index)%Z in
          Str.padStart 6 " " (Str.ofZ lineNumber) +:+ " " +:+ line)
       fileLines.

(** The body of the loop of [createSnippetsFromLines]. *)
Definition snippetAround (fileLines : list string) (context index : Z)
  : CodeSearchSnippet :=
  let first := Z.max 0 (index - context) in
  let endExclusive := Z.min (Z.of_nat (length fileLines)) (index + context + 1) in
  {| startLine := first + 1;
     endLine := Z.max (first + 1) endExclusive;
     lines := slice fileLines (Fin first) (Fin endExclusive) |}.

(** [createSnippetsFromLines(fileLines, indices, context = 2)] *)
Definition createSnippetsFromLines (fileLines : list string) (indices : list Z)
    (context : option Z) : list CodeSearchSnippet :=
  let context := orElse context 2%Z in
  match indices with
  | [] => []
  | _ =>
      fold_left (fun snippets index => snippets ++ [snippetAround fileLines context index])
                indices []
  end.

(** [indices.add(index)] on a [Set] kept in insertion order. *)
Definition setAdd (indices : list Z) (index : Z) : list Z :=
  if existsb (Z.eqb index) indices then indices else indices ++ [index].

(** The ellipsis U+2026, as its three bytes. *)
Definition ellipsis : string :=
  String (ascii_of_nat 226) (String (ascii_of_nat 128) (String (ascii_of_nat 166) EmptyString)).

(** The two sources of needles of one text match: the highlighted
    pieces, then the lines of the fragment. *)
Definition needlesOf (m : GitHubTextMatch.t) : list string :=
  let pieces :=
    flat_map (fun fragmentMatch =>
                match GitHubTextMatch.text fragmentMatch with
                | Some text => if Str.isEmpty text then [] else [text]
                | None => []
                end)
             (orElse (GitHubTextMatch.matches m) []) in
  let fragmentLines :=
    match GitHubTextMatch.fragment m with
    | Some fragment =>
        if Str.isEmpty fragment then []
        else
          filter (fun line => negb (Str.isEmpty line))
                 (map Str.trim
                      (Str.split Str.LF
                                 (Str.replaceAll ellipsis " " (stripHighlights fragment))))
    | None => []
    end in
  pieces ++ fragmentLines.

(** [collectMatchLineIndices(matches, fileLines)] *)
Definition collectMatchLineIndices (textMatches : list GitHubTextMatch.t)
    (fileLines : list string) : list Z :=
  let indices :=
    fold_left
      (fun indices needle =>
         fold_left setAdd (findLineIndicesInFile fileLines needle) indices)
      (flat_map needlesOf textMatches) [] in
  sort (fun a b => inject_Z (a - b)) indices.

(** [text.replace(/\r\n/g, "\n").split("\n")] *)
Definition splitLines (text : string) : list string :=
  Str.split Str.LF (Str.replaceAll Str.CRLF Str.NL text).

(** ** The viewer *)

(** The state of one [searchRepositories] call: its [collected] map and
    the viewer around it. *)
Record Discovery : Type := mkDiscovery {
  collected : JsMap.t Candidate;
  viewer : ViewerState
}.

Definition liftViewer {A : Type} (m : M ViewerState A) : M Discovery A :=
  fun d =>
    let (outcome, s) := m (viewer d) in
    (outcome, {| collected := collected d; viewer := s |}).

Section Viewer.

(** The platform. *)
Variable encodeURIComponent : string -> string.
(** [new URL(text)], then [url.searchParams.set(key, value)] for each
    pair in order, then [url.toString()]. *)
Variable urlToString : string -> list (string * string) -> string.
Variable localeCompareAccent : string -> string -> Z.
Variable localeCompare : string -> string -> Z.
(** [minimatch(path, pattern, { dot: true })] *)
Variable minimatch : string -> string -> bool.
(** [Buffer.from(content, encoding)], read back as text; [None] when
    the encoding is not one the platform knows. *)
Variable bufferFrom : string -> string -> option string.

(** The options of [createViewer]. *)
Variable authToken : option string.
Variable remote : Remote.

Definition api : string := "https://api.github.com".

Definition repoUrl (target : RepoTarget) : string :=
  api +:+ "/repos/" +:+ encodeURIComponent (owner target) +:+ "/"
      +:+ encodeURIComponent (repo target).

(** [encodeContentPath(path)] *)
Definition encodeContentPath (path : string) : string :=
  Str.join "/"
    (map encodeURIComponent
         (filter (fun segment => negb (Str.isEmpty segment)) (Str.split "/" path))).

(** *** searchRepositories *)

Section SearchRepositories.

Variable filters : Filters.
Variable maxIntermediate : count.

(** [for (const repo of page) { addRepository(repo, priority); if
    (collected.size >= maxIntermediate) ... }]; the flag tells that
    the cap was reached and the loop left. *)
Fixpoint addPage (prio : Z) (page : list GitHubRepoSummary.t)
    (c : JsMap.t Candidate) : JsMap.t Candidate * bool :=
  match page with
  | [] => (c, false)
  | r :: rest =>
      let c' := addRepository localeCompareAccent filters r prio c in
      if Count.leb maxIntermediate (JsMap.size c') then (c', true)
      else addPage prio rest c'
  end.

Definition addPageM (prio : Z) (page : list GitHubRepoSummary.t)
  : M Discovery bool :=
  fun d =>
    let (c, full) := addPage prio page (collected d) in
    (Returned full, {| collected := c; viewer := viewer d |}).

(** [while (url) { ... }] of [collectOrgRepositories] and of
    [collectUserRepositories]. *)
Fixpoint collectListing (fuel : nat) (url : option string) : M Discovery unit :=
  match url with
  | None => ret tt
  | Some u =>
      if Str.isEmpty u then ret tt
      else
        match fuel with
        | O => exhausted
        | S fuel' =>
            let* response := liftViewer (ghFetch (repoListing remote) u) in
            let* full := addPageM 0 (json response) in
            if full : bool then ret tt
            else collectListing fuel' (next response)
        end
  end.

Definition collectOrgRepositories (fuel : nat) (org : string) : M Discovery unit :=
  collectListing fuel
    (Some (api +:+ "/orgs/" +:+ encodeURIComponent org
               +:+ "/repos?per_page=100&type=all&sort=updated&direction=desc")).

Definition collectUserRepositories (fuel : nat) : M Discovery unit :=
  if negb (truthy authToken) then ret tt
  else
    collectListing fuel
      (Some (api +:+ "/user/repos?per_page=100&affiliation=owner,collaborator,organization_member&sort=updated&direction=desc")).

(** The query of [collectSearchResults]. *)
Definition searchQuery : string :=
  let q1 := match pattern filters with
            | Some p => if Str.isEmpty p then [] else [p]
            | None => []
            end in
  let q2 := match organization filters with
            | Some o => if Str.isEmpty o then [] else ["org:" +:+ o]
            | None => []
            end in
  let q3 := match language filters with
            | Some l => if Str.isEmpty l then [] else ["language:" +:+ l]
            | None => []
            end in
  let qualifiers := q1 ++ q2 ++ q3 in
  let qualifiers := match qualifiers with
                    | [] => ["stars:>0"]
                    | _ => qualifiers
                    end in
  let qualifiers :=
    if existsb (fun entry => Str.startsWith entry "in:") qualifiers
    then qualifiers else qualifiers ++ ["in:name"] in
  Str.join " " qualifiers.

(** [while (collected.size < maxIntermediate) { ... }] of
    [collectSearchResults]. *)
Fixpoint searchLoop (fuel : nat) (query : string) (page : Z) : M Discovery unit :=
  let* c := gets collected in
  if Count.gtb maxIntermediate (JsMap.size c) then
    match fuel with
    | O => exhausted
    | S fuel' =>
        let searchUrl :=
          api +:+ "/search/repositories?q=" +:+ encodeURIComponent query
              +:+ "&per_page=100&page=" +:+ Str.ofZ page
              +:+ "&sort=stars&order=desc" in
        let* response := liftViewer (ghFetch (repoSearch remote) searchUrl) in
        let items := orElse (json response) [] in
        match items with
        | [] => ret tt
        | _ =>
            let* _ := addPageM 1 items in
            if (Z.of_nat (length items) <? 100)%Z then ret tt
            else searchLoop fuel' query (page + 1)
        end
    end
  else ret tt.

Definition collectSearchResults (fuel : nat) : M Discovery unit :=
  searchLoop fuel searchQuery 1.

(** The collection of the candidates: the accessible channel, then
    the search when too few were collected. *)
Definition collectCandidates (fuel : nat) (toCollect : count) : M Discovery unit :=
  let* _ :=
    match organization filters with
    | Some org =>
        if Str.isEmpty org then swallowViewerError (collectUserRepositories fuel)
        else collectOrgRepositories fuel org
    | None => swallowViewerError (collectUserRepositories fuel)
    end in
  let* c := gets collected in
  if Count.gtb toCollect (JsMap.size c) then collectSearchResults fuel
  else ret tt.

End SearchRepositories.

(** The end of [searchRepositories]: sort, slice, and keep the
    summaries. *)
Definition sortAndSlice (c : JsMap.t Candidate) (offset : count) (limit : Z)
  : list RepositorySummary.t :=
  let sorted := sort (compareCandidates localeCompare) (JsMap.values c) in
  map summary (slice sorted offset (Count.add offset limit)).

(** [searchRepositories(params)] *)
Definition searchRepositories (fuel : nat) (params : RepositorySearchParams)
  : M ViewerState (list RepositorySummary.t) :=
  fun s =>
    let limit := normalizeLimit (rs_limit params) 30 100 in
    let offset := normalizeOffset (rs_offset params) in
    let toCollect := Count.add offset limit in
    let maxIntermediate := Count.add toCollect 100 in
    match collectCandidates (filtersOf params) maxIntermediate fuel toCollect
                            {| collected := JsMap.empty; viewer := s |} with
    | (Returned _, d) => (Returned (sortAndSlice (collected d) offset limit), viewer d)
    | (Threw e, d) => (Threw e, viewer d)
    | (OutOfFuel, d) => (OutOfFuel, viewer d)
    end.

(** *** readFile *)

(** The URL of the contents of a path: a [URL] object built from the
    text, with the search parameter [ref] set when there is a [ref]. *)
Definition contentsUrl (target : RepoTarget) (filePath : string) (ref : option string)
  : string :=
  urlToString (repoUrl target +:+ "/contents/" +:+ encodeContentPath filePath)
              (if truthy ref then [("ref", orElse ref EmptyString)] else []).

(** [readFile(repo, filePath, options)] *)
Definition readFile (target : RepoTarget) (filePath : string) (options : ReadOptions)
  : M ViewerState ReadResult :=
  let url := contentsUrl target filePath (read_ref options) in
  let* response := ghFetch (contents remote) url in
  let data := json response in
  if negb (truthy (GitHubContentEntry.content data))
     || negb (bool_decide (GitHubContentEntry.type data = Some "file"))
  then throw (Viewer (NotAFile filePath))
  else
    let encoding := orElse (GitHubContentEntry.encoding data) "base64" in
    match bufferFrom (orElse (GitHubContentEntry.content data) EmptyString) encoding with
    | None => throw (UnknownEncoding encoding)
    | Some buffer =>
        let size := Z.of_nat (String.length buffer) in
        if match range options with None => true | Some _ => false end
           && (204800 <? size)%Z
        then throw (Viewer (FileTooLarge size filePath))
        else
          let fileLines := splitLines buffer in
          let selected := match range options with
                          | Some r => extractRange fileLines r
                          | None => fileLines
                          end in
          let lineOffset := match range options with
                            | Some r => start r
                            | None => 1%Z
                            end in
          let outputLines :=
            if orElse (includeLineNumbers options) false
            then addLineNumbers selected lineOffset
            else selected in
          ret {| rr_path := filePath;
                 rr_ref := read_ref options;
                 rr_range := range options;
                 rr_lines := outputLines |}
    end.

(** *** globFiles *)

Definition setTreeCache (key : string) (entry : TreeCacheEntry) (s : ViewerState)
  : ViewerState :=
  {| requests := requests s;
     treeCache := <[key := entry]> (treeCache s);
     blobCache := blobCache s;
     repoDefaults := repoDefaults s |}.

Definition setBlobCache (key : string) (fileLines : list string) (s : ViewerState)
  : ViewerState :=
  {| requests := requests s;
     treeCache := treeCache s;
     blobCache := <[key := fileLines]> (blobCache s);
     repoDefaults := repoDefaults s |}.

Definition setRepoDefault (key branch : string) (s : ViewerState) : ViewerState :=
  {| requests := requests s;
     treeCache := treeCache s;
     blobCache := blobCache s;
     repoDefaults := <[key := branch]> (repoDefaults s) |}.

Definition treeUrl (target : RepoTarget) (ref : string) : string :=
  urlToString (repoUrl target +:+ "/git/trees/" +:+ encodeURIComponent ref)
              [("recursive", "1")].

(** [fetchTree(repo, ref)] *)
Definition fetchTree (target : RepoTarget) (ref : string)
  : M ViewerState GitHubTreeResponse.t :=
  let* response := ghFetch (trees remote) (treeUrl target ref) in
  let data := json response in
  match GitHubTreeResponse.tree data with
  | None => throw (Viewer (NoTreeData ref))
  | Some _ => ret data
  end.

(** [getDefaultBranch(repo)] *)
Definition getDefaultBranch (target : RepoTarget) : M ViewerState string :=
  let key := owner target +:+ "/" +:+ repo target in
  let* cached := gets (fun s => repoDefaults s !! key) in
  if truthy cached then ret (orElse cached EmptyString)
  else
    let* response := ghFetch (repository remote) (repoUrl target) in
    let data := json response in
    if negb (truthy data) then throw (Viewer (NoDefaultBranch target))
    else
      let branch := orElse data EmptyString in
      let* _ := modify (setRepoDefault key branch) in
      ret branch.

Definition globCacheKey (target : RepoTarget) (ref pattern : string) : string :=
  owner target +:+ "/" +:+ repo target +:+ "@" +:+ ref +:+ ":" +:+ pattern.

(** [globFiles(repo, pattern, options)]; [ref] is [options.ref]. *)
Definition globFiles (target : RepoTarget) (pattern : string) (ref : option string)
  : M ViewerState GlobResult :=
  let* ref := match ref with
              | Some r => ret r
              | None => getDefaultBranch target
              end in
  let cacheKey := globCacheKey target ref pattern in
  let* present := gets (fun s => treeCache s !! cacheKey) in
  let* _ :=
    match present with
    | Some _ => ret tt
    | None =>
        let* tree := fetchTree target ref in
        let found :=
          map GitHubTreeEntry.path
              (filter (fun entry =>
                         bool_decide (GitHubTreeEntry.type entry = "blob")
                         && minimatch (GitHubTreeEntry.path entry) pattern)
                      (orElse (GitHubTreeResponse.tree tree) [])) in
        modify (setTreeCache cacheKey
                  {| matches := found;
                     truncated := orElse (GitHubTreeResponse.truncated tree) false |})
    end in
  let* cached := gets (fun s => treeCache s !! cacheKey) in
  match cached with
  | None => throw (Viewer GlobCacheFailed)
  | Some entry =>
      ret {| gr_pattern := pattern;
             gr_ref := ref;
             gr_matches := matches entry;
             gr_truncated := truncated entry |}
  end.

(** *** compareCommits *)

Definition compareUrl (target : RepoTarget) (baseRef headRef : string) : string :=
  repoUrl target +:+ "/compare/" +:+ encodeURIComponent baseRef +:+ "..."
    +:+ encodeURIComponent headRef.

(** The record built for one file of the compare payload. *)
Definition mapCompareFile (includePatches : option bool) (file : GitHubCompareFile.t)
  : CompareFileChange.t :=
  {| CompareFileChange.sha := GitHubCompareFile.sha file;
     CompareFileChange.filename := GitHubCompareFile.filename file;
     CompareFileChange.status := GitHubCompareFile.status file;
     CompareFileChange.additions := GitHubCompareFile.additions file;
     CompareFileChange.deletions := GitHubCompareFile.deletions file;
     CompareFileChange.changes := GitHubCompareFile.changes file;
     CompareFileChange.patch :=
       if orElse includePatches false then GitHubCompareFile.patch file else None;
     CompareFileChange.previousFilename := GitHubCompareFile.previous_filename file |}.

(** [compareCommits(repo, base, head, options)]; [baseRef] and
    [headRef] are [base] and [head], [includePatches] is
    [options.includePatches]. *)
Definition compareCommits (target : RepoTarget) (baseRef headRef : string)
    (includePatches : option bool) : M ViewerState CompareCommitsResult :=
  if Str.isEmpty baseRef then throw (Viewer BaseRequired)
  else if Str.isEmpty headRef then throw (Viewer HeadRequired)
  else
    let* response := ghFetch (compare remote) (compareUrl target baseRef headRef) in
    let data := json response in
    let files :=
      map (mapCompareFile includePatches)
          (orElse (GitHubCompareResponse.files data) []) in
    ret {| base := baseRef;
           head := headRef;
           aheadBy := orElse (GitHubCompareResponse.ahead_by data) 0%Z;
           behindBy := orElse (GitHubCompareResponse.behind_by data) 0%Z;
           totalCommits :=
             orElse (GitHubCompareResponse.total_commits data)
                    (Z.of_nat (length (orElse (GitHubCompareResponse.commits data) [])));
           files := files |}.

(** *** searchCode and searchCommits *)

(** [while (collected.length < toCollect) { ... }], the pagination loop
    that [searchCode] and [searchCommits] share; [pageUrl perPage page]
    is the URL of a page. *)
Fixpoint collectPages {T : Type} (endpoint : Endpoint (option (list T)))
    (pageUrl : Z -> Z -> string) (toCollect : count) (fuel : nat)
    (gathered : list T) (page : Z) : M ViewerState (list T) :=
  if Count.gtb toCollect (Z.of_nat (length gathered)) then
    match fuel with
    | O => exhausted
    | S fuel' =>
        let perPage := Count.minSub 100 toCollect (Z.of_nat (length gathered)) in
        let* response := ghFetch endpoint (pageUrl perPage page) in
        let items := orElse (json response) [] in
        match items with
        | [] => ret gathered
        | _ =>
            let gathered := gathered ++ items in
            if (Z.of_nat (length items) <? perPage)%Z then ret gathered
            else collectPages endpoint pageUrl toCollect fuel' gathered (page + 1)
        end
    end
  else ret gathered.

Definition blobCacheKey (target : RepoTarget) (sha : string) : string :=
  owner target +:+ "/" +:+ repo target +:+ ":" +:+ sha.

(** [loadBlobLines(repo, sha)] *)
Definition loadBlobLines (target : RepoTarget) (sha : string)
  : M ViewerState (list string) :=
  let cacheKey := blobCacheKey target sha in
  let* cached := gets (fun s => blobCache s !! cacheKey) in
  match cached with
  | Some fileLines => ret fileLines
  | None =>
      let url := repoUrl target +:+ "/git/blobs/" +:+ encodeURIComponent sha in
      let* response := ghFetch (blobs remote) url in
      let data := json response in
      if negb (truthy (GitHubBlobResponse.content data))
      then throw (Viewer (BlobUnreadable target sha))
      else
        let encoding := orElse (GitHubBlobResponse.encoding data) "base64" in
        match bufferFrom (orElse (GitHubBlobResponse.content data) EmptyString)
                         encoding with
        | None => throw (UnknownEncoding encoding)
        | Some buffer =>
            let fileLines := splitLines buffer in
            let* _ := modify (setBlobCache cacheKey fileLines) in
            ret fileLines
        end
  end.

(** [try { fileLines = await loadBlobLines(...) } catch (error) { if
    (error instanceof ViewerError) fileLines = [] else throw error }] *)
Definition loadBlobLinesOrNone (target : RepoTarget) (sha : string)
  : M ViewerState (list string) :=
  fun s =>
    match loadBlobLines target sha s with
    | (Threw (Viewer _), s') => (Returned [], s')
    | other => other
    end.

(** The body of the loop of [searchCode] over the retained hits, with
    the [fileCache] of the call. *)
Definition prepareItem (target : RepoTarget) (context : option Z)
    (item : GitHubCodeSearchItem.t) (fileCache : gmap string (list string))
  : M ViewerState (gmap string (list string) * CodeSearchResultItem) :=
  let repositoryFullName :=
    GitHubCodeSearchItem.full_name (GitHubCodeSearchItem.repository item) in
  let parts := Str.split "/" repositoryFullName in
  let targetRepo := {| owner := orElse (parts !! 0%nat) (owner target);
                       repo := orElse (parts !! 1%nat) (repo target) |} in
  let cacheKey := blobCacheKey targetRepo (GitHubCodeSearchItem.sha item) in
  let* fileCache :=
    match fileCache !! cacheKey with
    | Some _ => ret fileCache
    | None =>
        let* fileLines := loadBlobLinesOrNone targetRepo (GitHubCodeSearchItem.sha item) in
        ret (<[cacheKey := fileLines]> fileCache)
    end in
  let fileLines := orElse (fileCache !! cacheKey) [] in
  let matchLines :=
    collectMatchLineIndices (orElse (GitHubCodeSearchItem.text_matches item) [])
                            fileLines in
  let found := createSnippetsFromLines fileLines matchLines context in
  ret (fileCache,
       {| csr_repository := targetRepo;
          csr_fullName := repositoryFullName;
          csr_path := GitHubCodeSearchItem.path item;
          csr_ref := GitHubCodeSearchItem.sha item;
          csr_language := None;
          csr_score := GitHubCodeSearchItem.score item;
          snippets := found;
          csr_htmlUrl := GitHubCodeSearchItem.html_url item |}).

Fixpoint prepareAll (target : RepoTarget) (context : option Z)
    (results : list GitHubCodeSearchItem.t) (fileCache : gmap string (list string))
    (prepared : list CodeSearchResultItem) : M ViewerState (list CodeSearchResultItem) :=
  match results with
  | [] => ret prepared
  | item :: rest =>
      let* (fileCache, entry) := prepareItem target context item fileCache in
      prepareAll target context rest fileCache (prepared ++ [entry])
  end.

Definition codeSearchQuery (target : RepoTarget) (trimmedPattern : string)
    (path : option string) : string :=
  let repoQualifier := "repo:" +:+ owner target +:+ "/" +:+ repo target in
  Str.join " "
    ([trimmedPattern]
       ++ (if Str.includes trimmedPattern repoQualifier then [] else [repoQualifier])
       ++ (if truthy path then ["path:" +:+ orElse path EmptyString] else [])).

(** [searchCode(repo, options)] *)
Definition searchCode (fuel : nat) (target : RepoTarget) (options : CodeSearchOptions)
  : M ViewerState (list CodeSearchResultItem) :=
  let limit := normalizeLimit (cs_limit options) 30 100 in
  let offset := normalizeOffset (cs_offset options) in
  let toCollect := Count.add offset limit in
  let trimmedPattern := Str.trim (cs_pattern options) in
  if Str.isEmpty trimmedPattern then throw (Viewer PatternRequired)
  else
    let query := codeSearchQuery target trimmedPattern (cs_path options) in
    let pageUrl perPage page :=
      api +:+ "/search/code?q=" +:+ encodeURIComponent query
          +:+ "&per_page=" +:+ Str.ofZ perPage +:+ "&page=" +:+ Str.ofZ page in
    let* gathered := collectPages (codeSearch remote) pageUrl toCollect fuel [] 1 in
    match gathered with
    | [] => ret []
    | _ =>
        prepareAll target (cs_context options)
                   (slice gathered offset (Count.add offset limit)) ∅ []
    end.

Definition commitSearchQuery (target : RepoTarget) (options : CommitSearchOptions)
  : string :=
  let qualifier (prefix : string) (value : option string) :=
    if truthy value then [prefix +:+ orElse value EmptyString] else [] in
  Str.join " "
    (["repo:" +:+ owner target +:+ "/" +:+ repo target]
       ++ qualifier EmptyString (cm_query options)
       ++ qualifier "author:" (cm_author options)
       ++ qualifier "path:" (cm_path options)
       ++ qualifier "committer-date:>=" (cm_since options)
       ++ qualifier "committer-date:<=" (cm_until options)).

Definition mapCommit (item : GitHubCommitSearchItem.t) : CommitSearchResultItem :=
  let author := GitHubCommitSearchItem.author (GitHubCommitSearchItem.commit item) in
  {| cmr_sha := GitHubCommitSearchItem.sha item;
     cmr_message :=
       orElse (GitHubCommitSearchItem.message (GitHubCommitSearchItem.commit item))
              EmptyString;
     authorName :=
       match author ≫= GitHubCommitSearchItem.name with
       | Some n => Some n
       | None => GitHubCommitSearchItem.account item ≫= GitHubRepoSummary.login
       end;
     authorEmail := author ≫= GitHubCommitSearchItem.email;
     cmr_date := author ≫= GitHubCommitSearchItem.date;
     cmr_htmlUrl := GitHubCommitSearchItem.html_url item;
     cmr_stats := GitHubCommitSearchItem.stats item |}.

(** [searchCommits(repo, options)] *)
Definition searchCommits (fuel : nat) (target : RepoTarget)
    (options : CommitSearchOptions) : M ViewerState (list CommitSearchResultItem) :=
  let limit := normalizeLimit (cm_limit options) 50 100 in
  let offset := normalizeOffset (cm_offset options) in
  let toCollect := Count.add offset limit in
  let query := commitSearchQuery target options in
  let pageUrl perPage page :=
    api +:+ "/search/commits?q=" +:+ encodeURIComponent query
        +:+ "&per_page=" +:+ Str.ofZ perPage +:+ "&page=" +:+ Str.ofZ page
        +:+ "&sort=committer-date&order=desc" in
  let* gathered := collectPages (commitSearch remote) pageUrl toCollect fuel [] 1 in
  ret (map mapCommit (slice gathered offset (Count.add offset limit))).

End Viewer.

(** ** The rest of the viewer: listings *)

Inductive ScopeType : Type := Org | User.

Record Scope : Type := mkScope {
  scopeType : ScopeType;
  scopeValue : string
}.

(** [scopeLabel(scope)] *)
Definition scopeLabel (scope : Scope) : string :=
  match scopeType scope with
  | Org => "org:" +:+ scopeValue scope
  | User => "user:" +:+ scopeValue scope
  end.

Inductive DirectoryEntryType : Type := File | Dir | Symlink | Submodule | Other.

Module DirectoryEntry.
Record t : Type := mk {
  name : string;
  type : DirectoryEntryType;
  size : option Z;
  target : option string;
  sha : option string
}.
End DirectoryEntry.

Record ListOptions : Type := mkListOptions {
  lo_ref : option string;
  lo_limit : option number;
  lo_offset : option number
}.

Record ListResult : Type := mkListResult {
  lr_path : string;
  lr_ref : option string;
  entries : list DirectoryEntry.t
}.

(** What the contents end point answers for a path: one entry for a
    file, an array for a directory. *)
Inductive ContentsPayload : Type :=
| SingleEntry (entry : GitHubContentEntry.t)
| EntryList (listed : list GitHubContentEntry.t).

(** [formatEntry(entry)] *)
Definition formatEntry (entry : GitHubContentEntry.t) : DirectoryEntry.t :=
  let name := orElse (GitHubContentEntry.name entry) EmptyString in
  let kind := orElse (GitHubContentEntry.type entry) EmptyString in
  if String.eqb kind "file" then
    {| DirectoryEntry.name := name; DirectoryEntry.type := File;
       DirectoryEntry.size := GitHubContentEntry.size entry;
       DirectoryEntry.target := None;
       DirectoryEntry.sha := GitHubContentEntry.sha entry |}
  else if String.eqb kind "dir" then
    {| DirectoryEntry.name := name; DirectoryEntry.type := Dir;
       DirectoryEntry.size := None; DirectoryEntry.target := None;
       DirectoryEntry.sha := GitHubContentEntry.sha entry |}
  else if String.eqb kind "symlink" then
    {| DirectoryEntry.name := name; DirectoryEntry.type := Symlink;
       DirectoryEntry.size := None;
       DirectoryEntry.target := GitHubContentEntry.target entry;
       DirectoryEntry.sha := GitHubContentEntry.sha entry |}
  else if String.eqb kind "submodule" then
    {| DirectoryEntry.name := name; DirectoryEntry.type := Submodule;
       DirectoryEntry.size := None; DirectoryEntry.target := None;
       DirectoryEntry.sha := GitHubContentEntry.sha entry |}
  else
    {| DirectoryEntry.name := name; DirectoryEntry.type := Other;
       DirectoryEntry.size := None; DirectoryEntry.target := None;
       DirectoryEntry.sha := GitHubContentEntry.sha entry |}.

(** [offset > 0] for a normalized offset. *)
Definition positive (offset : count) : bool :=
  match offset with
  | Fin o => (0 <? o)%Z
  | Inf => true
  end.

(** The double quote. *)
Definition quote : ascii := ascii_of_nat 34.

(** The text [rel="next"]. *)
Definition relNext : string :=
  "rel=" +:+ String quote ("next" +:+ String quote EmptyString).

(** The run of characters other than [>] at the head of [s], with what
    follows the [>] that ends it; [None] when no [>] follows. *)
Fixpoint untilClose (s : string) : option (string * string) :=
  match s with
  | EmptyString => None
  | String c rest =>
      if Ascii.eqb c ">" then Some (EmptyString, rest)
      else match untilClose rest with
           | Some (run, after) => Some (String c run, after)
           | None => None
           end
  end.

(** A match of [/<([^>]+)>;\s*rel="next"/] that starts at the head of
    [s]: its group. *)
Definition matchNextAt (s : string) : option string :=
  match s with
  | String c rest =>
      if Ascii.eqb c "<" then
        match untilClose rest with
        | Some (run, String semi tail) =>
            if negb (Str.isEmpty run) && Ascii.eqb semi ";"
               && Str.startsWith (Str.trimStart tail) relNext
            then Some run else None
        | _ => None
        end
      else None
  | EmptyString => None
  end.

(** [part.match(/<([^>]+)>;\s*rel="next"/)]: the group of the leftmost
    match. *)
Fixpoint matchNext (part : string) : option string :=
  match matchNextAt part with
  | Some url => Some url
  | None =>
      match part with
      | EmptyString => None
      | String _ rest => matchNext rest
      end
  end.

(** [parseNextLink(linkHeader)] *)
Definition parseNextLink (linkHeader : option string) : option string :=
  if truthy linkHeader then
    fold_right (fun part found =>
                  match matchNext part with
                  | Some url => Some url
                  | None => found
                  end)
               None (Str.split "," (orElse linkHeader EmptyString))
  else None.

Section Listings.

Variable encodeURIComponent : string -> string.
Variable urlToString : string -> list (string * string) -> string.
Variable remote : Remote.
(** The contents end point, read as [listPath] reads it. *)
Variable directory : Endpoint ContentsPayload.

(** The name that [listRepositories] keeps of a repository. *)
Definition listedName (r : GitHubRepoSummary.t) : string :=
  match GitHubRepoSummary.full_name r with
  | Some fullName => fullName
  | None => orElse (GitHubRepoSummary.name r) EmptyString
  end.

(** [while (url) { ... }] of [listRepositories]. *)
Fixpoint listRepositoriesFrom (fuel : nat) (url : option string) (results : list string)
  : M ViewerState (list string) :=
  match url with
  | None => ret results
  | Some u =>
      if Str.isEmpty u then ret results
      else
        match fuel with
        | O => exhausted
        | S fuel' =>
            let* response := ghFetch (repoListing remote) u in
            listRepositoriesFrom fuel' (next response)
                                 (results ++ map listedName (json response))
        end
  end.

(** [listRepositories(scope)] *)
Definition listRepositories (fuel : nat) (scope : Scope) : M ViewerState (list string) :=
  let url :=
    match scopeType scope with
    | Org => "https://api.github.com/orgs/" +:+ encodeURIComponent (scopeValue scope)
               +:+ "/repos?per_page=100"
    | User => "https://api.github.com/users/" +:+ encodeURIComponent (scopeValue scope)
                +:+ "/repos?per_page=100"
    end in
  let* results := listRepositoriesFrom fuel (Some url) [] in
  ret (filter (fun entry => negb (Str.isEmpty entry)) results).

(** [listPath(repo, rawPath, options)] *)
Definition listPath (target : RepoTarget) (rawPath : string) (options : ListOptions)
  : M ViewerState ListResult :=
  let path := if String.eqb rawPath "." then EmptyString else rawPath in
  let url := contentsUrl encodeURIComponent urlToString target path (lo_ref options) in
  let* response := ghFetch directory url in
  let mappedEntries :=
    match json response with
    | EntryList listed => map formatEntry listed
    | SingleEntry entry => [formatEntry entry]
    end in
  let offset := normalizeOffset (lo_offset options) in
  let found :=
    match lo_limit options with
    | Some requested =>
        let limit := normalizeLimit (Some requested) 1 1000 in
        slice mappedEntries offset (Count.add offset limit)
    | None =>
        if positive offset then slice mappedEntries offset Inf
        else mappedEntries
    end in
  ret {| lr_path := rawPath; lr_ref := lo_ref options; entries := found |}.

End Listings.

(** ** The command line: the argument of [--read] *)

Inductive CliError : Type :=
| ReadTargetRequired
| RangeMalformed (suffix : string)
| RangeOutOfOrder (suffix : string).

(** The range as [parseReadArg] builds it: its bounds are what [Number]
    returned for a run of digits, an integer or the positive infinity. *)
Record NumberRange : Type := mkNumberRange {
  nr_start : count;
  nr_end : count
}.

Record ReadArg : Type := mkReadArg {
  ra_path : string;
  ra_range : option NumberRange
}.

(** [Number.MAX_SAFE_INTEGER]: up to it, a number holds every integer
    exactly. *)
Definition maxSafeInteger : Z := 9007199254740991.

(** The number that stands for a non-negative integer, correctly
    rounded as the engines do: the integer itself up to [2^53]; past it
    the nearest number with 53 significant bits, the even one at a tie;
    the positive infinity when that is [2^1024] or more. *)
Definition roundToDouble (n : Z) : count :=
  if (n <=? 9007199254740992)%Z then Fin n
  else
    let ulp := (2 ^ (Z.log2 n - 52))%Z in
    let q := (n / ulp)%Z in
    let r := (n mod ulp)%Z in
    let half := (ulp / 2)%Z in
    let rounded :=
      if (r <? half)%Z then q
      else if (half <? r)%Z then (q + 1)%Z
      else if Z.even q then q else (q + 1)%Z in
    if (2 ^ 1024 <=? rounded * ulp)%Z then Inf else Fin (rounded * ulp).

(** [Number(digits)] for a text that [\d+] matched, or [None] when the
    text is empty or holds another character. *)
Definition numberOfDigits (digits : string) : option count :=
  if Str.isEmpty digits then None
  else option_map (fun d => roundToDouble (Z.of_uint d)) (NilZero.uint_of_string digits).

(** [a < b] on such numbers. *)
Definition numberLt (a b : count) : bool :=
  match a, b with
  | Fin x, Fin y => (x <? y)%Z
  | Fin _, Inf => true
  | Inf, _ => false
  end.

(** [parseReadArg(arg)]: an error thrown, or the parsed argument. *)
Definition parseReadArg (arg : string) : CliError + ReadArg :=
  let parts := Str.split "@" arg in
  let path := orElse (parts !! 0%nat) EmptyString in
  let suffix := parts !! 1%nat in
  if Str.isEmpty path then inl ReadTargetRequired
  else if negb (truthy suffix) then inr {| ra_path := path; ra_range := None |}
  else
    let suffix := orElse suffix EmptyString in
    match Str.split "-" suffix with
    | [first; last] =>
        match numberOfDigits first, numberOfDigits last with
        | Some a, Some b =>
            if numberLt a (Fin 1) || numberLt b a then inl (RangeOutOfOrder suffix)
            else inr {| ra_path := path;
                        ra_range := Some {| nr_start := a; nr_end := b |} |}
        | _, _ => inl (RangeMalformed suffix)
        end
    | _ => inl (RangeMalformed suffix)
    end.

(** ** A concrete platform and concrete remotes *)

Module Sample.

(** URL escaping that leaves its argument as it is (no character of
    the samples needs escaping). *)
Definition encodeURIComponent (s : string) : string := s.

(** Enough of [URL] for texts that need no normalisation: the text, then
    the search parameters. *)
Definition urlToString (text : string) (params : list (string * string)) : string :=
  match params with
  | [] => text
  | _ =>
      text +:+ "?" +:+ Str.join "&" (map (fun param => fst param +:+ "=" +:+ snd param) params)
  end.

(** A collation: the order of the character codes. *)
Fixpoint localeCompare (a b : string) : Z :=
  match a, b with
  | EmptyString, EmptyString => 0
  | EmptyString, String _ _ => -1
  | String _ _, EmptyString => 1
  | String x a', String y b' =>
      if (nat_of_ascii x <? nat_of_ascii y)%nat then -1
      else if (nat_of_ascii y <? nat_of_ascii x)%nat then 1
      else localeCompare a' b'
  end.

(** The same order on the lower-cased strings. *)
Definition localeCompareAccent (a b : string) : Z :=
  localeCompare (Str.toLowerCase a) (Str.toLowerCase b).

(** A glob matcher that knows the pattern [*] and literal paths. *)
Definition minimatch (path pattern : string) : bool :=
  String.eqb pattern "*" || String.eqb path pattern.

(** Content that is sent as it is, whatever encoding is declared. *)
Definition bufferFrom (content encoding : string) : option string := Some content.

Definition respond {T : Type} (body : T) : Response T :=
  {| ok := true; status := 200; statusText := "OK"; details := EmptyString;
     next := None; json := body |}.

Definition unreachable {T : Type} : Endpoint T := fun _ _ => None.

Definition offline : Remote :=
  {| repoListing := unreachable; repoSearch := unreachable; contents := unreachable;
     trees := unreachable; repository := unreachable; blobs := unreachable;
     codeSearch := unreachable; commitSearch := unreachable; compare := unreachable |}.

Definition repoPayload (fullName name : string) (stargazers : Z)
    (lang : option string) : GitHubRepoSummary.t :=
  {| GitHubRepoSummary.full_name := Some fullName;
     GitHubRepoSummary.name := Some name;
     GitHubRepoSummary.description := None;
     GitHubRepoSummary.language := lang;
     GitHubRepoSummary.stargazers_count := Some stargazers;
     GitHubRepoSummary.forks_count := None;
     GitHubRepoSummary.private := None;
     GitHubRepoSummary.html_url := None;
     GitHubRepoSummary.default_branch := None;
     GitHubRepoSummary.topics := None;
     GitHubRepoSummary.visibility := None;
     GitHubRepoSummary.owner := None;
     GitHubRepoSummary.score := None |}.

(** A remote whose accessible channel lists [listed] and whose search
    finds [found], each on one page. *)
Definition discoveryRemote (listed found : list GitHubRepoSummary.t) : Remote :=
  {| repoListing := fun _ _ => Some (respond listed);
     repoSearch := fun _ _ => Some (respond (Some found));
     contents := unreachable; trees := unreachable; repository := unreachable;
     blobs := unreachable; codeSearch := unreachable; commitSearch := unreachable;
     compare := unreachable |}.

(** Discovery with the language [TypeScript] asked for: [tool] comes
    from the accessible channel, [kit] from the search, and neither
    carries a language. *)
Definition asked : Filters :=
  {| pattern := None; organization := None; language := Some "TypeScript" |}.
Definition tool : GitHubRepoSummary.t := repoPayload "acme/tool" "tool" 5 None.
Definition kit : GitHubRepoSummary.t := repoPayload "public/kit" "kit" 9 None.
Definition askTypeScript : RepositorySearchParams :=
  {| rs_pattern := None; rs_organization := None;
     rs_language := Some "TypeScript"; rs_limit := None; rs_offset := None |}.
Definition summaryOf (r : GitHubRepoSummary.t) : RepositorySummary.t :=
  match mapRepoSummary r with
  | Some s => s
  | None =>
      RepositorySummary.mk EmptyString EmptyString None None 0 0 false
                           EmptyString EmptyString [] None
  end.


(** The same repository seen by both channels: [widget] as the
    accessible channel lists it, with 3 stars, and as the search finds
    it, with 900 stars. *)
Definition listedWidget : GitHubRepoSummary.t := repoPayload "acme/widget" "widget" 3 None.
Definition foundWidget : GitHubRepoSummary.t := repoPayload "acme/widget" "widget" 900 None.
Definition noFilters : Filters :=
  {| pattern := None; organization := None; language := None |}.


(** A discovery over both channels: the accessible channel lists
    [widget] and [tool], the search finds [widget] again, [kit] and
    [gadget].  [discovered] is what [searchRepositories] answers when
    asked for everything. *)
Definition gadget : GitHubRepoSummary.t := repoPayload "public/gadget" "gadget" 40 None.
Definition bothChannels : Remote :=
  discoveryRemote [listedWidget; tool] [foundWidget; kit; gadget].
Definition askAll : RepositorySearchParams :=
  {| rs_pattern := None; rs_organization := None; rs_language := None;
     rs_limit := None; rs_offset := None |}.
Definition discovery : Outcome (list RepositorySummary.t) * ViewerState :=
  searchRepositories encodeURIComponent localeCompareAccent localeCompare
                     (Some "token") bothChannels 4 askAll freshViewer.
Definition discovered : list RepositorySummary.t :=
  match fst discovery with
  | Returned found => found
  | _ => []
  end.


(** The file of the snippet examples: eight lines. *)
Definition eightLines : list string :=
  ["line 1"; "line 2"; "line 3"; "line 4"; "line 5"; "line 6"; "line 7"; "line 8"].


(** A file of 204801 bytes, one line of [a]s, at [big.txt], and the
    three-line file of the read example at [file.txt]. *)
Definition bigContent : string := Str.repeat "a" (Z.to_nat 204801).
Definition threeLines : string :=
  "first line" +:+ Str.NL +:+ "second line" +:+ Str.NL +:+ "third line" +:+ Str.NL.
Definition fileEntry (body : string) : GitHubContentEntry.t :=
  {| GitHubContentEntry.type := Some "file";
     GitHubContentEntry.name := None;
     GitHubContentEntry.path := None;
     GitHubContentEntry.size := None;
     GitHubContentEntry.target := None;
     GitHubContentEntry.content := Some body;
     GitHubContentEntry.encoding := Some "base64";
     GitHubContentEntry.sha := None |}.
Definition example : RepoTarget := {| owner := "acme"; repo := "example" |}.
Definition fileRemote : Remote :=
  {| repoListing := unreachable; repoSearch := unreachable;
     contents := fun _ url =>
       if String.eqb url "https://api.github.com/repos/acme/example/contents/big.txt"
       then Some (respond (fileEntry bigContent))
       else if String.eqb url "https://api.github.com/repos/acme/example/contents/file.txt"
       then Some (respond (fileEntry threeLines))
       else None;
     trees := unreachable; repository := unreachable; blobs := unreachable;
     codeSearch := unreachable; commitSearch := unreachable; compare := unreachable |}.


(** A repository whose default branch is [main] and whose tree has
    three entries; the tree is marked as truncated. *)
Definition treeRemote : Remote :=
  {| repoListing := unreachable; repoSearch := unreachable; contents := unreachable;
     trees := fun _ _ =>
       Some (respond
               {| GitHubTreeResponse.tree :=
                    Some [ {| GitHubTreeEntry.path := "src";
                              GitHubTreeEntry.type := "tree" |};
                           {| GitHubTreeEntry.path := "src/index.ts";
                              GitHubTreeEntry.type := "blob" |};
                           {| GitHubTreeEntry.path := ".gitignore";
                              GitHubTreeEntry.type := "blob" |} ];
                  GitHubTreeResponse.truncated := Some true |});
     repository := fun _ _ => Some (respond (Some "main"));
     blobs := unreachable; codeSearch := unreachable; commitSearch := unreachable;
     compare := unreachable |}.
Definition firstGlob : Outcome GlobResult * ViewerState :=
  globFiles encodeURIComponent urlToString minimatch treeRemote example "*" (Some "main") freshViewer.
Definition globbed : GlobResult :=
  {| gr_pattern := "*"; gr_ref := "main";
     gr_matches := ["src/index.ts"; ".gitignore"]; gr_truncated := true |}.


(** A pattern of white space only: a blank, then U+00A0 and U+2003 in
    UTF-8, then a blank. *)
Definition blankPattern : string :=
  " " +:+ String (ascii_of_nat 194) (String (ascii_of_nat 160)
            (String (ascii_of_nat 226) (String (ascii_of_nat 128)
               (String (ascii_of_nat 131) " ")))).
Definition blankSearch : CodeSearchOptions :=
  {| cs_pattern := blankPattern; cs_path := None; cs_limit := None; cs_offset := None;
     cs_context := None |}.


(** A comparison of [main] with [feature]: one modified file, with its
    patch. *)
Definition changedFile : GitHubCompareFile.t :=
  {| GitHubCompareFile.sha := None;
     GitHubCompareFile.filename := "src/index.ts";
     GitHubCompareFile.status := "modified";
     GitHubCompareFile.additions := 5;
     GitHubCompareFile.deletions := 1;
     GitHubCompareFile.changes := 6;
     GitHubCompareFile.patch := Some "@@ -1,1 +1,1 @@";
     GitHubCompareFile.previous_filename := None |}.
Definition comparison : GitHubCompareResponse.t :=
  {| GitHubCompareResponse.commits := None;
     GitHubCompareResponse.ahead_by := Some 2%Z;
     GitHubCompareResponse.behind_by := Some 0%Z;
     GitHubCompareResponse.total_commits := Some 2%Z;
     GitHubCompareResponse.files := Some [changedFile] |}.
Definition compareRemote : Remote :=
  {| repoListing := unreachable; repoSearch := unreachable; contents := unreachable;
     trees := unreachable; repository := unreachable; blobs := unreachable;
     codeSearch := unreachable; commitSearch := unreachable;
     compare := fun _ url =>
       if String.eqb url "https://api.github.com/repos/acme/example/compare/main...feature"
       then Some (respond comparison) else None |}.


(** A code search that finds 150 hits on the first page; they are
    asked for with a limit of 5000.  The blobs are not found. *)
Definition hit : GitHubCodeSearchItem.t :=
  {| GitHubCodeSearchItem.path := "src/index.ts";
     GitHubCodeSearchItem.sha := "abc123";
     GitHubCodeSearchItem.html_url := "https://github.com/acme/example";
     GitHubCodeSearchItem.score := None;
     GitHubCodeSearchItem.repository :=
       {| GitHubCodeSearchItem.full_name := "acme/example";
          GitHubCodeSearchItem.name := "example";
          GitHubCodeSearchItem.owner := None |};
     GitHubCodeSearchItem.text_matches := None |}.
Definition commitHit : GitHubCommitSearchItem.t :=
  {| GitHubCommitSearchItem.sha := "abcdef123456";
     GitHubCommitSearchItem.html_url := "https://github.com/acme/example/commit/abcdef123456";
     GitHubCommitSearchItem.commit :=
       {| GitHubCommitSearchItem.message := Some "Fix bug";
          GitHubCommitSearchItem.author := None |};
     GitHubCommitSearchItem.account := None;
     GitHubCommitSearchItem.stats := None |}.
Definition generous : Remote :=
  {| repoListing := fun _ _ => Some (respond (List.repeat kit 150));
     repoSearch := unreachable; contents := unreachable;
     trees := unreachable; repository := unreachable;
     blobs := fun _ _ =>
       Some {| ok := false; status := 404; statusText := "Not Found";
               details := "Not Found"; next := None;
               json := {| GitHubBlobResponse.content := None;
                          GitHubBlobResponse.encoding := None |} |};
     codeSearch := fun _ _ => Some (respond (Some (List.repeat hit 150)));
     commitSearch := fun _ _ => Some (respond (Some (List.repeat commitHit 150)));
     compare := unreachable |}.
Definition greedySearch : CodeSearchOptions :=
  {| cs_pattern := "greet"; cs_path := None; cs_limit := Some (Num 5000);
     cs_offset := None; cs_context := None |}.
Definition greedyCommits : CommitSearchOptions :=
  {| cm_query := None; cm_author := None; cm_path := None; cm_since := None;
     cm_until := None; cm_limit := Some (Num 5000); cm_offset := None |}.
Definition codeFound : Outcome (list CodeSearchResultItem) * ViewerState :=
  searchCode encodeURIComponent bufferFrom generous 3 example greedySearch freshViewer.
Definition commitsFound : Outcome (list CommitSearchResultItem) * ViewerState :=
  searchCommits encodeURIComponent generous 3 example greedyCommits freshViewer.
Definition valueOf {A : Type} (run : Outcome (list A) * ViewerState) : list A :=
  match fst run with
  | Returned found => found
  | _ => []
  end.


(** An accessible channel that lists 150 repositories on one page;
    5000 are asked for. *)
Definition crowd : list GitHubRepoSummary.t :=
  map (fun i => repoPayload ("acme/r" +:+ Str.ofZ (Z.of_nat i)) "r" (Z.of_nat i) None)
      (seq 0 150).
Definition crowded : Remote := discoveryRemote crowd [].
Definition askMany : RepositorySearchParams :=
  {| rs_pattern := None; rs_organization := None; rs_language := None;
     rs_limit := Some (Num 5000); rs_offset := None |}.
Definition reposFound : Outcome (list RepositorySummary.t) * ViewerState :=
  searchRepositories encodeURIComponent localeCompareAccent localeCompare
                     (Some "token") crowded 3 askMany freshViewer.


(** A code search with one hit in [src/index.ts], whose blob the remote
    serves. *)
Definition greetSource : string :=
  "export function greet() {" +:+ Str.NL +:+ "  return 1;" +:+ Str.NL +:+ "}" +:+ Str.NL.
Definition greetHit : GitHubCodeSearchItem.t :=
  {| GitHubCodeSearchItem.path := "src/index.ts";
     GitHubCodeSearchItem.sha := "abc123";
     GitHubCodeSearchItem.html_url := "https://github.com/acme/example/blob/main/src/index.ts";
     GitHubCodeSearchItem.score := None;
     GitHubCodeSearchItem.repository :=
       {| GitHubCodeSearchItem.full_name := "acme/example";
          GitHubCodeSearchItem.name := "example";
          GitHubCodeSearchItem.owner := None |};
     GitHubCodeSearchItem.text_matches :=
       Some [ {| GitHubTextMatch.fragment :=
                   Some ("export function <em>greet</em>() {" +:+ Str.NL +:+ "  return 1;");
                 GitHubTextMatch.matches :=
                   Some [ {| GitHubTextMatch.text := Some "greet" |} ] |} ] |}.
Definition codeRemote : Remote :=
  {| repoListing := unreachable; repoSearch := unreachable; contents := unreachable;
     trees := unreachable; repository := unreachable;
     blobs := fun _ url =>
       if String.eqb url "https://api.github.com/repos/acme/example/git/blobs/abc123"
       then Some (respond {| GitHubBlobResponse.content := Some greetSource;
                             GitHubBlobResponse.encoding := Some "base64" |})
       else None;
     codeSearch := fun _ _ => Some (respond (Some [greetHit]));
     commitSearch := unreachable; compare := unreachable |}.
Definition greetSearch : CodeSearchOptions :=
  {| cs_pattern := "greet"; cs_path := None; cs_limit := Some (Num 5);
     cs_offset := None; cs_context := Some 0%Z |}.


(** The entries of the tree that [treeRemote] serves. *)
Definition treeListed : list GitHubTreeEntry.t :=
  [ {| GitHubTreeEntry.path := "src"; GitHubTreeEntry.type := "tree" |};
    {| GitHubTreeEntry.path := "src/index.ts"; GitHubTreeEntry.type := "blob" |};
    {| GitHubTreeEntry.path := ".gitignore"; GitHubTreeEntry.type := "blob" |} ].


(** The listing answers 500, the search answers with one repository. *)
Definition brokenListing : Remote :=
  {| repoListing := fun _ _ =>
       Some {| ok := false; status := 500; statusText := "Internal Server Error";
               details := "boom"; next := None; json := [] |};
     repoSearch := fun _ _ => Some (respond (Some [gadget]));
     contents := unreachable; trees := unreachable; repository := unreachable;
     blobs := unreachable; codeSearch := unreachable; commitSearch := unreachable;
     compare := unreachable |}.


(** The search for [greet] run on [codeRemote], and the same search with
    a context of -1. *)
Definition greetRun : Outcome (list CodeSearchResultItem) * ViewerState :=
  searchCode encodeURIComponent bufferFrom codeRemote 6 example greetSearch freshViewer.
Definition backwardsSearch : CodeSearchOptions :=
  {| cs_pattern := "greet"; cs_path := None; cs_limit := Some (Num 5);
     cs_offset := None; cs_context := Some (-1)%Z |}.
Definition backwardsRun : Outcome (list CodeSearchResultItem) * ViewerState :=
  searchCode encodeURIComponent bufferFrom codeRemote 6 example backwardsSearch freshViewer.


End Sample.

(** ** Vocabulary of the properties *)

(** The entry that [addRepository(repo, priority)] stores for a
    repository whose summary is [s]. *)
Definition candidateOf (repo : GitHubRepoSummary.t) (s : RepositorySummary.t)
    (prio : Z) : Candidate :=
  {| summary := s;
     priority := prio;
     stars := RepositorySummary.stars s;
     score := GitHubRepoSummary.score repo |}.

(** The same filters with no language asked for. *)
Definition withoutLanguage (f : Filters) : Filters :=
  {| pattern := pattern f; organization := organization f; language := None |}.

(** Every entry of the map is stored under the full name of its
    summary. *)
Definition keyedByFullName (c : JsMap.t Candidate) : Prop :=
  Forall (fun entry => fst entry = RepositorySummary.fullName (summary (snd entry))) c.


(** [a.score ?? 0] *)
Definition scoreOrZero (a : Candidate) : Q := orElse (score a) 0%Q.

(** The order of the result of [searchRepositories]: priority ascending,
    then stars descending, then score descending, then full name
    ascending in the collation [localeCompare]. *)
Definition precedes (localeCompare : string -> string -> Z) (a b : Candidate) : Prop :=
  (priority a < priority b)%Z \/
  (priority a = priority b /\
   ((stars b < stars a)%Z \/
    (stars a = stars b /\
     ((scoreOrZero b < scoreOrZero a)%Q \/
      ((scoreOrZero a == scoreOrZero b)%Q /\
       (localeCompare (RepositorySummary.fullName (summary a))
                      (RepositorySummary.fullName (summary b)) <= 0)%Z))))).

(** Among candidates of one priority, more stars come first. *)
Definition starsDescending (a b : Candidate) : Prop :=
  priority a = priority b -> (stars b <= stars a)%Z.

(** The window [[offset, offset + limit)] of a list. *)
Definition window {A : Type} (offset : count) (limit : Z) (l : list A) : list A :=
  match offset with
  | Fin o => firstn (Z.to_nat limit) (skipn (Z.to_nat o) l)
  | Inf => []
  end.


(** [x] may stand before [y] in an array sorted with [compareFn]. *)
Definition notAfter {A : Type} (compareFn : A -> A -> Q) (x y : A) : Prop :=
  (compareFn x y <= 0)%Q.


(** The lines numbered [first] to [last] of a file, numbered from 1. *)
Definition linesBetween (fileLines : list string) (first last : Z) : list string :=
  firstn (Z.to_nat (last - first + 1)) (skipn (Z.to_nat (first - 1)) fileLines).

(** What the specification asks of the snippet for the match at the
    0-based index [i], with context [c], in a file of [n] lines. *)
Definition windowedAround (fileLines : list string) (c i : Z)
    (snippet : CodeSearchSnippet) : Prop :=
  let n := Z.of_nat (length fileLines) in
  startLine snippet = (Z.max 0 (i - c) + 1)%Z /\
  endLine snippet = Z.min n (i + c + 1) /\
  (startLine snippet <= i + 1 <= endLine snippet)%Z /\
  lines snippet = linesBetween fileLines (startLine snippet) (endLine snippet) /\
  Z.of_nat (length (lines snippet)) = (endLine snippet - startLine snippet + 1)%Z.


(** The errors of validation: a malformed slug, a missing ref of a
    comparison, an empty search pattern. *)
Definition isValidationError (e : ViewerError) : Prop :=
  match e with
  | InvalidSlug _ | BaseRequired | HeadRequired | PatternRequired => True
  | _ => False
  end.

(** The slug splits on [/] into exactly two parts, neither empty. *)
Definition twoParts (slug : string) : Prop :=
  exists o r, Str.split "/" slug = [o; r] /\ o <> EmptyString /\ r <> EmptyString.

(** The character [c] occurs in [s]. *)
Fixpoint hasChar (c : ascii) (s : string) : bool :=
  match s with
  | EmptyString => false
  | String x rest => Ascii.eqb x c || hasChar c rest
  end.


(** The record kept for a file of the compare payload names the same
    file and carries the patch [expected]. *)
Definition changeOf (expected : GitHubCompareFile.t -> option string)
    (file : GitHubCompareFile.t) (change : CompareFileChange.t) : Prop :=
  CompareFileChange.filename change = GitHubCompareFile.filename file /\
  CompareFileChange.patch change = expected file.


(** The line contains the trimmed needle, letter case apart. *)
Definition containsNeedle (needle line : string) : bool :=
  Str.includes (Str.toLowerCase line) (Str.toLowerCase (Str.trim needle)).


(** The computation [m] keeps the property [P] of the collected map, in
    whatever way it ends. *)
Definition keeps {A : Type} (P : JsMap.t Candidate -> Prop) (m : M Discovery A) : Prop :=
  forall d, P (collected d) -> P (collected (snd (m d))).

(** The candidate passed the pattern and language filters when it was
    stored. *)
Definition wanted (localeCompareAccent : string -> string -> Z) (filters : Filters)
    (entry : Candidate) : Prop :=
  patternMismatch filters (summary entry) = false /\
  languageMismatch localeCompareAccent filters (summary entry) = false /\
  languageUnknown filters (summary entry) (priority entry) = false.

(** The URL of the repositories of the authenticated user. *)
Definition userReposUrl : string :=
  "https://api.github.com" +:+ "/user/repos?per_page=100&affiliation=owner,collaborator,organization_member&sort=updated&direction=desc".


(** The URL of a page of code hits, and the number of hits to gather. *)
Definition codePageUrl (encodeURIComponent : string -> string) (target : RepoTarget)
    (options : CodeSearchOptions) (perPage page : Z) : string :=
  api +:+ "/search/code?q="
      +:+ encodeURIComponent
            (codeSearchQuery target (Str.trim (cs_pattern options)) (cs_path options))
      +:+ "&per_page=" +:+ Str.ofZ perPage +:+ "&page=" +:+ Str.ofZ page.

Definition codeHitsWanted (options : CodeSearchOptions) : count :=
  Count.add (normalizeOffset (cs_offset options))
            (normalizeLimit (cs_limit options) 30 100).



(** The run ended: it returned or it threw. *)
Definition finished {A : Type} (outcome : Outcome A) : bool :=
  match outcome with
  | OutOfFuel => false
  | _ => true
  end.



(** The end point never answers with an HTTP failure; it may still
    reject the fetch. *)
Definition healthy {T : Type} (endpoint : Endpoint T) : Prop :=
  forall log url,
    match endpoint log url with
    | Some response => ok response = true
    | None => True
    end.

(** The computation never throws a [ViewerError]. *)
Definition calm {S A : Type} (m : M S A) : Prop :=
  forall s,
    match fst (m s) with
    | Threw (Viewer _) => False
    | _ => True
    end.



(** The link that announces [url] as the next page: [<url>; rel="next"]. *)
Definition nextLink (url : string) : string :=
  "<" +:+ url +:+ ">; " +:+ relNext.



(** The listing end point of the remote sent a repository under the
    name [name]. *)
Definition sentBy (remote : Remote) (name : string) : Prop :=
  exists log url response r,
    repoListing remote log url = Some response /\
    ok response = true /\
    In r (json response) /\
    listedName r = name.



(** What the specification asks of the snippets of one result of a code
    search: with the lines of the blob of the hit (none when the blob
    could not be read), one snippet for each match line found in them, in
    order, each windowed around its own match line. *)
Definition snippetsFor (context : option Z) (blobs : gmap string (list string))
    (hit : GitHubCodeSearchItem.t) (result : CodeSearchResultItem) : Prop :=
  let fileLines :=
    orElse (blobs !! blobCacheKey (csr_repository result) (GitHubCodeSearchItem.sha hit))
           [] in
  let indices :=
    collectMatchLineIndices (orElse (GitHubCodeSearchItem.text_matches hit) [])
                            fileLines in
  length (snippets result) = length indices /\
  Forall2 (windowedAround fileLines (orElse context 2%Z)) indices (snippets result).



(** * Properties *)

(** ** The [collected] map *)

Section JsMapFacts.

Context {V : Type}.
Implicit Types (m : JsMap.t V) (k : string) (v : V).

Lemma get_set_same m k v : JsMap.get (JsMap.set m k v) k = Some v.
Proof.
  induction m as [|[k' v'] m IH]; simpl.
  - now rewrite String.eqb_refl.
  - destruct (String.eqb k' k) eqn:E; simpl; rewrite E; auto.
Qed.

Lemma get_set_other m k k' v :
  k <> k' -> JsMap.get (JsMap.set m k v) k' = JsMap.get m k'.
Proof.
  intros Hne. induction m as [|[k0 v0] m IH]; simpl.
  - destruct (String.eqb k k') eqn:E; auto.
    apply String.eqb_eq in E. contradiction.
  - destruct (String.eqb k0 k) eqn:E; simpl.
    + apply String.eqb_eq in E. subst k0.
      destruct (String.eqb k k') eqn:E'; auto.
      apply String.eqb_eq in E'. contradiction.
    + destruct (String.eqb k0 k'); auto.
Qed.

Lemma keys_set_present m k v v0 :
  JsMap.get m k = Some v0 -> JsMap.keys (JsMap.set m k v) = JsMap.keys m.
Proof.
  unfold JsMap.keys.
  induction m as [|[k' v'] m IH]; simpl; [discriminate|].
  destruct (String.eqb k' k) eqn:E; simpl; intros H; auto.
  now rewrite IH.
Qed.

Lemma keys_set_absent m k v :
  JsMap.get m k = None -> JsMap.keys (JsMap.set m k v) = JsMap.keys m ++ [k].
Proof.
  unfold JsMap.keys.
  induction m as [|[k' v'] m IH]; simpl; auto.
  destruct (String.eqb k' k) eqn:E; simpl; intros H; [discriminate|].
  now rewrite IH.
Qed.

Lemma get_None_not_key m k : JsMap.get m k = None -> ~ In k (JsMap.keys m).
Proof.
  unfold JsMap.keys.
  induction m as [|[k' v'] m IH]; simpl; auto.
  destruct (String.eqb k' k) eqn:E; [discriminate|].
  apply String.eqb_neq in E. intros H [Hk|Hk]; auto. now apply IH.
Qed.

End JsMapFacts.

(** ** Filtering and merging the candidates *)

Section DiscoveryFacts.

Variable localeCompareAccent : string -> string -> Z.
Variable filters : Filters.

Local Abbreviation add := (addRepository localeCompareAccent filters).

(** What one call of [addRepository] does to the map: nothing, or one
    [set] under the full name of the candidate, which happens only when
    the key is free or held by an entry of a greater priority number. *)
Lemma addRepository_cases repo prio c :
  add repo prio c = c \/
  exists s,
    mapRepoSummary repo = Some s /\
    add repo prio c = JsMap.set c (RepositorySummary.fullName s) (candidateOf repo s prio) /\
    (JsMap.get c (RepositorySummary.fullName s) = None \/
     exists existing,
       JsMap.get c (RepositorySummary.fullName s) = Some existing /\
       (prio < priority existing)%Z).
Proof.
  unfold addRepository.
  destruct (mapRepoSummary repo) as [s|]; [|now left].
  destruct (ownerMismatch _ _ _); [now left|].
  destruct (patternMismatch _ _); [now left|].
  destruct (languageMismatch _ _ _); [now left|].
  destruct (languageUnknown _ _ _); [now left|].
  destruct (JsMap.get c (RepositorySummary.fullName s)) as [existing|] eqn:G.
  - destruct (prio <? priority existing)%Z eqn:L; [|now left].
    right. exists s. repeat split; auto. right. exists existing. split; auto. lia.
  - right. exists s. repeat split; auto.
Qed.

Lemma addRepository_admitted repo prio c s :
  mapRepoSummary repo = Some s ->
  rejects localeCompareAccent filters repo s prio = false ->
  add repo prio c =
    match JsMap.get c (RepositorySummary.fullName s) with
    | None => JsMap.set c (RepositorySummary.fullName s) (candidateOf repo s prio)
    | Some existing =>
        if (prio <? priority existing)%Z
        then JsMap.set c (RepositorySummary.fullName s) (candidateOf repo s prio)
        else c
    end.
Proof.
  unfold rejects, addRepository. intros -> H.
  apply orb_false_iff in H as [H H4]. apply orb_false_iff in H as [H H3].
  apply orb_false_iff in H as [H1 H2].
  now rewrite H1, H2, H3, H4.
Qed.

Lemma addRepository_rejected repo prio c s :
  mapRepoSummary repo = Some s ->
  rejects localeCompareAccent filters repo s prio = true ->
  add repo prio c = c.
Proof.
  unfold rejects, addRepository. intros -> H.
  destruct (ownerMismatch _ _ _); auto.
  destruct (patternMismatch _ _); auto.
  destruct (languageMismatch _ _ _); auto.
  destruct (languageUnknown _ _ _); auto.
  discriminate.
Qed.

End DiscoveryFacts.

(** C1, as the code has it.  With a language filter active, a candidate
    of a priority number above 0 (a search result) whose language is
    absent is turned away: the map is left as it was.  A priority-0
    candidate (organization or authenticated-user channel) whose language
    is absent is treated as if no language had been asked for, and it is
    stored when the owner and pattern filters let it through. *)
Theorem missing_language_rejects_search_candidates_only :
  forall (localeCompareAccent : string -> string -> Z) (filters : Filters)
         (repo : GitHubRepoSummary.t) (s : RepositorySummary.t)
         (c : JsMap.t Candidate),
    truthy (language filters) = true ->
    mapRepoSummary repo = Some s ->
    truthy (RepositorySummary.language s) = false ->
    (forall prio, (0 < prio)%Z ->
       addRepository localeCompareAccent filters repo prio c = c) /\
    addRepository localeCompareAccent filters repo 0 c =
      addRepository localeCompareAccent (withoutLanguage filters) repo 0 c /\
    (ownerMismatch localeCompareAccent filters repo = false ->
     patternMismatch filters s = false ->
     is_Some (JsMap.get (addRepository localeCompareAccent filters repo 0 c)
                        (RepositorySummary.fullName s))).
Proof.
  intros cmp filters repo s c Hfilter Hs Hlang.
  assert (Hmis : languageMismatch cmp filters s = false).
  { unfold languageMismatch.
    destruct (language filters) as [wanted|]; auto.
    destruct (RepositorySummary.language s) as [actual|]; auto.
    simpl in Hlang. apply negb_false_iff in Hlang. rewrite Hlang. simpl.
    now rewrite andb_false_r. }
  split; [|split].
  - intros prio Hprio. apply addRepository_rejected with (s := s); auto.
    unfold rejects. rewrite Hmis.
    assert (languageUnknown filters s prio = true) as ->.
    { unfold languageUnknown. rewrite Hfilter, Hlang. simpl. apply Z.ltb_lt. lia. }
    now rewrite !orb_true_r.
  - unfold addRepository. rewrite Hs, Hmis.
    unfold languageUnknown, languageMismatch, ownerMismatch, patternMismatch. simpl.
    now rewrite andb_false_r.
  - intros Ho Hp.
    rewrite (addRepository_admitted cmp filters repo 0 c s Hs).
    + destruct (JsMap.get c (RepositorySummary.fullName s)) as [existing|] eqn:G.
      * destruct (0 <? priority existing)%Z.
        -- rewrite get_set_same. eauto.
        -- rewrite G. eauto.
      * rewrite get_set_same. eauto.
    + unfold rejects. rewrite Ho, Hp, Hmis. unfold languageUnknown.
      now rewrite andb_false_r.
Qed.

(** C1 read as the specification words it fails: with the language
    filter [TypeScript] active, the priority-0 candidate [acme/tool]
    that carries no language is stored and returned, and the search
    result [public/kit] that carries no language is the one turned
    away. *)
Lemma priority0_without_language_is_kept :
  JsMap.keys (addRepository Sample.localeCompareAccent Sample.asked Sample.tool 0
                            JsMap.empty) = ["acme/tool"] /\
  addRepository Sample.localeCompareAccent Sample.asked Sample.kit 1 JsMap.empty
    = JsMap.empty /\
  fst (searchRepositories Sample.encodeURIComponent Sample.localeCompareAccent
         Sample.localeCompare (Some "token")
         (Sample.discoveryRemote [Sample.tool] [Sample.kit]) 4
         Sample.askTypeScript freshViewer)
    = Returned [Sample.summaryOf Sample.tool].
Proof. repeat split. Qed.

Lemma missing_language_rejects_search_candidates_only_witness :
  addRepository Sample.localeCompareAccent Sample.asked Sample.kit 1 JsMap.empty
    = JsMap.empty /\
  addRepository Sample.localeCompareAccent Sample.asked Sample.tool 0 JsMap.empty
    = addRepository Sample.localeCompareAccent (withoutLanguage Sample.asked)
                    Sample.tool 0 JsMap.empty /\
  is_Some (JsMap.get (addRepository Sample.localeCompareAccent Sample.asked
                                    Sample.tool 0 JsMap.empty) "acme/tool").
Proof.
  destruct (missing_language_rejects_search_candidates_only
              Sample.localeCompareAccent Sample.asked Sample.kit
              (Sample.summaryOf Sample.kit) JsMap.empty
              eq_refl eq_refl eq_refl) as [Hkit _].
  destruct (missing_language_rejects_search_candidates_only
              Sample.localeCompareAccent Sample.asked Sample.tool
              (Sample.summaryOf Sample.tool) JsMap.empty
              eq_refl eq_refl eq_refl) as (_ & Hsame & Hstored).
  split; [apply Hkit; lia|].
  split; [exact Hsame|].
  apply Hstored; reflexivity.
Defined.

Lemma set_keeps_keyed (c : JsMap.t Candidate) (key : string) (v : Candidate) :
  keyedByFullName c ->
  key = RepositorySummary.fullName (summary v) ->
  keyedByFullName (JsMap.set c key v).
Proof.
  unfold keyedByFullName. intros Hc Hv.
  induction c as [|[k v0] c IH]; simpl.
  - constructor; auto.
  - inversion Hc as [|? ? Hhd Htl]; subst.
    destruct (String.eqb k (RepositorySummary.fullName (summary v))) eqn:E.
    + apply String.eqb_eq in E. constructor; auto.
    + constructor; auto.
Qed.

(** C2.  Deduplication is keyed by full name and the first, best
    priority wins.  (a) An entry that occupies a key stays as it is
    through any later [addRepository], unless the later candidate has the
    same full name and a strictly lower priority number, in which case it
    takes the place; so a duplicate of equal or higher priority number
    never overwrites.  (b) No key occurs twice, and (c) every entry is
    stored under its own full name.  (d) When an accessible-channel
    candidate (priority 0) and a search candidate (priority 1) share a
    full name, the entry kept is the priority-0 one, in whichever order
    the two arrive and whatever their star counts. *)
Theorem first_best_priority_wins :
  forall (localeCompareAccent : string -> string -> Z) (filters : Filters),
    (forall repo prio c key existing,
        JsMap.get c key = Some existing ->
        JsMap.get (addRepository localeCompareAccent filters repo prio c) key
          = Some existing
        \/ exists s,
            mapRepoSummary repo = Some s /\
            RepositorySummary.fullName s = key /\
            (prio < priority existing)%Z /\
            JsMap.get (addRepository localeCompareAccent filters repo prio c) key
              = Some (candidateOf repo s prio)) /\
    (forall repo prio c,
        NoDup (JsMap.keys c) ->
        NoDup (JsMap.keys (addRepository localeCompareAccent filters repo prio c))) /\
    (forall repo prio c,
        keyedByFullName c ->
        keyedByFullName (addRepository localeCompareAccent filters repo prio c)) /\
    (forall r0 r1 s0 s1 c,
        mapRepoSummary r0 = Some s0 ->
        mapRepoSummary r1 = Some s1 ->
        RepositorySummary.fullName s0 = RepositorySummary.fullName s1 ->
        rejects localeCompareAccent filters r0 s0 0 = false ->
        JsMap.get c (RepositorySummary.fullName s0) = None ->
        JsMap.get (addRepository localeCompareAccent filters r1 1
                     (addRepository localeCompareAccent filters r0 0 c))
                  (RepositorySummary.fullName s0) = Some (candidateOf r0 s0 0)
        /\
        JsMap.get (addRepository localeCompareAccent filters r0 0
                     (addRepository localeCompareAccent filters r1 1 c))
                  (RepositorySummary.fullName s0) = Some (candidateOf r0 s0 0)).
Proof.
  intros cmp filters. repeat apply conj.
  - intros repo prio c key existing Hget.
    destruct (addRepository_cases cmp filters repo prio c)
      as [->|(s & Hs & -> & Hwhy)]; [now left|].
    destruct (String.eqb_spec (RepositorySummary.fullName s) key) as [Heq|Hne].
    + right. exists s. rewrite Heq in *. rewrite get_set_same.
      destruct Hwhy as [Hnone|(e & He & Hlt)]; [congruence|].
      assert (e = existing) by congruence. subst e. auto.
    + left. now rewrite get_set_other.
  - intros repo prio c Hnodup.
    destruct (addRepository_cases cmp filters repo prio c)
      as [->|(s & Hs & -> & Hwhy)]; auto.
    destruct Hwhy as [Hnone|(e & He & Hlt)].
    + rewrite keys_set_absent by assumption.
      apply NoDup_app. repeat split; auto.
      * intros k Hk Hin. apply list_elem_of_In in Hk.
        apply list_elem_of_singleton in Hin. subst k.
        now apply (get_None_not_key c (RepositorySummary.fullName s)).
      * apply NoDup_singleton.
    + now rewrite (keys_set_present c _ _ e).
  - intros repo prio c Hkeyed.
    destruct (addRepository_cases cmp filters repo prio c)
      as [->|(s & Hs & -> & Hwhy)]; auto.
    now apply set_keeps_keyed.
  - intros r0 r1 s0 s1 c H0 H1 Hname Hin0 Hfree.
    split.
    + rewrite (addRepository_admitted cmp filters r0 0 c s0 H0 Hin0), Hfree.
      destruct (rejects cmp filters r1 s1 1) eqn:Hin1.
      * rewrite (addRepository_rejected cmp filters r1 1 _ s1 H1 Hin1).
        apply get_set_same.
      * rewrite (addRepository_admitted cmp filters r1 1 _ s1 H1 Hin1).
        rewrite <- Hname, get_set_same. simpl. apply get_set_same.
    + destruct (rejects cmp filters r1 s1 1) eqn:Hin1.
      * rewrite (addRepository_rejected cmp filters r1 1 _ s1 H1 Hin1).
        rewrite (addRepository_admitted cmp filters r0 0 c s0 H0 Hin0), Hfree.
        apply get_set_same.
      * rewrite (addRepository_admitted cmp filters r1 1 _ s1 H1 Hin1).
        rewrite <- Hname, Hfree.
        rewrite (addRepository_admitted cmp filters r0 0 _ s0 H0 Hin0).
        rewrite get_set_same. simpl. apply get_set_same.
Qed.

Lemma first_best_priority_wins_witness :
  JsMap.get (addRepository Sample.localeCompareAccent Sample.noFilters Sample.foundWidget 1
               (addRepository Sample.localeCompareAccent Sample.noFilters
                              Sample.listedWidget 0 JsMap.empty))
            "acme/widget"
    = Some (candidateOf Sample.listedWidget (Sample.summaryOf Sample.listedWidget) 0)
  /\
  JsMap.get (addRepository Sample.localeCompareAccent Sample.noFilters Sample.listedWidget 0
               (addRepository Sample.localeCompareAccent Sample.noFilters
                              Sample.foundWidget 1 JsMap.empty))
            "acme/widget"
    = Some (candidateOf Sample.listedWidget (Sample.summaryOf Sample.listedWidget) 0).
Proof.
  destruct (first_best_priority_wins Sample.localeCompareAccent Sample.noFilters)
    as (_ & _ & _ & Hboth).
  exact (Hboth Sample.listedWidget Sample.foundWidget
               (Sample.summaryOf Sample.listedWidget)
               (Sample.summaryOf Sample.foundWidget)
               JsMap.empty eq_refl eq_refl eq_refl eq_refl eq_refl).
Defined.

(** ** Sorting and slicing *)

Section SortFacts.

Context {A : Type}.
Variable compareFn : A -> A -> Q.

Local Abbreviation notAfter := (notAfter compareFn).

Lemma insertSorted_perm x l : Permutation (insertSorted compareFn x l) (x :: l).
Proof.
  induction l as [|y l IH]; simpl; auto.
  destruct (Qle_bool (compareFn x y) 0); auto.
  rewrite IH. apply perm_swap.
Qed.

Lemma sort_perm l : Permutation (sort compareFn l) l.
Proof.
  induction l as [|x l IH]; simpl; auto.
  rewrite insertSorted_perm. now constructor.
Qed.

Hypothesis total : forall x y, notAfter x y \/ notAfter y x.
Hypothesis transitive : forall x y z, notAfter x y -> notAfter y z -> notAfter x z.

Lemma insertSorted_sorted x l :
  StronglySorted notAfter l -> StronglySorted notAfter (insertSorted compareFn x l).
Proof.
  induction 1 as [|y l Hl IH Hy]; simpl.
  - repeat constructor.
  - destruct (Qle_bool (compareFn x y) 0) eqn:E.
    + apply Qle_bool_iff in E.
      constructor; [now constructor|].
      constructor; auto.
      eapply Forall_impl; [exact Hy|]. intros z Hz. now apply transitive with y.
    + constructor; auto.
      assert (Hyx : notAfter y x).
      { destruct (total x y) as [H|H]; auto.
        apply Qle_bool_iff in H. congruence. }
      eapply Permutation_Forall; [symmetry; apply insertSorted_perm|].
      constructor; auto.
Qed.

Lemma sort_sorted l : StronglySorted notAfter (sort compareFn l).
Proof.
  induction l as [|x l IH]; simpl; [constructor|].
  now apply insertSorted_sorted.
Qed.

End SortFacts.

Lemma StronglySorted_weaken {A : Type} (R S : A -> A -> Prop) (l : list A) :
  (forall x y, R x y -> S x y) -> StronglySorted R l -> StronglySorted S l.
Proof.
  intros HRS. induction 1 as [|x l Hl IH Hx]; constructor; auto.
  eapply Forall_impl; [exact Hx|]. auto.
Qed.

Lemma slice_window {A : Type} (l : list A) (o limit : Z) :
  (0 <= o)%Z -> (0 <= limit)%Z ->
  slice l (Fin o) (Count.add (Fin o) limit) = window (Fin o) limit l.
Proof.
  intros Ho Hlimit. unfold slice, window, Count.add, clampIndex.
  destruct (Z.ltb_spec o 0); [lia|].
  destruct (Z.ltb_spec (o + limit) 0); [lia|].
  destruct (Z.le_gt_cases o (Z.of_nat (length l))) as [Hin|Hout].
  - rewrite (Z.min_l o) by lia.
    replace (Z.to_nat (Z.min (o + limit) (Z.of_nat (length l)) - o))
      with (Nat.min (Z.to_nat limit) (length (skipn (Z.to_nat o) l))).
    + destruct (Nat.le_ge_cases (Z.to_nat limit) (length (skipn (Z.to_nat o) l))).
      * now rewrite Nat.min_l.
      * rewrite Nat.min_r by assumption.
        rewrite !firstn_all2; auto.
    + rewrite length_skipn. lia.
  - rewrite (Z.min_r o) by lia. rewrite (Z.min_r (o + limit)) by lia.
    rewrite !skipn_all2 by lia. now rewrite !firstn_nil.
Qed.

Lemma slice_infinite {A : Type} (l : list A) (limit : Z) :
  slice l Inf (Count.add Inf limit) = window Inf limit l.
Proof.
  unfold slice, window. simpl. now rewrite Z.sub_diag.
Qed.

Lemma normalizeOffset_nonneg offset o : normalizeOffset offset = Fin o -> (0 <= o)%Z.
Proof.
  unfold normalizeOffset.
  destruct offset as [[| |q|]|]; try (intros [= <-]; lia); try discriminate.
  destruct (Qle_bool q 0) eqn:E; intros [= <-]; [lia|].
  assert (Hq : (0 <= q)%Q).
  { destruct (Qlt_le_dec 0 q) as [H|H]; [now apply Qlt_le_weak|].
    apply Qle_bool_iff in H. congruence. }
  apply Qfloor_resp_le in Hq. exact Hq.
Qed.

Lemma normalizeLimit_bounds limit fallback max :
  (0 <= fallback <= max)%Z ->
  (0 <= normalizeLimit limit fallback max <= max)%Z.
Proof.
  intros Hf. unfold normalizeLimit.
  destruct limit as [[| |q|]|]; try lia.
  destruct (Qle_bool q 0) eqn:E; [lia|].
  assert (Hq : (0 <= q)%Q).
  { destruct (Qlt_le_dec 0 q) as [H|H]; [now apply Qlt_le_weak|].
    apply Qle_bool_iff in H. congruence. }
  apply Qfloor_resp_le in Hq. change (Qfloor 0) with 0%Z in Hq. lia.
Qed.

Section CandidateOrder.

Variable localeCompare : string -> string -> Z.

Lemma inject_Z_nonpos (z : Z) : (inject_Z z <= 0)%Q <-> (z <= 0)%Z.
Proof. change 0%Q with (inject_Z 0). now rewrite <- Zle_Qle. Qed.

(** The comparison function of [searchRepositories] is not positive
    exactly on the pairs that [precedes] orders. *)
Lemma compareCandidates_precedes a b :
  notAfter (compareCandidates localeCompare) a b <-> precedes localeCompare a b.
Proof.
  unfold notAfter, compareCandidates, precedes, scoreOrZero.
  destruct (Z.eqb_spec (priority a) (priority b)) as [Hp|Hp]; simpl.
  - destruct (Z.eqb_spec (stars b) (stars a)) as [Hs|Hs]; simpl.
    + destruct (Qeq_bool (orElse (score b) 0%Q) (orElse (score a) 0%Q)) eqn:Hq; simpl.
      * apply Qeq_bool_iff in Hq. rewrite inject_Z_nonpos.
        split.
        -- intros H. right. split; auto. right. split; auto. right.
           split; auto. now symmetry.
        -- intros [H|[_ [H|[_ [H|[_ H]]]]]]; try lia; auto. lra.
      * apply Qeq_bool_neq in Hq.
        split.
        -- intros H. right. split; auto. right. split; auto. left.
           destruct (Qlt_le_dec (orElse (score b) 0%Q) (orElse (score a) 0%Q)) as [L|L]; auto.
           exfalso. apply Hq. lra.
        -- intros [H|[_ [H|[_ [H|[H _]]]]]]; try lia; lra.
    + rewrite inject_Z_nonpos.
      split.
      * intros H. right. split; auto. left. lia.
      * intros [H|[_ [H|[H _]]]]; lia.
  - rewrite inject_Z_nonpos.
    split.
    + intros H. left. lia.
    + intros [H|[H _]]; lia.
Qed.

Hypothesis total : forall x y,
  (localeCompare x y <= 0)%Z \/ (localeCompare y x <= 0)%Z.
Hypothesis transitive : forall x y z,
  (localeCompare x y <= 0)%Z -> (localeCompare y z <= 0)%Z ->
  (localeCompare x z <= 0)%Z.

Lemma precedes_total a b : precedes localeCompare a b \/ precedes localeCompare b a.
Proof.
  unfold precedes.
  destruct (Z.lt_trichotomy (priority a) (priority b)) as [H|[H|H]].
  { left. left. exact H. }
  2:{ right. left. exact H. }
  destruct (Z.lt_trichotomy (stars a) (stars b)) as [S|[S|S]].
  { right. right. split; [lia|]. left. exact S. }
  2:{ left. right. split; [lia|]. left. exact S. }
  destruct (Qlt_le_dec (scoreOrZero a) (scoreOrZero b)) as [Q|Q].
  { right. right. split; [lia|]. right. split; [lia|]. left. exact Q. }
  destruct (Qlt_le_dec (scoreOrZero b) (scoreOrZero a)) as [Q'|Q'].
  { left. right. split; [lia|]. right. split; [lia|]. left. exact Q'. }
  assert (E : (scoreOrZero a == scoreOrZero b)%Q) by lra.
  destruct (total (RepositorySummary.fullName (summary a))
                  (RepositorySummary.fullName (summary b))) as [L|L].
  - left. right. split; [lia|]. right. split; [lia|]. right. split; assumption.
  - right. right. split; [lia|]. right. split; [lia|]. right.
    split; [now symmetry|assumption].
Qed.

Lemma precedes_transitive a b c :
  precedes localeCompare a b -> precedes localeCompare b c ->
  precedes localeCompare a c.
Proof.
  unfold precedes.
  intros [H|[Hp [H|[Hs [H|[Hq H]]]]]] [K|[Kp [K|[Ks [K|[Kq K]]]]]];
    try (left; lia);
    (right; split; [lia|]);
    try (left; lia);
    (right; split; [lia|]);
    try (left; lra).
  right. split; [lra|]. eapply transitive; eauto.
Qed.

(** The array that [searchRepositories] slices: a rearrangement of the
    collected values in the order [precedes]. *)
Lemma sorted_candidates (l : list Candidate) :
  Permutation (sort (compareCandidates localeCompare) l) l /\
  StronglySorted (precedes localeCompare) (sort (compareCandidates localeCompare) l).
Proof.
  split; [apply sort_perm|].
  apply StronglySorted_weaken with (R := notAfter (compareCandidates localeCompare)).
  { intros x y. apply compareCandidates_precedes. }
  apply sort_sorted.
  - intros x y. rewrite !compareCandidates_precedes. apply precedes_total.
  - intros x y z. rewrite !compareCandidates_precedes. apply precedes_transitive.
Qed.

End CandidateOrder.

Lemma precedes_starsDescending localeCompare a b :
  precedes localeCompare a b -> starsDescending a b.
Proof.
  unfold precedes, starsDescending.
  intros [H|[_ [H|[H _]]]] E; lia.
Qed.

Lemma sample_localeCompare_total x y :
  (Sample.localeCompare x y <= 0)%Z \/ (Sample.localeCompare y x <= 0)%Z.
Proof.
  revert y. induction x as [|a x IH]; intros [|b y]; simpl; try lia.
  destruct (Nat.ltb_spec (nat_of_ascii a) (nat_of_ascii b)); [lia|].
  destruct (Nat.ltb_spec (nat_of_ascii b) (nat_of_ascii a)); [lia|].
  apply IH.
Qed.

Lemma sample_localeCompare_transitive x y z :
  (Sample.localeCompare x y <= 0)%Z -> (Sample.localeCompare y z <= 0)%Z ->
  (Sample.localeCompare x z <= 0)%Z.
Proof.
  revert y z. induction x as [|a x IH]; intros [|b y] [|c z]; simpl; try lia.
  destruct (Nat.ltb_spec (nat_of_ascii a) (nat_of_ascii b));
    destruct (Nat.ltb_spec (nat_of_ascii b) (nat_of_ascii a));
    destruct (Nat.ltb_spec (nat_of_ascii b) (nat_of_ascii c));
    destruct (Nat.ltb_spec (nat_of_ascii c) (nat_of_ascii b));
    destruct (Nat.ltb_spec (nat_of_ascii a) (nat_of_ascii c));
    destruct (Nat.ltb_spec (nat_of_ascii c) (nat_of_ascii a));
    try lia.
  apply IH.
Qed.

(** C3.  Whenever [searchRepositories] returns, what it returns is the
    window [[offset, offset + limit)] of the merged candidates (the map
    that the collection left) put in the order: priority ascending, then
    stars descending, then score descending with an absent score read
    as 0, then full name ascending in the collation; in particular
    candidates of one priority stand by stars descending.  The collation
    is any total and transitive [localeCompare]. *)
Theorem searchRepositories_sorted_window :
  forall (encodeURIComponent : string -> string)
         (localeCompareAccent localeCompare : string -> string -> Z)
         (authToken : option string) (remote : Remote),
    (forall x y, (localeCompare x y <= 0)%Z \/ (localeCompare y x <= 0)%Z) ->
    (forall x y z, (localeCompare x y <= 0)%Z -> (localeCompare y z <= 0)%Z ->
                   (localeCompare x z <= 0)%Z) ->
    forall fuel params s found s',
      searchRepositories encodeURIComponent localeCompareAccent localeCompare
                         authToken remote fuel params s = (Returned found, s') ->
      let limit := normalizeLimit (rs_limit params) 30 100 in
      let offset := normalizeOffset (rs_offset params) in
      exists merged sorted,
        collectCandidates encodeURIComponent localeCompareAccent authToken remote
                          (filtersOf params) (Count.add (Count.add offset limit) 100)
                          fuel (Count.add offset limit)
                          {| collected := JsMap.empty; viewer := s |}
          = (Returned tt, {| collected := merged; viewer := s' |}) /\
        Permutation sorted (JsMap.values merged) /\
        StronglySorted (precedes localeCompare) sorted /\
        StronglySorted starsDescending sorted /\
        found = map summary (window offset limit sorted).
Proof.
  intros enc cmpA cmp token remote Htotal Htrans fuel params s found s' Hrun limit offset.
  unfold searchRepositories in Hrun. fold limit offset in Hrun.
  destruct (collectCandidates enc cmpA token remote (filtersOf params)
              (Count.add (Count.add offset limit) 100) fuel (Count.add offset limit)
              {| collected := JsMap.empty; viewer := s |})
    as [[[]| |] [merged s'']] eqn:Hcollect; simpl in Hrun; try discriminate.
  injection Hrun as <- <-.
  exists merged, (sort (compareCandidates cmp) (JsMap.values merged)).
  destruct (sorted_candidates cmp Htotal Htrans (JsMap.values merged)) as [Hperm Hsorted].
  repeat split; auto.
  - eapply StronglySorted_weaken; [|exact Hsorted].
    intros x y. apply precedes_starsDescending.
  - unfold sortAndSlice. f_equal.
    destruct offset as [o|] eqn:Ho.
    + apply slice_window.
      * now apply (normalizeOffset_nonneg (rs_offset params)).
      * apply normalizeLimit_bounds. lia.
    + apply slice_infinite.
Qed.

Lemma searchRepositories_sorted_window_witness :
  exists merged sorted,
    collectCandidates Sample.encodeURIComponent Sample.localeCompareAccent
                      (Some "token") Sample.bothChannels (filtersOf Sample.askAll)
                      (Fin 130) 4 (Fin 30)
                      {| collected := JsMap.empty; viewer := freshViewer |}
      = (Returned tt, {| collected := merged; viewer := snd Sample.discovery |}) /\
    Permutation sorted (JsMap.values merged) /\
    StronglySorted (precedes Sample.localeCompare) sorted /\
    StronglySorted starsDescending sorted /\
    Sample.discovered = map summary (window (Fin 0) 30 sorted).
Proof.
  exact (searchRepositories_sorted_window
           Sample.encodeURIComponent Sample.localeCompareAccent Sample.localeCompare
           (Some "token") Sample.bothChannels
           sample_localeCompare_total sample_localeCompare_transitive
           4 Sample.askAll freshViewer Sample.discovered (snd Sample.discovery)
           eq_refl).
Defined.

(** The sample discovery: the accessible channel first, each channel by
    stars descending, [widget] once and as the accessible channel
    listed it. *)
Example discovered_order :
  map (fun r => (RepositorySummary.fullName r, RepositorySummary.stars r))
      Sample.discovered
  = [("acme/tool", 5%Z); ("acme/widget", 3%Z); ("public/gadget", 40%Z);
     ("public/kit", 9%Z)].
Proof. reflexivity. Qed.

(** ** Snippets *)

Lemma fold_left_push {A B : Type} (f : A -> B) (l : list A) (acc : list B) :
  fold_left (fun out x => out ++ [f x]) l acc = acc ++ map f l.
Proof.
  revert acc. induction l as [|x l IH]; intros acc; simpl.
  - now rewrite app_nil_r.
  - rewrite IH. now rewrite <- app_assoc.
Qed.

(** The loop of [createSnippetsFromLines] makes one snippet for each
    index, in the order of the indices. *)
Lemma createSnippetsFromLines_map fileLines indices context :
  createSnippetsFromLines fileLines indices context
  = map (snippetAround fileLines (orElse context 2%Z)) indices.
Proof.
  unfold createSnippetsFromLines. destruct indices as [|i indices]; auto.
  now rewrite fold_left_push.
Qed.

Lemma snippetAround_windowed fileLines c i :
  (0 <= c)%Z -> (0 <= i < Z.of_nat (length fileLines))%Z ->
  windowedAround fileLines c i (snippetAround fileLines c i).
Proof.
  intros Hc Hi. unfold windowedAround, snippetAround, linesBetween. simpl.
  set (n := Z.of_nat (length fileLines)) in *.
  assert (Hmax : (Z.max (Z.max 0 (i - c) + 1) (Z.min n (i + c + 1))
                  = Z.min n (i + c + 1))%Z) by lia.
  rewrite Hmax.
  assert (Hslice : slice fileLines (Fin (Z.max 0 (i - c))) (Fin (Z.min n (i + c + 1)))
                   = firstn (Z.to_nat (Z.min n (i + c + 1) - (Z.max 0 (i - c) + 1) + 1))
                            (skipn (Z.to_nat (Z.max 0 (i - c) + 1 - 1)) fileLines)).
  { unfold slice, clampIndex. fold n.
    destruct (Z.ltb_spec (Z.max 0 (i - c)) 0); [lia|].
    destruct (Z.ltb_spec (Z.min n (i + c + 1)) 0); [lia|].
    f_equal; [|f_equal]; lia. }
  repeat split; try lia; auto.
  rewrite Hslice, length_firstn, length_skipn. fold n. lia.
Qed.

(** [createSnippetsFromLines] on match indices inside the file, for a
    context that is not negative: one snippet for each index, in order,
    each windowed around its own index. *)
Lemma createSnippetsFromLines_windows :
  forall (fileLines : list string) (indices : list Z) (context : option Z),
    (0 <= orElse context 2)%Z ->
    Forall (fun i => (0 <= i < Z.of_nat (length fileLines))%Z) indices ->
    createSnippetsFromLines fileLines indices context
      = map (snippetAround fileLines (orElse context 2%Z)) indices /\
    length (createSnippetsFromLines fileLines indices context) = length indices /\
    Forall2 (windowedAround fileLines (orElse context 2%Z)) indices
            (createSnippetsFromLines fileLines indices context).
Proof.
  intros fileLines indices context Hc Hin.
  rewrite createSnippetsFromLines_map.
  split; [reflexivity|]. split; [apply length_map|].
  induction Hin as [|i indices Hi Hin IH]; simpl; constructor; auto.
  now apply snippetAround_windowed.
Qed.

(** The examples of the specification: a match at index 3 of an
    eight-line file. *)
Example snippet_context_default :
  createSnippetsFromLines Sample.eightLines [3%Z] None
  = [{| startLine := 2; endLine := 6;
        lines := ["line 2"; "line 3"; "line 4"; "line 5"; "line 6"] |}].
Proof. reflexivity. Qed.

Example snippet_context_zero :
  createSnippetsFromLines Sample.eightLines [3%Z] (Some 0%Z)
  = [{| startLine := 4; endLine := 4; lines := ["line 4"] |}].
Proof. reflexivity. Qed.

Example snippet_context_five :
  createSnippetsFromLines Sample.eightLines [3%Z] (Some 5%Z)
  = [{| startLine := 1; endLine := 8; lines := Sample.eightLines |}].
Proof. reflexivity. Qed.

Example snippets_overlap_unmerged :
  map (fun snippet => (startLine snippet, endLine snippet))
      (createSnippetsFromLines Sample.eightLines [3%Z; 4%Z] None)
  = [(2%Z, 6%Z); (3%Z, 7%Z)].
Proof. reflexivity. Qed.

(** ** Reading a file *)

Lemma length_repeat c n : String.length (Str.repeat c n) = n.
Proof. induction n; simpl; auto. Qed.

Lemma repeat_nonempty c n : (0 < n)%nat -> Str.isEmpty (Str.repeat c n) = false.
Proof. destruct n; simpl; [lia|reflexivity]. Qed.

Section ReadFacts.

Variable encodeURIComponent : string -> string.
Variable urlToString : string -> list (string * string) -> string.
Variable bufferFrom : string -> string -> option string.
Variable remote : Remote.

Local Abbreviation read := (readFile encodeURIComponent urlToString bufferFrom remote).

(** What [readFile] does once the remote has answered with a file:
    the guard, then the window. *)
Lemma readFile_fetched target filePath options s response content buffer :
  contents remote (requests s)
           (contentsUrl encodeURIComponent urlToString target filePath (read_ref options))
    = Some response ->
  ok response = true ->
  GitHubContentEntry.content (json response) = Some content ->
  Str.isEmpty content = false ->
  GitHubContentEntry.type (json response) = Some "file" ->
  bufferFrom content (orElse (GitHubContentEntry.encoding (json response)) "base64")
    = Some buffer ->
  read target filePath options s =
    (match range options with
     | None =>
         if (204800 <? Z.of_nat (String.length buffer))%Z
         then Threw (Viewer (FileTooLarge (Z.of_nat (String.length buffer)) filePath))
         else Returned {| rr_path := filePath;
                          rr_ref := read_ref options;
                          rr_range := None;
                          rr_lines :=
                            if orElse (includeLineNumbers options) false
                            then addLineNumbers (splitLines buffer) 1
                            else splitLines buffer |}
     | Some r =>
         Returned {| rr_path := filePath;
                     rr_ref := read_ref options;
                     rr_range := Some r;
                     rr_lines :=
                       if orElse (includeLineNumbers options) false
                       then addLineNumbers (extractRange (splitLines buffer) r) (start r)
                       else extractRange (splitLines buffer) r |}
     end,
     logRequest (contentsUrl encodeURIComponent urlToString target filePath (read_ref options)) s).
Proof.
  intros Hresp Hok Hcontent Hnonempty Htype Hbuffer.
  unfold readFile, bind, ghFetch. rewrite Hresp, Hok.
  rewrite Hcontent, Htype. simpl. rewrite Hnonempty. simpl.
  rewrite Hbuffer.
  destruct (range options) as [r|]; simpl; auto.
  destruct (204800 <? Z.of_nat (String.length buffer))%Z; reflexivity.
Qed.

End ReadFacts.

(** C5.  For a file that the remote serves and that decodes to more
    than 204800 bytes, [readFile] without a range throws the size-guard
    error, and [readFile] with any range returns: the lines that
    [extractRange] takes, numbered when asked.  Either call costs the one
    request. *)
Theorem readFile_size_guard :
  forall (encodeURIComponent : string -> string)
         (urlToString : string -> list (string * string) -> string)
         (bufferFrom : string -> string -> option string) (remote : Remote)
         (target : RepoTarget) (filePath : string) (ref : option string)
         (numbered : option bool) (r : ReadRange) (s : ViewerState)
         (response : Response GitHubContentEntry.t) (content buffer : string),
    contents remote (requests s) (contentsUrl encodeURIComponent urlToString target filePath ref)
      = Some response ->
    ok response = true ->
    GitHubContentEntry.content (json response) = Some content ->
    Str.isEmpty content = false ->
    GitHubContentEntry.type (json response) = Some "file" ->
    bufferFrom content (orElse (GitHubContentEntry.encoding (json response)) "base64")
      = Some buffer ->
    (204800 < Z.of_nat (String.length buffer))%Z ->
    readFile encodeURIComponent urlToString bufferFrom remote target filePath
             {| read_ref := ref; range := None; includeLineNumbers := numbered |} s
      = (Threw (Viewer (FileTooLarge (Z.of_nat (String.length buffer)) filePath)),
         logRequest (contentsUrl encodeURIComponent urlToString target filePath ref) s)
    /\
    readFile encodeURIComponent urlToString bufferFrom remote target filePath
             {| read_ref := ref; range := Some r; includeLineNumbers := numbered |} s
      = (Returned {| rr_path := filePath;
                     rr_ref := ref;
                     rr_range := Some r;
                     rr_lines :=
                       if orElse numbered false
                       then addLineNumbers (extractRange (splitLines buffer) r) (start r)
                       else extractRange (splitLines buffer) r |},
         logRequest (contentsUrl encodeURIComponent urlToString target filePath ref) s).
Proof.
  intros enc url bufferFrom remote target filePath ref numbered r s response content buffer
         Hresp Hok Hcontent Hnonempty Htype Hbuffer Hbig.
  split.
  - rewrite (readFile_fetched enc url bufferFrom remote target filePath _ s
               response content buffer); auto.
    simpl. apply Z.ltb_lt in Hbig. now rewrite Hbig.
  - now rewrite (readFile_fetched enc url bufferFrom remote target filePath _ s
                   response content buffer).
Qed.

Lemma readFile_size_guard_witness :
  readFile Sample.encodeURIComponent Sample.urlToString Sample.bufferFrom Sample.fileRemote
           Sample.example "big.txt"
           {| read_ref := None; range := None; includeLineNumbers := None |} freshViewer
    = (Threw (Viewer (FileTooLarge (Z.of_nat (String.length Sample.bigContent)) "big.txt")),
       logRequest (contentsUrl Sample.encodeURIComponent Sample.urlToString Sample.example "big.txt" None)
                  freshViewer)
  /\
  readFile Sample.encodeURIComponent Sample.urlToString Sample.bufferFrom Sample.fileRemote
           Sample.example "big.txt"
           {| read_ref := None; range := Some {| start := 1; end_ := 1 |};
              includeLineNumbers := None |} freshViewer
    = (Returned {| rr_path := "big.txt";
                   rr_ref := None;
                   rr_range := Some {| start := 1; end_ := 1 |};
                   rr_lines :=
                     if orElse None false
                     then addLineNumbers
                            (extractRange (splitLines Sample.bigContent)
                                          {| start := 1; end_ := 1 |}) 1
                     else extractRange (splitLines Sample.bigContent)
                                       {| start := 1; end_ := 1 |} |},
       logRequest (contentsUrl Sample.encodeURIComponent Sample.urlToString Sample.example "big.txt" None)
                  freshViewer).
Proof.
  apply (readFile_size_guard Sample.encodeURIComponent Sample.urlToString Sample.bufferFrom
           Sample.fileRemote Sample.example "big.txt" None None
           {| start := 1; end_ := 1 |} freshViewer
           (Sample.respond (Sample.fileEntry Sample.bigContent))
           Sample.bigContent Sample.bigContent).
  - reflexivity.
  - reflexivity.
  - reflexivity.
  - apply repeat_nonempty. lia.
  - reflexivity.
  - reflexivity.
  - unfold Sample.bigContent. rewrite length_repeat. lia.
Defined.

Lemma skipn_cons_nth {A : Type} (d : A) (l : list A) (j : nat) :
  (j < length l)%nat -> skipn j l = nth j l d :: skipn (S j) l.
Proof.
  revert j. induction l as [|x l IH]; intros [|j] Hj; simpl in *; try lia; auto.
  apply IH. lia.
Qed.

Lemma linesBetween_empty fileLines first last :
  (last < first)%Z -> linesBetween fileLines first last = [].
Proof.
  intros H. unfold linesBetween.
  replace (Z.to_nat (last - first + 1)) with 0%nat by lia. reflexivity.
Qed.

Lemma linesBetween_step fileLines first last :
  (1 <= first <= last)%Z -> (first - 1 < Z.of_nat (length fileLines))%Z ->
  linesBetween fileLines first last
  = nth (Z.to_nat (first - 1)) fileLines EmptyString
      :: linesBetween fileLines (first + 1) last.
Proof.
  intros Hfirst Hin. unfold linesBetween.
  replace (Z.to_nat (last - first + 1)) with (S (Z.to_nat (last - (first + 1) + 1))) by lia.
  replace (Z.to_nat (first + 1 - 1)) with (S (Z.to_nat (first - 1))) by lia.
  now rewrite (skipn_cons_nth EmptyString) by lia.
Qed.

(** The loop of [extractRange] adds to what it has taken the lines from
    [lineNumber] to the end of the range or of the file. *)
Lemma extractRangeFrom_spec fuel fileLines lineNumber last taken :
  (1 <= lineNumber)%Z ->
  Z.of_nat fuel = Z.max 0 (last - lineNumber + 1) ->
  extractRangeFrom fuel fileLines lineNumber last taken
  = taken ++ linesBetween fileLines lineNumber
                          (Z.min last (Z.of_nat (length fileLines))).
Proof.
  revert lineNumber taken.
  induction fuel as [|fuel IH]; intros lineNumber taken Hfirst Hfuel; simpl.
  - rewrite linesBetween_empty by lia. now rewrite app_nil_r.
  - destruct (Z.leb_spec lineNumber last) as [Hle|Hgt]; [|lia].
    destruct (Z.leb_spec (Z.of_nat (length fileLines)) (lineNumber - 1)) as [Hout|Hin].
    + rewrite linesBetween_empty by lia. now rewrite app_nil_r.
    + destruct (Z.ltb_spec (lineNumber - 1) 0) as [Hneg|_]; [lia|].
      rewrite IH by lia.
      rewrite (linesBetween_step fileLines lineNumber) by lia.
      now rewrite <- app_assoc.
Qed.

Lemma extractRange_linesBetween fileLines r :
  (1 <= start r)%Z ->
  extractRange fileLines r
  = linesBetween fileLines (start r) (Z.min (end_ r) (Z.of_nat (length fileLines))).
Proof.
  intros Hstart. unfold extractRange.
  rewrite extractRangeFrom_spec by lia. reflexivity.
Qed.

Lemma linesBetween_lookup fileLines first last k line :
  (1 <= first)%Z ->
  linesBetween fileLines first last !! k = Some line ->
  fileLines !! (Z.to_nat (first - 1) + k)%nat = Some line /\
  (first + Z.of_nat k <= last)%Z.
Proof.
  intros Hfirst. unfold linesBetween. intros H.
  change firstn with (@take string) in H. change skipn with (@drop string) in H.
  apply lookup_take_Some in H as [H Hk].
  rewrite lookup_drop in H. split; auto. lia.
Qed.

(** [padStart] puts the digits to the right of a field of the given
    width. *)
Lemma padStart_right_aligned width pad digits :
  exists blanks,
    Str.padStart width pad digits = Str.repeat pad blanks +:+ digits /\
    (blanks + String.length digits = Nat.max width (String.length digits))%nat.
Proof.
  exists (width - String.length digits)%nat. split; [reflexivity|lia].
Qed.

Lemma addLineNumbers_lookup selected first k line :
  selected !! k = Some line ->
  addLineNumbers selected first !! k
  = Some (Str.padStart 6 " " (Str.ofZ (first + Z.of_nat k)) +:+ " " +:+ line).
Proof.
  intros H. unfold addLineNumbers. rewrite list_lookup_imap, H. reflexivity.
Qed.

(** C6.  For a file that the remote serves, with [n] lines, and a range
    with [1 <= start <= end], [readFile] returns, with no error, one
    output line for each of the lines [start] to [min(end, n)] of the
    file, in order.  Without line numbers the output lines are those
    lines; with line numbers each is the line behind its own number in
    the file, [start + k] for the [k]-th, padded with blanks on the left
    to six characters, and one blank. *)
Theorem readFile_range_window :
  forall (encodeURIComponent : string -> string)
         (urlToString : string -> list (string * string) -> string)
         (bufferFrom : string -> string -> option string) (remote : Remote)
         (target : RepoTarget) (filePath : string) (ref : option string)
         (numbered : option bool) (r : ReadRange) (s : ViewerState)
         (response : Response GitHubContentEntry.t) (content buffer : string),
    contents remote (requests s) (contentsUrl encodeURIComponent urlToString target filePath ref)
      = Some response ->
    ok response = true ->
    GitHubContentEntry.content (json response) = Some content ->
    Str.isEmpty content = false ->
    GitHubContentEntry.type (json response) = Some "file" ->
    bufferFrom content (orElse (GitHubContentEntry.encoding (json response)) "base64")
      = Some buffer ->
    (1 <= start r <= end_ r)%Z ->
    let fileLines := splitLines buffer in
    let selected :=
      linesBetween fileLines (start r) (Z.min (end_ r) (Z.of_nat (length fileLines))) in
    exists out,
      readFile encodeURIComponent urlToString bufferFrom remote target filePath
               {| read_ref := ref; range := Some r; includeLineNumbers := numbered |} s
        = (Returned {| rr_path := filePath; rr_ref := ref; rr_range := Some r;
                       rr_lines := out |},
           logRequest (contentsUrl encodeURIComponent urlToString target filePath ref) s) /\
      length out = length selected /\
      (forall k line,
          selected !! k = Some line ->
          fileLines !! (Z.to_nat (start r - 1) + k)%nat = Some line /\
          out !! k =
            Some (if orElse numbered false
                  then Str.padStart 6 " " (Str.ofZ (start r + Z.of_nat k)) +:+ " " +:+ line
                  else line)) /\
      (forall z, exists blanks,
          Str.padStart 6 " " (Str.ofZ z) = Str.repeat " " blanks +:+ Str.ofZ z /\
          (blanks + String.length (Str.ofZ z)
           = Nat.max 6 (String.length (Str.ofZ z)))%nat).
Proof.
  intros enc url bufferFrom remote target filePath ref numbered r s response content buffer
         Hresp Hok Hcontent Hnonempty Htype Hbuffer Hrange fileLines selected.
  eexists. split.
  { rewrite (readFile_fetched enc url bufferFrom remote target filePath _ s
               response content buffer); auto. }
  cbn [includeLineNumbers].
  fold fileLines. rewrite (extractRange_linesBetween fileLines r) by lia.
  fold selected.
  split; [|split].
  - destruct (orElse numbered false); auto.
    unfold addLineNumbers. apply length_imap.
  - intros k line Hk. split.
    + assert (Hfirst : (1 <= start r)%Z) by lia.
      exact (proj1 (linesBetween_lookup fileLines (start r) _ k line Hfirst Hk)).
    + destruct (orElse numbered false); auto.
      now apply addLineNumbers_lookup.
  - intros z. apply padStart_right_aligned.
Qed.

Lemma readFile_range_window_witness :
  exists out,
    readFile Sample.encodeURIComponent Sample.urlToString Sample.bufferFrom Sample.fileRemote
             Sample.example "file.txt"
             {| read_ref := None; range := Some {| start := 2; end_ := 3 |};
                includeLineNumbers := Some true |} freshViewer
      = (Returned {| rr_path := "file.txt"; rr_ref := None;
                     rr_range := Some {| start := 2; end_ := 3 |};
                     rr_lines := out |},
         logRequest (contentsUrl Sample.encodeURIComponent Sample.urlToString Sample.example "file.txt" None)
                    freshViewer) /\
    length out
      = length (linesBetween (splitLines Sample.threeLines) 2
                  (Z.min 3 (Z.of_nat (length (splitLines Sample.threeLines))))) /\
    (forall k line,
        linesBetween (splitLines Sample.threeLines) 2
          (Z.min 3 (Z.of_nat (length (splitLines Sample.threeLines)))) !! k = Some line ->
        splitLines Sample.threeLines !! (Z.to_nat (2 - 1) + k)%nat = Some line /\
        out !! k =
          Some (if orElse (Some true) false
                then Str.padStart 6 " " (Str.ofZ (2 + Z.of_nat k)) +:+ " " +:+ line
                else line)) /\
    (forall z, exists blanks,
        Str.padStart 6 " " (Str.ofZ z) = Str.repeat " " blanks +:+ Str.ofZ z /\
        (blanks + String.length (Str.ofZ z)
         = Nat.max 6 (String.length (Str.ofZ z)))%nat).
Proof.
  apply (readFile_range_window Sample.encodeURIComponent Sample.urlToString Sample.bufferFrom
           Sample.fileRemote Sample.example "file.txt" None (Some true)
           {| start := 2; end_ := 3 |} freshViewer
           (Sample.respond (Sample.fileEntry Sample.threeLines))
           Sample.threeLines Sample.threeLines); try reflexivity.
  simpl. lia.
Defined.

(** The read example of the specification: lines 2 to 3 of a three-line
    file, numbered. *)
Example readFile_numbered_range :
  fst (readFile Sample.encodeURIComponent Sample.urlToString Sample.bufferFrom Sample.fileRemote
         Sample.example "file.txt"
         {| read_ref := None; range := Some {| start := 2; end_ := 3 |};
            includeLineNumbers := Some true |} freshViewer)
  = Returned {| rr_path := "file.txt"; rr_ref := None;
                rr_range := Some {| start := 2; end_ := 3 |};
                rr_lines := ["     2 second line"; "     3 third line"] |}.
Proof. reflexivity. Qed.

(** A range that runs past the end of the file is cut there. *)
Example readFile_range_past_end :
  fst (readFile Sample.encodeURIComponent Sample.urlToString Sample.bufferFrom Sample.fileRemote
         Sample.example "file.txt"
         {| read_ref := None; range := Some {| start := 3; end_ := 90 |};
            includeLineNumbers := None |} freshViewer)
  = Returned {| rr_path := "file.txt"; rr_ref := None;
                rr_range := Some {| start := 3; end_ := 90 |};
                rr_lines := ["third line"; ""] |}.
Proof. reflexivity. Qed.

(** ** The tree cache *)

Section GlobFacts.

Variable encodeURIComponent : string -> string.
Variable urlToString : string -> list (string * string) -> string.
Variable minimatch : string -> string -> bool.
Variable remote : Remote.

Local Abbreviation glob := (globFiles encodeURIComponent urlToString minimatch remote).
Local Abbreviation defaultBranch := (getDefaultBranch encodeURIComponent remote).

(** With no [ref] given, [globFiles] is [globFiles] at the default
    branch, once that is known. *)
Lemma globFiles_default target pattern s :
  glob target pattern None s =
    match defaultBranch target s with
    | (Returned branch, s') => glob target pattern (Some branch) s'
    | (Threw e, s') => (Threw e, s')
    | (OutOfFuel, s') => (OutOfFuel, s')
    end.
Proof.
  unfold globFiles at 1. unfold bind at 1.
  destruct (defaultBranch target s) as [[branch| |] s']; reflexivity.
Qed.

(** A hit in the tree cache: the answer comes from the entry, and the
    state stays as it is. *)
Lemma globFiles_hit target pattern ref s entry :
  treeCache s !! globCacheKey target ref pattern = Some entry ->
  glob target pattern (Some ref) s =
    (Returned {| gr_pattern := pattern; gr_ref := ref;
                 gr_matches := matches entry; gr_truncated := truncated entry |}, s).
Proof.
  intros Hhit. unfold globFiles, bind, ret, gets. simpl. rewrite Hhit. simpl.
  now rewrite Hhit.
Qed.

(** A miss that ends well: one request, the tree fetch, and the entry
    is in the cache afterwards. *)
Lemma globFiles_miss target pattern ref s found s' :
  treeCache s !! globCacheKey target ref pattern = None ->
  glob target pattern (Some ref) s = (Returned found, s') ->
  requests s' = requests s ++ [treeUrl encodeURIComponent urlToString target ref] /\
  repoDefaults s' = repoDefaults s /\
  gr_ref found = ref /\
  treeCache s' !! globCacheKey target ref pattern
    = Some {| matches := gr_matches found; truncated := gr_truncated found |} /\
  gr_pattern found = pattern.
Proof.
  intros Hmiss. unfold globFiles, bind, ret, gets, fetchTree, bind, ghFetch, modify.
  simpl. rewrite Hmiss. simpl.
  destruct (trees remote (requests s) (treeUrl encodeURIComponent urlToString target ref))
    as [response|]; [|discriminate].
  destruct (ok response); [|discriminate].
  destruct (GitHubTreeResponse.tree (json response)) as [entries|] eqn:Htree;
    simpl; [|discriminate].
  rewrite lookup_insert_eq. simpl.
  intros [= <- <-]. simpl. rewrite lookup_insert_eq. auto.
Qed.

(** A default branch that was resolved stays resolved, to the same
    name and at no cost, in any state that has the same defaults. *)
Lemma getDefaultBranch_again target s branch s' :
  defaultBranch target s = (Returned branch, s') ->
  treeCache s' = treeCache s /\
  (requests s' = requests s \/
   requests s' = requests s ++ [repoUrl encodeURIComponent target]) /\
  forall s'', repoDefaults s'' = repoDefaults s' ->
              defaultBranch target s'' = (Returned branch, s'').
Proof.
  unfold getDefaultBranch, bind, ret, gets, ghFetch, modify, throw. simpl.
  destruct (repoDefaults s !! (owner target +:+ "/" +:+ repo target)) as [cached|] eqn:Hc.
  - simpl. destruct (Str.isEmpty cached) eqn:He; simpl.
    + destruct (repository remote (requests s) (repoUrl encodeURIComponent target))
        as [response|]; [|discriminate].
      destruct (ok response); [|discriminate].
      destruct (json response) as [name|]; simpl; [|discriminate].
      destruct (Str.isEmpty name) eqn:Hn; simpl; [discriminate|].
      intros [= <- <-]. simpl. repeat split; auto.
      intros s'' ->. rewrite lookup_insert_eq. simpl. now rewrite Hn.
    + intros [= <- <-]. repeat split; auto.
      intros s'' ->. rewrite Hc. simpl. now rewrite He.
  - simpl.
    destruct (repository remote (requests s) (repoUrl encodeURIComponent target))
      as [response|]; [|discriminate].
    destruct (ok response); [|discriminate].
    destruct (json response) as [name|]; simpl; [|discriminate].
    destruct (Str.isEmpty name) eqn:Hn; simpl; [discriminate|].
    intros [= <- <-]. simpl. repeat split; auto.
    intros s'' ->. rewrite lookup_insert_eq. simpl. now rewrite Hn.
Qed.

End GlobFacts.

Lemma globFiles_with_ref_twice encodeURIComponent urlToString minimatch remote
      target pattern ref s found s1 :
  globFiles encodeURIComponent urlToString minimatch remote target pattern (Some ref) s
    = (Returned found, s1) ->
  treeCache s !! globCacheKey target (gr_ref found) pattern = None ->
  gr_ref found = ref /\
  requests s1 = requests s ++ [treeUrl encodeURIComponent urlToString target ref] /\
  repoDefaults s1 = repoDefaults s /\
  globFiles encodeURIComponent urlToString minimatch remote target pattern (Some ref) s1
    = (Returned found, s1).
Proof.
  intros Hrun Hcold.
  destruct (treeCache s !! globCacheKey target ref pattern) as [entry|] eqn:Hcache.
  - rewrite (globFiles_hit _ _ _ _ _ _ _ _ entry Hcache) in Hrun.
    injection Hrun as <- <-. simpl in Hcold. congruence.
  - destruct (globFiles_miss _ _ _ _ _ _ _ _ _ _ Hcache Hrun)
      as (Hreq & Hdef & Href & Hentry & Hpat).
    repeat split; auto.
    rewrite (globFiles_hit _ _ _ _ _ _ _ _ _ Hentry).
    destruct found; simpl in *; subst; reflexivity.
Qed.

(** C7.  When a call of [globFiles] returns and its key was not in the
    tree cache, the call has issued exactly one tree fetch (after the
    look-up of the default branch, when no ref was given and the branch
    was not known yet), and a second call with the same repository, ref
    and pattern returns the same result, the same matches and the same
    truncated flag, and leaves the state as it is: it issues no request
    at all. *)
Theorem globFiles_second_call_from_cache :
  forall (encodeURIComponent : string -> string)
         (urlToString : string -> list (string * string) -> string) (minimatch : string -> string -> bool)
         (remote : Remote) (target : RepoTarget) (pattern : string)
         (ref : option string) (s : ViewerState) (found : GlobResult)
         (s1 : ViewerState),
    globFiles encodeURIComponent urlToString minimatch remote target pattern ref s
      = (Returned found, s1) ->
    treeCache s !! globCacheKey target (gr_ref found) pattern = None ->
    (exists lookup,
        requests s1
          = requests s ++ lookup ++ [treeUrl encodeURIComponent urlToString target (gr_ref found)] /\
        (lookup = [] \/
         (ref = None /\ lookup = [repoUrl encodeURIComponent target]))) /\
    globFiles encodeURIComponent urlToString minimatch remote target pattern ref s1
      = (Returned found, s1).
Proof.
  intros enc url minimatch remote target pattern [ref|] s found s1 Hrun Hcold.
  - destruct (globFiles_with_ref_twice _ _ _ _ _ _ _ _ _ _ Hrun Hcold)
      as (Href & Hreq & _ & Hagain).
    split; auto. exists []. rewrite Href. auto.
  - rewrite globFiles_default in Hrun.
    destruct (getDefaultBranch enc remote target s) as [[branch| |] s0] eqn:Hbranch;
      try discriminate.
    destruct (getDefaultBranch_again _ _ _ _ _ _ Hbranch) as (Htree & Hlog & Hstays).
    rewrite <- Htree in Hcold.
    destruct (globFiles_with_ref_twice _ _ _ _ _ _ _ _ _ _ Hrun Hcold)
      as (Href & Hreq & Hdef & Hagain).
    split.
    + rewrite Href, Hreq.
      destruct Hlog as [->| ->].
      * exists []. auto.
      * exists [repoUrl enc target]. rewrite <- app_assoc. auto.
    + rewrite globFiles_default, (Hstays s1 Hdef). exact Hagain.
Qed.

Lemma globFiles_second_call_from_cache_witness :
  (exists lookup,
      requests (snd Sample.firstGlob)
        = requests freshViewer ++ lookup
            ++ [treeUrl Sample.encodeURIComponent Sample.urlToString Sample.example (gr_ref Sample.globbed)] /\
      (lookup = [] \/
       (Some "main" = None /\
        lookup = [repoUrl Sample.encodeURIComponent Sample.example]))) /\
  globFiles Sample.encodeURIComponent Sample.urlToString Sample.minimatch Sample.treeRemote
            Sample.example "*" (Some "main") (snd Sample.firstGlob)
    = (Returned Sample.globbed, snd Sample.firstGlob).
Proof.
  apply (globFiles_second_call_from_cache
           Sample.encodeURIComponent Sample.urlToString Sample.minimatch Sample.treeRemote
           Sample.example "*" (Some "main") freshViewer Sample.globbed
           (snd Sample.firstGlob)).
  - reflexivity.
  - reflexivity.
Defined.

(** Two calls in a row, no ref given: the default branch is looked up
    once, the tree is fetched once, and both calls answer the same. *)
Example globFiles_twice_requests :
  let first := globFiles Sample.encodeURIComponent Sample.urlToString Sample.minimatch Sample.treeRemote
                         Sample.example "*" None freshViewer in
  let second := globFiles Sample.encodeURIComponent Sample.urlToString Sample.minimatch Sample.treeRemote
                          Sample.example "*" None (snd first) in
  fst first = Returned Sample.globbed /\
  fst second = Returned Sample.globbed /\
  requests (snd second)
    = ["https://api.github.com/repos/acme/example";
       "https://api.github.com/repos/acme/example/git/trees/main?recursive=1"].
Proof. repeat split. Qed.

(** ** Validation *)

Lemma isEmpty_true s : Str.isEmpty s = true <-> s = EmptyString.
Proof. destruct s; simpl; split; congruence. Qed.

Lemma isEmpty_false s : Str.isEmpty s = false <-> s <> EmptyString.
Proof. destruct s; simpl; split; congruence. Qed.

(** [split] cuts at every separator and nowhere else: joining the pieces
    with the separator gives the string back, and no piece holds the
    separator. *)
Lemma split_nonempty sep s : Str.split sep s <> [].
Proof.
  destruct s as [|c s]; simpl; [discriminate|].
  destruct (Ascii.eqb c sep); [discriminate|].
  destruct (Str.split sep s); discriminate.
Qed.

Lemma split_join sep s : Str.join (String sep EmptyString) (Str.split sep s) = s.
Proof.
  induction s as [|c s IH]; [reflexivity|].
  cbn [Str.split].
  pose proof (split_nonempty sep s) as Hne.
  destruct (Ascii.eqb c sep) eqn:E.
  - apply Ascii.eqb_eq in E. subst c.
    destruct (Str.split sep s) as [|p ps]; [congruence|].
    change (Str.join (String sep EmptyString) (EmptyString :: p :: ps))
      with (EmptyString +:+ String sep EmptyString
              +:+ Str.join (String sep EmptyString) (p :: ps)).
    rewrite IH. reflexivity.
  - destruct (Str.split sep s) as [|p ps]; [congruence|].
    destruct ps as [|q ps]; cbn [Str.join] in *.
    + now rewrite IH.
    + rewrite <- IH. reflexivity.
Qed.

Lemma split_pieces sep s : Forall (fun piece => hasChar sep piece = false) (Str.split sep s).
Proof.
  induction s as [|c s IH]; simpl.
  - repeat constructor.
  - destruct (Ascii.eqb c sep) eqn:E.
    + constructor; auto.
    + destruct (Str.split sep s) as [|p ps].
      * repeat constructor. simpl. now rewrite E.
      * inversion IH; subst. constructor; auto. simpl. now rewrite E.
Qed.

(** [parseRepo] returns exactly on the slugs [owner/repo] with both
    parts non-empty and free of [/]. *)
Lemma parseRepo_returns slug target :
  parseRepo slug = Returned target ->
  slug = owner target +:+ "/" +:+ repo target /\
  owner target <> EmptyString /\ repo target <> EmptyString /\
  hasChar "/" (owner target) = false /\ hasChar "/" (repo target) = false.
Proof.
  unfold parseRepo. intros H.
  pose proof (split_join "/" slug) as Hjoin.
  pose proof (split_pieces "/" slug) as Hpieces.
  destruct (Str.split "/" slug) as [|o [|r [|x rest]]]; try discriminate.
  destruct (Str.isEmpty o) eqn:Ho; [discriminate|].
  destruct (Str.isEmpty r) eqn:Hr; [discriminate|].
  simpl in H. injection H as <-. simpl in *.
  inversion Hpieces as [|? ? H1 H2]; subst. inversion H2; subst.
  repeat split; auto; now apply isEmpty_false.
Qed.

Lemma parseRepo_rejects slug :
  ~ twoParts slug -> parseRepo slug = Threw (Viewer (InvalidSlug slug)).
Proof.
  unfold twoParts, parseRepo. intros Hnot.
  destruct (Str.split "/" slug) as [|o [|r [|x rest]]]; auto.
  destruct (Str.isEmpty o) eqn:Ho; auto.
  destruct (Str.isEmpty r) eqn:Hr; auto.
  exfalso. apply Hnot. exists o, r. repeat split; now apply isEmpty_false.
Qed.

Section RequestFacts.

Variable encodeURIComponent : string -> string.
Variable urlToString : string -> list (string * string) -> string.
Variable bufferFrom : string -> string -> option string.
Variable remote : Remote.

(** What [ghFetch] throws is never an error of validation. *)
Lemma ghFetch_throws {T : Type} (endpoint : Endpoint T) url s e s' :
  ghFetch endpoint url s = (Threw (Viewer e), s') -> ~ isValidationError e.
Proof.
  unfold ghFetch. destruct (endpoint (requests s) url) as [response|]; [|discriminate].
  destruct (ok response); [discriminate|]. intros [= <- _]. simpl. auto.
Qed.

Lemma collectPages_throws {T : Type} (endpoint : Endpoint (option (list T)))
      pageUrl toCollect fuel gathered page s e s' :
  collectPages endpoint pageUrl toCollect fuel gathered page s = (Threw (Viewer e), s') ->
  ~ isValidationError e.
Proof.
  revert gathered page s.
  induction fuel as [|fuel IH]; intros gathered page s; simpl.
  - destruct (Count.gtb toCollect (Z.of_nat (length gathered))); discriminate.
  - destruct (Count.gtb toCollect (Z.of_nat (length gathered))); [|discriminate].
    unfold bind at 1.
    destruct (ghFetch endpoint _ s) as [[response|e0|] s0] eqn:Hfetch.
    + destruct (orElse (json response) []) as [|item items]; [discriminate|].
      destruct (_ <? _)%Z; [discriminate|]. apply IH.
    + intros [= -> _]. eapply ghFetch_throws; eauto.
    + discriminate.
Qed.

Lemma loadBlobLinesOrNone_throws target sha s e s' :
  loadBlobLinesOrNone encodeURIComponent bufferFrom remote target sha s
    <> (Threw (Viewer e), s').
Proof.
  unfold loadBlobLinesOrNone.
  destruct (loadBlobLines _ _ _ _ _ s) as [[fileLines|[e0|url|enc]|] s0]; congruence.
Qed.

Lemma prepareAll_throws target context results fileCache prepared s e s' :
  prepareAll encodeURIComponent bufferFrom remote target context results
             fileCache prepared s <> (Threw (Viewer e), s').
Proof.
  revert fileCache prepared s.
  induction results as [|item rest IH]; intros fileCache prepared s; simpl.
  - discriminate.
  - unfold bind at 1. unfold prepareItem. unfold bind at 1.
    destruct (fileCache !! _) as [known|].
    + simpl. apply IH.
    + unfold bind at 1.
      destruct (loadBlobLinesOrNone _ _ _ _ _ s) as [[fileLines|e0|] s0] eqn:Hload.
      * simpl. apply IH.
      * intros [= -> ->]. eapply loadBlobLinesOrNone_throws; eauto.
      * discriminate.
Qed.

End RequestFacts.

(** C8.  Validation errors come before any request.  [parseRepo], which
    has no access to the transport, throws on every slug that does not
    split on [/] into exactly two non-empty parts, and returns only on
    the others.  [compareCommits] with an empty [base] or an empty [head]
    throws and leaves the state of the viewer, with its log of requests,
    as it was; so does [searchCode] with a pattern that is empty once
    trimmed, of whatever white space it is made.  And whenever [compareCommits] or [searchCode] throws an
    error of validation, no request has been issued. *)
Theorem validation_before_any_request :
  (forall slug, ~ twoParts slug -> parseRepo slug = Threw (Viewer (InvalidSlug slug))) /\
  (forall slug target, parseRepo slug = Returned target -> twoParts slug) /\
  (forall (encodeURIComponent : string -> string) (remote : Remote)
          target baseRef headRef includePatches s,
      baseRef = EmptyString \/ headRef = EmptyString ->
      exists e,
        compareCommits encodeURIComponent remote target baseRef headRef includePatches s
          = (Threw (Viewer e), s) /\
        (e = BaseRequired \/ e = HeadRequired)) /\
  (forall (encodeURIComponent : string -> string)
          (bufferFrom : string -> string -> option string) (remote : Remote)
          fuel target options s,
      Str.trim (cs_pattern options) = EmptyString ->
      searchCode encodeURIComponent bufferFrom remote fuel target options s
        = (Threw (Viewer PatternRequired), s)) /\
  (forall (encodeURIComponent : string -> string) (remote : Remote)
          target baseRef headRef includePatches s e s',
      compareCommits encodeURIComponent remote target baseRef headRef includePatches s
        = (Threw (Viewer e), s') ->
      isValidationError e -> s' = s) /\
  (forall (encodeURIComponent : string -> string)
          (bufferFrom : string -> string -> option string) (remote : Remote)
          fuel target options s e s',
      searchCode encodeURIComponent bufferFrom remote fuel target options s
        = (Threw (Viewer e), s') ->
      isValidationError e -> s' = s).
Proof.
  repeat apply conj.
  - apply parseRepo_rejects.
  - intros slug target H. unfold twoParts, parseRepo in *.
    destruct (Str.split "/" slug) as [|o [|r [|x rest]]]; try discriminate.
    destruct (Str.isEmpty o) eqn:Ho; [discriminate|].
    destruct (Str.isEmpty r) eqn:Hr; [discriminate|].
    exists o, r. repeat split; now apply isEmpty_false.
  - intros enc remote target baseRef headRef includePatches s Hempty.
    unfold compareCommits.
    destruct (Str.isEmpty baseRef) eqn:Hb.
    + exists BaseRequired. auto.
    + destruct Hempty as [->| ->]; [discriminate|]. simpl.
      exists HeadRequired. auto.
  - intros enc bufferFrom remote fuel target options s Hblank.
    unfold searchCode. now rewrite Hblank.
  - intros enc remote target baseRef headRef includePatches s e s' Hrun Hval.
    unfold compareCommits in Hrun.
    destruct (Str.isEmpty baseRef); [now injection Hrun|].
    destruct (Str.isEmpty headRef); [now injection Hrun|].
    unfold bind in Hrun.
    destruct (ghFetch (compare remote) _ s) as [[response|e0|] s0] eqn:Hfetch;
      try discriminate.
    injection Hrun as -> ->. exfalso. eapply ghFetch_throws; eauto.
  - intros enc bufferFrom remote fuel target options s e s' Hrun Hval.
    unfold searchCode in Hrun.
    destruct (Str.isEmpty (Str.trim (cs_pattern options))); [now injection Hrun|].
    unfold bind in Hrun.
    destruct (collectPages (codeSearch remote) _ _ fuel [] 1 s)
      as [[gathered|e0|] s0] eqn:Hpages; try discriminate.
    + destruct gathered as [|item items]; [discriminate|].
      exfalso. eapply prepareAll_throws; eauto.
    + injection Hrun as -> ->. exfalso. eapply collectPages_throws; eauto.
Qed.

Lemma validation_before_any_request_witness :
  parseRepo "acme" = Threw (Viewer (InvalidSlug "acme")) /\
  (exists e,
      compareCommits Sample.encodeURIComponent Sample.offline Sample.example
                     "main" EmptyString None freshViewer
        = (Threw (Viewer e), freshViewer) /\
      (e = BaseRequired \/ e = HeadRequired)) /\
  searchCode Sample.encodeURIComponent Sample.bufferFrom Sample.offline 3
             Sample.example Sample.blankSearch freshViewer
    = (Threw (Viewer PatternRequired), freshViewer).
Proof.
  destruct validation_before_any_request as (Hslug & _ & Hcompare & Hsearch & _).
  split; [|split].
  - apply Hslug. intros (o & r & Hsplit & _). discriminate Hsplit.
  - apply Hcompare. right. reflexivity.
  - apply Hsearch. reflexivity.
Defined.

(** The examples of the specification: slugs without exactly one [/],
    and a comparison without a head. *)
Example parseRepo_examples :
  parseRepo "acme/example" = Returned {| owner := "acme"; repo := "example" |} /\
  parseRepo "acme" = Threw (Viewer (InvalidSlug "acme")) /\
  parseRepo "a/b/c" = Threw (Viewer (InvalidSlug "a/b/c")) /\
  parseRepo "/example" = Threw (Viewer (InvalidSlug "/example")) /\
  parseRepo "acme/" = Threw (Viewer (InvalidSlug "acme/")).
Proof. repeat split. Qed.

Example compareCommits_without_head :
  compareCommits Sample.encodeURIComponent Sample.offline Sample.example
                 "main" EmptyString None freshViewer
  = (Threw (Viewer HeadRequired), freshViewer).
Proof. reflexivity. Qed.

(** ** Comparing two refs *)

Lemma mapCompareFile_changes includePatches payload :
  Forall2 (changeOf (fun file =>
                       if orElse includePatches false
                       then GitHubCompareFile.patch file else None))
          payload (map (mapCompareFile includePatches) payload).
Proof.
  induction payload as [|file payload IH]; simpl; constructor; auto.
  split; reflexivity.
Qed.

Lemma compareCommits_fetched encodeURIComponent remote target baseRef headRef
      includePatches s response :
  baseRef <> EmptyString -> headRef <> EmptyString ->
  compare remote (requests s) (compareUrl encodeURIComponent target baseRef headRef)
    = Some response ->
  ok response = true ->
  exists result,
    compareCommits encodeURIComponent remote target baseRef headRef includePatches s
      = (Returned result, logRequest (compareUrl encodeURIComponent target baseRef headRef) s) /\
    files result
      = map (mapCompareFile includePatches)
            (orElse (GitHubCompareResponse.files (json response)) []).
Proof.
  intros Hb Hh Hresp Hok. unfold compareCommits.
  apply isEmpty_false in Hb, Hh. rewrite Hb, Hh.
  unfold bind, ghFetch. rewrite Hresp, Hok. simpl.
  eexists. split; reflexivity.
Qed.

(** C9.  For a comparison that the remote serves, [compareCommits]
    returns one record for each file of the payload, in order; with
    [includePatches] false or unset every record is without patch,
    whatever the payload supplied, and with [includePatches] true every
    record carries the patch of the payload as it came. *)
Theorem compareCommits_patches :
  forall (encodeURIComponent : string -> string) (remote : Remote)
         (target : RepoTarget) (baseRef headRef : string) (s : ViewerState)
         (response : Response GitHubCompareResponse.t),
    baseRef <> EmptyString -> headRef <> EmptyString ->
    compare remote (requests s) (compareUrl encodeURIComponent target baseRef headRef)
      = Some response ->
    ok response = true ->
    exists kept stripped unset,
      compareCommits encodeURIComponent remote target baseRef headRef (Some true) s
        = (Returned kept,
           logRequest (compareUrl encodeURIComponent target baseRef headRef) s) /\
      compareCommits encodeURIComponent remote target baseRef headRef (Some false) s
        = (Returned stripped,
           logRequest (compareUrl encodeURIComponent target baseRef headRef) s) /\
      compareCommits encodeURIComponent remote target baseRef headRef None s
        = (Returned unset,
           logRequest (compareUrl encodeURIComponent target baseRef headRef) s) /\
      Forall2 (changeOf GitHubCompareFile.patch)
              (orElse (GitHubCompareResponse.files (json response)) []) (files kept) /\
      Forall2 (changeOf (fun _ => None))
              (orElse (GitHubCompareResponse.files (json response)) []) (files stripped) /\
      Forall2 (changeOf (fun _ => None))
              (orElse (GitHubCompareResponse.files (json response)) []) (files unset).
Proof.
  intros enc remote target baseRef headRef s response Hb Hh Hresp Hok.
  destruct (compareCommits_fetched enc remote target baseRef headRef (Some true) s
              response Hb Hh Hresp Hok) as (kept & Hkept & Fkept).
  destruct (compareCommits_fetched enc remote target baseRef headRef (Some false) s
              response Hb Hh Hresp Hok) as (stripped & Hstripped & Fstripped).
  destruct (compareCommits_fetched enc remote target baseRef headRef None s
              response Hb Hh Hresp Hok) as (unset & Hunset & Funset).
  exists kept, stripped, unset.
  rewrite Fkept, Fstripped, Funset.
  repeat split; auto;
    first [ apply (mapCompareFile_changes (Some true))
          | apply (mapCompareFile_changes (Some false))
          | apply (mapCompareFile_changes None) ].
Qed.

Lemma compareCommits_patches_witness :
  exists kept stripped unset,
    compareCommits Sample.encodeURIComponent Sample.compareRemote Sample.example
                   "main" "feature" (Some true) freshViewer
      = (Returned kept,
         logRequest (compareUrl Sample.encodeURIComponent Sample.example "main" "feature")
                    freshViewer) /\
    compareCommits Sample.encodeURIComponent Sample.compareRemote Sample.example
                   "main" "feature" (Some false) freshViewer
      = (Returned stripped,
         logRequest (compareUrl Sample.encodeURIComponent Sample.example "main" "feature")
                    freshViewer) /\
    compareCommits Sample.encodeURIComponent Sample.compareRemote Sample.example
                   "main" "feature" None freshViewer
      = (Returned unset,
         logRequest (compareUrl Sample.encodeURIComponent Sample.example "main" "feature")
                    freshViewer) /\
    Forall2 (changeOf GitHubCompareFile.patch)
            (orElse (GitHubCompareResponse.files (json (Sample.respond Sample.comparison))) [])
            (files kept) /\
    Forall2 (changeOf (fun _ => None))
            (orElse (GitHubCompareResponse.files (json (Sample.respond Sample.comparison))) [])
            (files stripped) /\
    Forall2 (changeOf (fun _ => None))
            (orElse (GitHubCompareResponse.files (json (Sample.respond Sample.comparison))) [])
            (files unset).
Proof.
  apply (compareCommits_patches Sample.encodeURIComponent Sample.compareRemote
           Sample.example "main" "feature" freshViewer
           (Sample.respond Sample.comparison)).
  - discriminate.
  - discriminate.
  - reflexivity.
  - reflexivity.
Defined.

(** The payload carries a patch: it is returned only when asked for. *)
Example compareCommits_patch_text :
  let run includePatches :=
    match fst (compareCommits Sample.encodeURIComponent Sample.compareRemote
                              Sample.example "main" "feature" includePatches freshViewer) with
    | Returned result => map CompareFileChange.patch (files result)
    | _ => []
    end in
  run (Some true) = [Some "@@ -1,1 +1,1 @@"] /\
  run (Some false) = [None] /\
  run None = [None].
Proof. repeat split. Qed.

(** ** Limits *)

Lemma window_length {A : Type} (offset : count) (limit : Z) (l : list A) :
  (length (window offset limit l) <= Z.to_nat limit)%nat.
Proof.
  destruct offset as [o|]; simpl; [|lia].
  rewrite length_firstn. lia.
Qed.

(** A slice [[offset, offset + limit)] with a normalized offset has no
    more than [limit] elements. *)
Lemma slice_length {A : Type} (l : list A) (offset : option number) (limit : Z) :
  (0 <= limit)%Z ->
  (Z.of_nat (length (slice l (normalizeOffset offset)
                           (Count.add (normalizeOffset offset) limit))) <= limit)%Z.
Proof.
  intros Hlimit.
  destruct (normalizeOffset offset) as [o|] eqn:Ho.
  - rewrite slice_window; auto.
    + pose proof (window_length (Fin o) limit l). lia.
    + now apply (normalizeOffset_nonneg offset).
  - rewrite slice_infinite. simpl. lia.
Qed.

Lemma prepareAll_length encodeURIComponent bufferFrom remote target context
      results fileCache prepared s out s' :
  prepareAll encodeURIComponent bufferFrom remote target context results
             fileCache prepared s = (Returned out, s') ->
  length out = (length prepared + length results)%nat.
Proof.
  revert fileCache prepared s.
  induction results as [|item rest IH]; intros fileCache prepared s; simpl.
  - intros [= <- _]. lia.
  - unfold bind at 1.
    destruct (prepareItem _ _ _ _ _ item fileCache s) as [[[fc entry]|e|] s0];
      try discriminate.
    intros H. apply IH in H. rewrite H, length_app. simpl. lia.
Qed.

(** C10.  [normalizeLimit(limit, fallback, max)] is [min(floor(limit),
    max)] for a positive number (which is [max] for the positive
    infinity) and [fallback] for a limit that is missing, NaN, zero or
    negative.  [searchRepositories] and [searchCode] use it with the
    fallback 30 and the cap 100, [searchCommits] with the fallback 50 and
    the cap 100, and none of them returns more items than the limit so
    normalized, hence never more than 100. *)
Theorem limit_capped_at_100 :
  (forall q fallback max,
      ((0 < q)%Q ->
       normalizeLimit (Some (Num q)) fallback max = Z.min (Qfloor q) max) /\
      ((q <= 0)%Q -> normalizeLimit (Some (Num q)) fallback max = fallback)) /\
  (forall fallback max,
      normalizeLimit (Some Infinity) fallback max = max /\
      normalizeLimit (Some NegInfinity) fallback max = fallback /\
      normalizeLimit (Some NaN) fallback max = fallback /\
      normalizeLimit None fallback max = fallback) /\
  (forall (encodeURIComponent : string -> string)
          (localeCompareAccent localeCompare : string -> string -> Z)
          (authToken : option string) (remote : Remote) fuel params s,
      match searchRepositories encodeURIComponent localeCompareAccent localeCompare
                               authToken remote fuel params s with
      | (Returned found, _) =>
          (Z.of_nat (length found) <= normalizeLimit (rs_limit params) 30 100 <= 100)%Z
      | _ => True
      end) /\
  (forall (encodeURIComponent : string -> string)
          (bufferFrom : string -> string -> option string) (remote : Remote)
          fuel target options s,
      match searchCode encodeURIComponent bufferFrom remote fuel target options s with
      | (Returned found, _) =>
          (Z.of_nat (length found) <= normalizeLimit (cs_limit options) 30 100 <= 100)%Z
      | _ => True
      end) /\
  (forall (encodeURIComponent : string -> string) (remote : Remote)
          fuel target options s,
      match searchCommits encodeURIComponent remote fuel target options s with
      | (Returned found, _) =>
          (Z.of_nat (length found) <= normalizeLimit (cm_limit options) 50 100 <= 100)%Z
      | _ => True
      end).
Proof.
  repeat apply conj.
  - intros q fallback max. unfold normalizeLimit. split; intros Hq.
    + destruct (Qle_bool q 0) eqn:E; auto.
      apply Qle_bool_iff in E. lra.
    + apply Qle_bool_iff in Hq. now rewrite Hq.
  - intros fallback max. repeat split.
  - intros enc cmpA cmp token remote fuel params s.
    pose proof (normalizeLimit_bounds (rs_limit params) 30 100 ltac:(lia)) as Hb.
    unfold searchRepositories.
    destruct (collectCandidates _ _ _ _ _ _ _ _ _) as [[[]|e|] d]; auto.
    unfold sortAndSlice. rewrite length_map.
    split; [apply slice_length|]; lia.
  - intros enc bufferFrom remote fuel target options s.
    pose proof (normalizeLimit_bounds (cs_limit options) 30 100 ltac:(lia)) as Hb.
    unfold searchCode.
    destruct (Str.isEmpty _); [exact I|].
    unfold bind.
    destruct (collectPages _ _ _ _ _ _ s) as [[gathered|e|] s0]; auto.
    destruct gathered as [|item items]; [simpl; lia|].
    destruct (prepareAll _ _ _ _ _ _ _ _ s0) as [[out|e|] s1] eqn:Hprep; auto.
    apply prepareAll_length in Hprep. rewrite Hprep. simpl.
    split; [apply slice_length|]; lia.
  - intros enc remote fuel target options s.
    pose proof (normalizeLimit_bounds (cm_limit options) 50 100 ltac:(lia)) as Hb.
    unfold searchCommits, bind.
    destruct (collectPages _ _ _ _ _ _ s) as [[gathered|e|] s0]; auto.
    simpl. rewrite length_map.
    split; [apply slice_length|]; lia.
Qed.

Lemma limit_capped_at_100_witness :
  normalizeLimit (Some (Num (7#2))) 30 100 = Z.min (Qfloor (7#2)) 100 /\
  normalizeLimit (Some (Num (-4))) 50 100 = 50%Z /\
  match searchRepositories Sample.encodeURIComponent Sample.localeCompareAccent
                           Sample.localeCompare (Some "token") Sample.crowded 3
                           Sample.askMany freshViewer with
  | (Returned found, _) =>
      (Z.of_nat (length found) <= normalizeLimit (rs_limit Sample.askMany) 30 100 <= 100)%Z
  | _ => True
  end.
Proof.
  destruct limit_capped_at_100 as (Hnum & _ & Hrepos & _).
  split; [|split].
  - apply (proj1 (Hnum (7#2) 30%Z 100%Z)). reflexivity.
  - apply (proj2 (Hnum (-4)%Q 50%Z 100%Z)). discriminate.
  - apply Hrepos.
Defined.

(** What the limits come to: a fraction is floored, a large limit is
    capped, and zero, a negative number and NaN give way to the
    default. *)
Example normalizeLimit_examples :
  normalizeLimit (Some (Num (7#2))) 30 100 = 3%Z /\
  normalizeLimit (Some (Num 5000)) 30 100 = 100%Z /\
  normalizeLimit (Some (Num 0)) 30 100 = 30%Z /\
  normalizeLimit (Some (Num (-4))) 50 100 = 50%Z /\
  normalizeLimit (Some NaN) 50 100 = 50%Z /\
  normalizeLimit None 30 100 = 30%Z /\
  normalizeLimit (Some (Num (1#2))) 30 100 = 0%Z.
Proof. repeat split. Qed.

(** A remote that answers 150 items on a page, asked with a limit of
    5000: 100 items come back. *)
Example capped_searches :
  length (Sample.valueOf Sample.codeFound) = 100%nat /\
  length (Sample.valueOf Sample.commitsFound) = 100%nat /\
  length (Sample.valueOf Sample.reposFound) = 100%nat.
Proof. repeat split; vm_compute; reflexivity. Qed.

(** ** The match indices of a hit, and the fuel of the pagination *)

Lemma firstLineWith_bounds fileLines lowerNeedle index :
  Forall (fun i => (index <= i < index + Z.of_nat (length fileLines))%Z)
         (firstLineWith fileLines lowerNeedle index).
Proof.
  revert index. induction fileLines as [|line rest IH]; intros index; simpl.
  - constructor.
  - destruct (Str.includes _ _).
    + repeat constructor; lia.
    + eapply Forall_impl; [apply IH|]. simpl. intros i Hi. lia.
Qed.

Lemma findLineIndicesInFile_bounds fileLines needle :
  Forall (fun i => (0 <= i < Z.of_nat (length fileLines))%Z)
         (findLineIndicesInFile fileLines needle).
Proof.
  unfold findLineIndicesInFile. destruct (Str.isEmpty _); [constructor|].
  eapply Forall_impl; [apply firstLineWith_bounds|]. simpl. intros i Hi. lia.
Qed.

Lemma setAdd_Forall (P : Z -> Prop) indices index :
  Forall P indices -> P index -> Forall P (setAdd indices index).
Proof.
  intros Hl Hx. unfold setAdd. destruct (existsb _ _); auto.
  apply Forall_app. split; auto.
Qed.

Lemma fold_setAdd_Forall (P : Z -> Prop) hits indices :
  Forall P indices -> Forall P hits -> Forall P (fold_left setAdd hits indices).
Proof.
  revert indices. induction hits as [|h hits IH]; intros indices Hi Hh; simpl; auto.
  inversion Hh; subst. apply IH; auto. now apply setAdd_Forall.
Qed.

(** The indices that [collectMatchLineIndices] finds are indices of
    lines of the file. *)
Lemma collectMatchLineIndices_bounds textMatches fileLines :
  Forall (fun i => (0 <= i < Z.of_nat (length fileLines))%Z)
         (collectMatchLineIndices textMatches fileLines).
Proof.
  unfold collectMatchLineIndices.
  eapply Permutation_Forall; [symmetry; apply sort_perm|].
  generalize (flat_map needlesOf textMatches) as needles.
  assert (Hgen : forall needles indices,
             Forall (fun i => (0 <= i < Z.of_nat (length fileLines))%Z) indices ->
             Forall (fun i => (0 <= i < Z.of_nat (length fileLines))%Z)
                    (fold_left
                       (fun indices needle =>
                          fold_left setAdd (findLineIndicesInFile fileLines needle) indices)
                       needles indices)).
  { induction needles as [|needle needles IH]; intros indices Hi; simpl; auto.
    apply IH. apply fold_setAdd_Forall; auto. apply findLineIndicesInFile_bounds. }
  intros needles. apply Hgen. constructor.
Qed.

(** The snippets that [searchCode] attaches to a hit: one for each match
    line found in the file of the hit, windowed as C4 says. *)
Lemma snippets_of_a_hit textMatches fileLines context :
  (0 <= orElse context 2)%Z ->
  Forall2 (windowedAround fileLines (orElse context 2%Z))
          (collectMatchLineIndices textMatches fileLines)
          (createSnippetsFromLines fileLines
             (collectMatchLineIndices textMatches fileLines) context).
Proof.
  intros Hc.
  rewrite createSnippetsFromLines_map.
  pose proof (collectMatchLineIndices_bounds textMatches fileLines) as Hin.
  induction Hin as [|i indices Hi Hin IH]; simpl; constructor; auto.
  now apply snippetAround_windowed.
Qed.

Section FuelFacts.

Variable encodeURIComponent : string -> string.
Variable urlToString : string -> list (string * string) -> string.
Variable bufferFrom : string -> string -> option string.
Variable remote : Remote.

(** The pagination of [searchCode] and [searchCommits] gathers at least
    one item in every round that is followed by another, so with a
    finite number to collect it ends within that many rounds. *)
Lemma collectPages_enough_fuel {T : Type} (endpoint : Endpoint (option (list T)))
      pageUrl (toCollect : Z) fuel gathered page s :
  (Z.to_nat (toCollect - Z.of_nat (length gathered)) <= fuel)%nat ->
  fst (collectPages endpoint pageUrl (Fin toCollect) fuel gathered page s) <> OutOfFuel.
Proof.
  revert gathered page s.
  induction fuel as [|fuel IH]; intros gathered page s Hfuel; simpl.
  - destruct (Z.ltb_spec (Z.of_nat (length gathered)) toCollect); [lia|discriminate].
  - destruct (Z.ltb_spec (Z.of_nat (length gathered)) toCollect) as [Hlt|Hge];
      [|discriminate].
    unfold bind at 1. unfold ghFetch at 1.
    destruct (endpoint (requests s) _) as [response|]; [|discriminate].
    destruct (ok response); [|discriminate].
    destruct (orElse (json response) []) as [|item items] eqn:Hitems; [discriminate|].
    destruct (Z.ltb_spec (Z.of_nat (length (item :: items)))
                         (Z.min 100 (toCollect - Z.of_nat (length gathered))))
      as [Hshort|Hfull]; [discriminate|].
    apply IH. rewrite length_app. lia.
Qed.

Lemma prepareAll_not_exhausted target context results fileCache prepared s :
  fst (prepareAll encodeURIComponent bufferFrom remote target context results
                  fileCache prepared s) <> OutOfFuel.
Proof.
  revert fileCache prepared s.
  induction results as [|item rest IH]; intros fileCache prepared s; simpl.
  - discriminate.
  - unfold bind at 1. unfold prepareItem. unfold bind at 1.
    destruct (fileCache !! _) as [known|].
    + simpl. apply IH.
    + unfold bind at 1. unfold loadBlobLinesOrNone, loadBlobLines, bind, gets, ghFetch.
      simpl.
      destruct (blobCache s !! _) as [cached|]; simpl; [apply IH|].
      destruct (blobs remote (requests s) _) as [response|]; simpl; [|discriminate].
      destruct (ok response); simpl; [|apply IH].
      destruct (truthy (GitHubBlobResponse.content (json response))); simpl; [|apply IH].
      destruct (bufferFrom _ _); simpl; [apply IH|discriminate].
Qed.

(** With a finite offset, [searchCode] and [searchCommits] end, in a
    value or in an error, as soon as the fuel covers [offset + limit]
    rounds. *)
Lemma searchCode_enough_fuel fuel target options s o :
  normalizeOffset (cs_offset options) = Fin o ->
  (Z.to_nat (o + normalizeLimit (cs_limit options) 30 100) <= fuel)%nat ->
  fst (searchCode encodeURIComponent bufferFrom remote fuel target options s)
    <> OutOfFuel.
Proof.
  intros Ho Hfuel. unfold searchCode. rewrite Ho.
  destruct (Str.isEmpty _); [discriminate|].
  unfold bind. simpl Count.add.
  match goal with
  | |- context [collectPages ?e ?u (Fin ?m) fuel [] 1 s] =>
      pose proof (collectPages_enough_fuel e u m fuel [] 1 s) as Hpages;
      destruct (collectPages e u (Fin m) fuel [] 1 s) as [[gathered|e0|] s0]
  end.
  - destruct gathered as [|item items]; [discriminate|].
    apply prepareAll_not_exhausted.
  - discriminate.
  - exfalso. apply Hpages; [simpl; lia|reflexivity].
Qed.

Lemma searchCommits_enough_fuel fuel target options s o :
  normalizeOffset (cm_offset options) = Fin o ->
  (Z.to_nat (o + normalizeLimit (cm_limit options) 50 100) <= fuel)%nat ->
  fst (searchCommits encodeURIComponent remote fuel target options s) <> OutOfFuel.
Proof.
  intros Ho Hfuel. unfold searchCommits. rewrite Ho.
  unfold bind. simpl Count.add.
  match goal with
  | |- context [collectPages ?e ?u (Fin ?m) fuel [] 1 s] =>
      pose proof (collectPages_enough_fuel e u m fuel [] 1 s) as Hpages;
      destruct (collectPages e u (Fin m) fuel [] 1 s) as [[gathered|e0|] s0]
  end.
  - discriminate.
  - discriminate.
  - exfalso. apply Hpages; [simpl; lia|reflexivity].
Qed.

End FuelFacts.

(** A search end to end: the hit is found on lines 1 and 2 of its blob,
    and with no context each match line is a snippet of its own; the
    requests are the search and the one blob. *)
Example searchCode_snippets :
  let run := searchCode Sample.encodeURIComponent Sample.bufferFrom Sample.codeRemote 6
                        Sample.example Sample.greetSearch freshViewer in
  map snippets (Sample.valueOf run)
    = [[ {| startLine := 1; endLine := 1; lines := ["export function greet() {"] |};
         {| startLine := 2; endLine := 2; lines := ["  return 1;"] |} ]] /\
  requests (snd run)
    = ["https://api.github.com/search/code?q=greet repo:acme/example&per_page=5&page=1";
       "https://api.github.com/repos/acme/example/git/blobs/abc123"].
Proof. split; reflexivity. Qed.

(** ** The snippets of a code search *)

Section SnippetFacts.

Variable encodeURIComponent : string -> string.
Variable bufferFrom : string -> string -> option string.
Variable remote : Remote.

(** The lines that the call holds for a blob are the lines that the
    viewer holds for it, or none. *)
Local Abbreviation agrees fileCache s :=
  (forall key fileLines,
      (fileCache : gmap string (list string)) !! key = Some fileLines ->
      fileLines = orElse (blobCache s !! key) []).

Local Abbreviation made context fileCache hit result :=
  (exists fileLines,
      (fileCache : gmap string (list string))
        !! blobCacheKey (csr_repository result) (GitHubCodeSearchItem.sha hit)
        = Some fileLines /\
      snippets result
        = createSnippetsFromLines
            fileLines
            (collectMatchLineIndices
               (orElse (GitHubCodeSearchItem.text_matches hit) []) fileLines)
            context).

Lemma loadBlobLinesOrNone_returns target sha s fileLines s' :
  loadBlobLinesOrNone encodeURIComponent bufferFrom remote target sha s
    = (Returned fileLines, s') ->
  fileLines = orElse (blobCache s' !! blobCacheKey target sha) [] /\
  (forall key, key <> blobCacheKey target sha ->
               blobCache s' !! key = blobCache s !! key).
Proof.
  unfold loadBlobLinesOrNone, loadBlobLines, bind, ret, gets, ghFetch, modify, throw.
  simpl.
  destruct (blobCache s !! blobCacheKey target sha) as [cached|] eqn:Hcached; simpl.
  - intros [= <- <-]. now rewrite Hcached.
  - destruct (blobs remote (requests s) _) as [response|]; simpl; [|discriminate].
    destruct (ok response); simpl.
    + destruct (truthy (GitHubBlobResponse.content (json response))); simpl.
      * destruct (bufferFrom _ _) as [buffer|]; simpl; [|discriminate].
        intros [= <- <-]. simpl. rewrite lookup_insert_eq. split; [reflexivity|].
        intros key Hkey. now rewrite lookup_insert_ne.
      * intros [= <- <-]. simpl. now rewrite Hcached.
    + intros [= <- <-]. simpl. now rewrite Hcached.
Qed.

Lemma prepareItem_snippets target context item fileCache s fc entry s' :
  prepareItem encodeURIComponent bufferFrom remote target context item fileCache s
    = (Returned (fc, entry), s') ->
  agrees fileCache s ->
  agrees fc s' /\
  (forall key fileLines, fileCache !! key = Some fileLines -> fc !! key = Some fileLines) /\
  made context fc item entry.
Proof.
  unfold prepareItem. unfold bind at 1.
  set (targetRepo := {| owner := _; repo := _ |}).
  set (cacheKey := blobCacheKey targetRepo (GitHubCodeSearchItem.sha item)).
  destruct (fileCache !! cacheKey) as [known|] eqn:Hknown.
  - cbn [ret]. intros [= <- <- <-] Hagrees. cbn [csr_repository snippets].
    fold cacheKey. split; [exact Hagrees|]. split; [auto|].
    exists known. rewrite Hknown. auto.
  - unfold bind at 1.
    destruct (loadBlobLinesOrNone _ _ _ targetRepo _ s) as [[fileLines|e|] s0] eqn:Hload;
      try discriminate.
    cbn [ret]. intros [= <- <- <-] Hagrees. cbn [csr_repository snippets].
    fold cacheKey.
    apply loadBlobLinesOrNone_returns in Hload as [Hlines Hothers].
    fold cacheKey in Hlines, Hothers.
    split; [|split].
    + intros key held Hkey.
      destruct (decide (key = cacheKey)) as [->|Hne].
      * rewrite lookup_insert_eq in Hkey. congruence.
      * rewrite lookup_insert_ne in Hkey by congruence.
        rewrite (Hothers key Hne). now apply Hagrees.
    + intros key held Hkey.
      destruct (decide (key = cacheKey)) as [->|Hne]; [congruence|].
      now rewrite lookup_insert_ne by congruence.
    + exists fileLines. rewrite lookup_insert_eq. auto.
Qed.

Lemma prepareAll_snippets target context results :
  forall done fileCache prepared s out s',
    prepareAll encodeURIComponent bufferFrom remote target context results
               fileCache prepared s = (Returned out, s') ->
    agrees fileCache s ->
    Forall2 (fun hit result => made context fileCache hit result) done prepared ->
    exists fc,
      agrees fc s' /\
      Forall2 (fun hit result => made context fc hit result) (done ++ results) out.
Proof.
  induction results as [|item rest IH]; intros done fileCache prepared s out s'; simpl.
  - intros [= <- <-] Hagrees Hdone. exists fileCache. now rewrite app_nil_r.
  - unfold bind at 1.
    destruct (prepareItem _ _ _ _ _ item fileCache s) as [[[fc entry]|e|] s0] eqn:Hitem;
      try discriminate.
    intros Hrun Hagrees Hdone.
    destruct (prepareItem_snippets _ _ _ _ _ _ _ _ Hitem Hagrees)
      as (Hagrees0 & Hgrows & Hentry).
    destruct (IH (done ++ [item]) fc (prepared ++ [entry]) s0 out s' Hrun Hagrees0)
      as (fc' & Hfinal & Hall).
    + apply Forall2_app; [|repeat constructor; exact Hentry].
      eapply Forall2_impl; [exact Hdone|].
      intros hit result (fileLines & Hkey & Hsnippets). exists fileLines. auto.
    + exists fc'. split; [exact Hfinal|]. now rewrite <- app_assoc in Hall.
Qed.

End SnippetFacts.

(** C4.  For a context [c] that is not negative (2 when unset), whenever
    [searchCode] returns, every result carries the snippets of its own
    hit: with the lines of the blob of the hit as the viewer holds them
    now (none when the blob could not be read) and the match lines found
    in them, there is exactly one snippet for each match line, in order,
    each made from its own index [i] alone: it spans the 1-based lines
    [max(0, i - c) + 1] to [min(n, i + c + 1)], holds exactly those lines,
    and contains the match line.  Nothing is merged: two match lines give
    two snippets whatever their windows share. *)
Theorem one_snippet_per_match_index :
  forall (encodeURIComponent : string -> string)
         (bufferFrom : string -> string -> option string) (remote : Remote)
         (fuel : nat) (target : RepoTarget) (options : CodeSearchOptions)
         (s : ViewerState) (found : list CodeSearchResultItem) (s' : ViewerState),
    (0 <= orElse (cs_context options) 2)%Z ->
    searchCode encodeURIComponent bufferFrom remote fuel target options s
      = (Returned found, s') ->
    exists s1 gathered,
      collectPages (codeSearch remote) (codePageUrl encodeURIComponent target options)
                   (codeHitsWanted options) fuel [] 1 s = (Returned gathered, s1) /\
      Forall2 (snippetsFor (cs_context options) (blobCache s'))
              (slice gathered (normalizeOffset (cs_offset options))
                     (codeHitsWanted options))
              found.
Proof.
  intros enc buf remote fuel target options s found s' Hcontext.
  unfold searchCode.
  destruct (Str.isEmpty (Str.trim (cs_pattern options))); [discriminate|].
  unfold bind at 1.
  match goal with
  | |- context [collectPages ?ep ?url ?n fuel [] 1 s] =>
      change (collectPages ep url n fuel [] 1 s)
        with (collectPages (codeSearch remote) (codePageUrl enc target options)
                           (codeHitsWanted options) fuel [] 1 s)
  end.
  destruct (collectPages _ _ _ fuel [] 1 s) as [[gathered|e|] s1] eqn:Hpages;
    try discriminate.
  intros Hrun. exists s1, gathered. split; [reflexivity|].
  assert (Hmade : exists fc,
             (forall key fileLines,
                 fc !! key = Some fileLines ->
                 fileLines = orElse (blobCache s' !! key) []) /\
             Forall2 (fun hit result =>
                        exists fileLines,
                          (fc : gmap string (list string))
                            !! blobCacheKey (csr_repository result)
                                            (GitHubCodeSearchItem.sha hit)
                            = Some fileLines /\
                          snippets result
                            = createSnippetsFromLines
                                fileLines
                                (collectMatchLineIndices
                                   (orElse (GitHubCodeSearchItem.text_matches hit) [])
                                   fileLines)
                                (cs_context options))
                     (slice gathered (normalizeOffset (cs_offset options))
                            (codeHitsWanted options))
                     found).
  { destruct gathered as [|item gathered].
    - injection Hrun as <- <-. exists ∅. split.
      + intros key fileLines Hkey. now rewrite lookup_empty in Hkey.
      + unfold slice. simpl. rewrite skipn_nil, firstn_nil. constructor.
    - apply (prepareAll_snippets enc buf remote target (cs_context options) _ []
               ∅ [] s1 found s' Hrun).
      + intros key fileLines Hkey. now rewrite lookup_empty in Hkey.
      + constructor. }
  destruct Hmade as (fc & Hagrees & Hall).
  eapply Forall2_impl; [exact Hall|].
  intros hit result (fileLines & Hkey & Hsnippets).
  unfold snippetsFor. rewrite <- (Hagrees _ _ Hkey). cbv zeta.
  rewrite Hsnippets. split.
  - rewrite createSnippetsFromLines_map. apply length_map.
  - now apply snippets_of_a_hit.
Qed.

Lemma one_snippet_per_match_index_witness :
  (0 <= orElse (cs_context Sample.greetSearch) 2)%Z /\
  map (fun result => length (snippets result)) (Sample.valueOf Sample.greetRun) = [2%nat] /\
  exists s1 gathered,
    collectPages (codeSearch Sample.codeRemote)
                 (codePageUrl Sample.encodeURIComponent Sample.example Sample.greetSearch)
                 (codeHitsWanted Sample.greetSearch) 6 [] 1 freshViewer
      = (Returned gathered, s1) /\
    Forall2 (snippetsFor (cs_context Sample.greetSearch) (blobCache (snd Sample.greetRun)))
            (slice gathered (normalizeOffset (cs_offset Sample.greetSearch))
                   (codeHitsWanted Sample.greetSearch))
            (Sample.valueOf Sample.greetRun).
Proof.
  split; [simpl; lia|]. split; [reflexivity|].
  apply (one_snippet_per_match_index
           Sample.encodeURIComponent Sample.bufferFrom Sample.codeRemote 6
           Sample.example Sample.greetSearch freshViewer
           (Sample.valueOf Sample.greetRun) (snd Sample.greetRun)).
  - simpl. lia.
  - reflexivity.
Defined.

(** C4 read without a bound on the context fails: with the context -1,
    the match at index 0 of the four lines of the blob gets a snippet
    that starts and ends at line 2 and holds no line, where the sentence
    has it run from line [max(0, 0 + 1) + 1 = 2] to line
    [min(4, 0 - 1 + 1) = 0]; the match line itself, line 1, is not in
    it. *)
Lemma negative_context_misses_the_match_line :
  fst Sample.backwardsRun
    = Returned
        [{| csr_repository := Sample.example;
            csr_fullName := "acme/example";
            csr_path := "src/index.ts";
            csr_ref := "abc123";
            csr_language := None;
            csr_score := None;
            snippets := [{| startLine := 2; endLine := 2; lines := [] |};
                         {| startLine := 3; endLine := 3; lines := [] |}];
            csr_htmlUrl := "https://github.com/acme/example/blob/main/src/index.ts" |}] /\
  blobCache (snd Sample.backwardsRun) !! "acme/example:abc123"
    = Some ["export function greet() {"; "  return 1;"; "}"; ""] /\
  (Z.max 0 (0 - -1) + 1 = 2)%Z /\
  (Z.min 4 (0 + -1 + 1) = 0)%Z.
Proof. repeat split. Qed.

(** * Further properties of the viewer *)

(** ** Locating the match lines *)

Lemma firstLineWith_first fileLines lowerNeedle index :
  match firstLineWith fileLines lowerNeedle index with
  | [] =>
      Forall (fun line => Str.includes (Str.toLowerCase line) lowerNeedle = false) fileLines
  | [i] =>
      exists before line after,
        fileLines = before ++ line :: after /\
        i = (index + Z.of_nat (length before))%Z /\
        Str.includes (Str.toLowerCase line) lowerNeedle = true /\
        Forall (fun l => Str.includes (Str.toLowerCase l) lowerNeedle = false) before
  | _ => False
  end.
Proof.
  revert index. induction fileLines as [|line rest IH]; intros index; simpl.
  - constructor.
  - destruct (Str.includes (Str.toLowerCase line) lowerNeedle) eqn:Hline.
    + exists [], line, rest. simpl. repeat split; auto. lia.
    + specialize (IH (index + 1)%Z).
      destruct (firstLineWith rest lowerNeedle (index + 1)) as [|i [|j more]]; auto.
      destruct IH as (before & hit & after & -> & -> & Hhit & Hbefore).
      exists (line :: before), hit, after. simpl. repeat split; auto. lia.
Qed.

(** X1.  [findLineIndicesInFile] answers at most one index: none when the
    needle is blank or no line contains it, and otherwise the index of
    the first line of the file that contains the trimmed needle, letter
    case apart; no line before it does. *)
Theorem findLineIndicesInFile_first_hit :
  forall (fileLines : list string) (needle : string),
    match findLineIndicesInFile fileLines needle with
    | [] =>
        Str.trim needle = EmptyString \/
        Forall (fun line => containsNeedle needle line = false) fileLines
    | [i] =>
        Str.trim needle <> EmptyString /\
        exists before line after,
          fileLines = before ++ line :: after /\
          i = Z.of_nat (length before) /\
          containsNeedle needle line = true /\
          Forall (fun l => containsNeedle needle l = false) before
    | _ => False
    end.
Proof.
  intros fileLines needle. unfold findLineIndicesInFile, containsNeedle.
  destruct (Str.isEmpty (Str.trim needle)) eqn:Hblank.
  - left. now apply isEmpty_true.
  - pose proof (firstLineWith_first fileLines (Str.toLowerCase (Str.trim needle)) 0) as H.
    destruct (firstLineWith fileLines (Str.toLowerCase (Str.trim needle)) 0)
      as [|i [|j more]]; auto.
    split; [now apply isEmpty_false|].
    destruct H as (before & line & after & Hsplit & Hi & Hhit & Hbefore).
    exists before, line, after. repeat split; auto.
Qed.

Lemma setAdd_NoDup indices index : NoDup indices -> NoDup (setAdd indices index).
Proof.
  intros Hnd. unfold setAdd.
  destruct (existsb (Z.eqb index) indices) eqn:E; auto.
  apply NoDup_app. repeat split; auto.
  - intros x Hx Hin. apply list_elem_of_singleton in Hin. subst x.
    apply list_elem_of_In in Hx.
    assert (existsb (Z.eqb index) indices = true); [|congruence].
    apply existsb_exists. exists index. split; auto. apply Z.eqb_refl.
  - apply NoDup_singleton.
Qed.

Lemma fold_setAdd_NoDup hits indices :
  NoDup indices -> NoDup (fold_left setAdd hits indices).
Proof.
  revert indices. induction hits as [|h hits IH]; intros indices Hnd; simpl; auto.
  apply IH. now apply setAdd_NoDup.
Qed.

Lemma sorted_NoDup_strict (l : list Z) :
  StronglySorted Z.le l -> NoDup l -> StronglySorted Z.lt l.
Proof.
  induction 1 as [|x l Hl IH Hx]; intros Hnd; constructor.
  - apply IH. now apply NoDup_cons_1_2 in Hnd.
  - apply NoDup_cons in Hnd as [Hnotin _].
    apply Forall_forall. intros y Hy.
    rewrite Forall_forall in Hx. specialize (Hx y Hy).
    assert (x <> y) by (intros ->; apply Hnotin; now apply list_elem_of_In). lia.
Qed.

(** X2.  The match lines that [collectMatchLineIndices] hands to the
    snippets are indices of lines of the file, each once, in ascending
    order, whatever the order and the repetitions of the fragments. *)
Theorem collectMatchLineIndices_ascending :
  forall (textMatches : list GitHubTextMatch.t) (fileLines : list string),
    StronglySorted Z.lt (collectMatchLineIndices textMatches fileLines) /\
    Forall (fun i => (0 <= i < Z.of_nat (length fileLines))%Z)
           (collectMatchLineIndices textMatches fileLines).
Proof.
  intros textMatches fileLines. split; [|apply collectMatchLineIndices_bounds].
  unfold collectMatchLineIndices.
  set (compareFn := fun a b : Z => inject_Z (a - b)).
  set (indices := fold_left _ _ _).
  apply sorted_NoDup_strict.
  - apply StronglySorted_weaken with (R := notAfter compareFn).
    + intros x y. unfold notAfter, compareFn. rewrite inject_Z_nonpos. lia.
    + apply sort_sorted; unfold notAfter, compareFn; intros;
        rewrite ?inject_Z_nonpos in *; lia.
  - rewrite (sort_perm compareFn indices).
    subst indices.
    generalize (flat_map needlesOf textMatches) as needles.
    assert (Hgen : forall needles acc,
               NoDup acc ->
               NoDup (fold_left
                        (fun acc needle =>
                           fold_left setAdd (findLineIndicesInFile fileLines needle) acc)
                        needles acc)).
    { induction needles as [|needle needles IH]; intros acc Hacc; simpl; auto.
      apply IH. now apply fold_setAdd_NoDup. }
    intros needles. apply Hgen. constructor.
Qed.

(** ** Slugs *)

Lemma split_without_separator sep s : hasChar sep s = false -> Str.split sep s = [s].
Proof.
  induction s as [|c s IH]; simpl; auto.
  intros H. apply orb_false_iff in H as [Hc Hs].
  rewrite Hc, (IH Hs). reflexivity.
Qed.

Lemma split_at_separator sep piece rest :
  hasChar sep piece = false ->
  Str.split sep (piece +:+ String sep rest) = piece :: Str.split sep rest.
Proof.
  induction piece as [|c piece IH]; simpl; intros H.
  - now rewrite Ascii.eqb_refl.
  - apply orb_false_iff in H as [Hc Hs]. rewrite Hc, (IH Hs). reflexivity.
Qed.

(** X3.  [parseRepo] and the writing [owner/repo] are inverse to each
    other: [parseRepo] returns a target exactly on the slug made of its
    owner, one [/] and its repository name, both non-empty and free of
    [/]. *)
Theorem parseRepo_round_trip :
  forall (slug : string) (target : RepoTarget),
    parseRepo slug = Returned target <->
    (slug = owner target +:+ "/" +:+ repo target /\
     owner target <> EmptyString /\ repo target <> EmptyString /\
     hasChar "/" (owner target) = false /\ hasChar "/" (repo target) = false).
Proof.
  intros slug target. split; [apply parseRepo_returns|].
  intros (-> & Ho & Hr & Hso & Hsr).
  unfold parseRepo.
  change (owner target +:+ "/" +:+ repo target)
    with (owner target +:+ String "/" (repo target)).
  rewrite (split_at_separator "/" _ _ Hso), (split_without_separator "/" _ Hsr).
  apply isEmpty_false in Ho, Hr. rewrite Ho, Hr. simpl.
  now destruct target.
Qed.

(** ** What the caches keep *)

Section CacheFacts.

Variable encodeURIComponent : string -> string.
Variable urlToString : string -> list (string * string) -> string.
Variable minimatch : string -> string -> bool.
Variable bufferFrom : string -> string -> option string.
Variable remote : Remote.

Lemma getDefaultBranch_effect target s :
  match getDefaultBranch encodeURIComponent remote target s with
  | (Returned branch, s') =>
      treeCache s' = treeCache s /\ blobCache s' = blobCache s /\
      branch <> EmptyString /\
      getDefaultBranch encodeURIComponent remote target s' = (Returned branch, s')
  | (_, s') =>
      treeCache s' = treeCache s /\ blobCache s' = blobCache s /\
      repoDefaults s' = repoDefaults s
  end.
Proof.
  destruct (getDefaultBranch encodeURIComponent remote target s) as [outcome s'] eqn:Hrun.
  destruct outcome as [branch| |].
  - destruct (getDefaultBranch_again _ _ _ _ _ _ Hrun) as (Htree & _ & Hstays).
    revert Hrun.
    unfold getDefaultBranch, bind, ret, gets, ghFetch, modify, throw. simpl.
    destruct (repoDefaults s !! (owner target +:+ "/" +:+ repo target)) as [cached|] eqn:Hc;
      simpl.
    + destruct (Str.isEmpty cached) eqn:He; simpl.
      * destruct (repository remote (requests s) (repoUrl encodeURIComponent target))
          as [response|]; [|discriminate].
        destruct (ok response); [|discriminate].
        destruct (json response) as [name|]; simpl; [|discriminate].
        destruct (Str.isEmpty name) eqn:Hn; simpl; [discriminate|].
        intros [= <- <-]. simpl. repeat split; auto.
        -- now apply isEmpty_false.
        -- apply (Hstays _ eq_refl).
      * intros [= <- <-]. repeat split; auto.
        -- now apply isEmpty_false.
        -- apply (Hstays _ eq_refl).
    + destruct (repository remote (requests s) (repoUrl encodeURIComponent target))
        as [response|]; [|discriminate].
      destruct (ok response); [|discriminate].
      destruct (json response) as [name|]; simpl; [|discriminate].
      destruct (Str.isEmpty name) eqn:Hn; simpl; [discriminate|].
      intros [= <- <-]. simpl. repeat split; auto.
      -- now apply isEmpty_false.
      -- apply (Hstays _ eq_refl).
  - revert Hrun.
    unfold getDefaultBranch, bind, ret, gets, ghFetch, modify, throw. simpl.
    destruct (truthy (repoDefaults s !! (owner target +:+ "/" +:+ repo target)));
      [discriminate|].
    destruct (repository remote (requests s) (repoUrl encodeURIComponent target))
      as [response|].
    + destruct (ok response).
      * destruct (negb (truthy (json response))); simpl.
        -- intros [= _ <-]. auto.
        -- discriminate.
      * intros [= _ <-]. auto.
    + intros [= _ <-]. auto.
  - revert Hrun.
    unfold getDefaultBranch, bind, ret, gets, ghFetch, modify, throw. simpl.
    destruct (truthy (repoDefaults s !! (owner target +:+ "/" +:+ repo target)));
      [discriminate|].
    destruct (repository remote (requests s) (repoUrl encodeURIComponent target))
      as [response|]; [|discriminate].
    destruct (ok response); [|discriminate].
    destruct (negb (truthy (json response))); discriminate.
Qed.

(** X4.  The default branch of a repository is looked up at most once:
    when [getDefaultBranch] returns a branch, the name is not empty and
    asking again returns the same name without any request or change of
    state.  A look-up that fails leaves the table of default branches as
    it was; and no look-up touches the tree or blob cache. *)
Theorem getDefaultBranch_resolved_once :
  forall (target : RepoTarget) (s : ViewerState),
    match getDefaultBranch encodeURIComponent remote target s with
    | (Returned branch, s') =>
        treeCache s' = treeCache s /\ blobCache s' = blobCache s /\
        branch <> EmptyString /\
        getDefaultBranch encodeURIComponent remote target s' = (Returned branch, s')
    | (_, s') =>
        treeCache s' = treeCache s /\ blobCache s' = blobCache s /\
        repoDefaults s' = repoDefaults s
    end.
Proof. exact getDefaultBranch_effect. Qed.

(** X5.  A blob is fetched at most once by a viewer: when [loadBlobLines]
    returns the lines of a blob they are in the blob cache, every entry
    that was in the cache is still there unchanged, and loading the same
    blob again returns the same lines without any request.  A load that
    fails writes nothing. *)
Theorem loadBlobLines_cached_once :
  forall (target : RepoTarget) (sha : string) (s : ViewerState),
    match loadBlobLines encodeURIComponent bufferFrom remote target sha s with
    | (Returned fileLines, s') =>
        blobCache s' !! blobCacheKey target sha = Some fileLines /\
        (forall key cached, blobCache s !! key = Some cached ->
                            blobCache s' !! key = Some cached) /\
        treeCache s' = treeCache s /\ repoDefaults s' = repoDefaults s /\
        loadBlobLines encodeURIComponent bufferFrom remote target sha s'
          = (Returned fileLines, s')
    | (_, s') =>
        blobCache s' = blobCache s /\ treeCache s' = treeCache s /\
        repoDefaults s' = repoDefaults s
    end.
Proof.
  intros target sha s.
  unfold loadBlobLines, bind, ret, gets, ghFetch, modify, throw. simpl.
  destruct (blobCache s !! blobCacheKey target sha) as [cached|] eqn:Hc; simpl.
  - rewrite Hc. simpl. auto.
  - destruct (blobs remote (requests s) _) as [response|]; simpl; auto.
    destruct (ok response); simpl; auto.
    destruct (truthy (GitHubBlobResponse.content (json response))); simpl; auto.
    destruct (bufferFrom _ _) as [buffer|]; simpl; auto.
    rewrite lookup_insert_eq. simpl. repeat split; auto.
    intros key cached Hkey.
    destruct (decide (blobCacheKey target sha = key)) as [<-|Hne]; [congruence|].
    now rewrite lookup_insert_ne.
Qed.

End CacheFacts.

Section GlobCacheFacts.

Variable encodeURIComponent : string -> string.
Variable urlToString : string -> list (string * string) -> string.
Variable minimatch : string -> string -> bool.
Variable remote : Remote.

Lemma globFiles_with_ref_effect target pattern ref s :
  match globFiles encodeURIComponent urlToString minimatch remote target pattern (Some ref) s with
  | (Returned found, s') =>
      gr_ref found = ref /\
      treeCache s' !! globCacheKey target ref pattern
        = Some {| matches := gr_matches found; truncated := gr_truncated found |} /\
      (forall key entry, treeCache s !! key = Some entry ->
                         treeCache s' !! key = Some entry) /\
      blobCache s' = blobCache s /\ repoDefaults s' = repoDefaults s
  | (_, s') =>
      treeCache s' = treeCache s /\ blobCache s' = blobCache s /\
      repoDefaults s' = repoDefaults s
  end.
Proof.
  destruct (treeCache s !! globCacheKey target ref pattern) as [entry|] eqn:Hcache.
  - rewrite (globFiles_hit _ _ _ _ _ _ _ _ entry Hcache). simpl.
    repeat split; auto. rewrite Hcache. now destruct entry.
  - unfold globFiles, bind, ret, gets, fetchTree, bind, ghFetch, modify, throw.
    simpl. rewrite Hcache. simpl.
    destruct (trees remote (requests s) (treeUrl encodeURIComponent urlToString target ref))
      as [response|]; simpl; auto.
    destruct (ok response); simpl; auto.
    destruct (GitHubTreeResponse.tree (json response)) as [listed|]; simpl; auto.
    rewrite lookup_insert_eq. simpl. rewrite lookup_insert_eq.
    repeat split; auto.
    intros key entry Hkey.
    destruct (decide (globCacheKey target ref pattern = key)) as [<-|Hne]; [congruence|].
    now rewrite lookup_insert_ne.
Qed.

(** X6.  [globFiles] only ever adds to the tree cache.  When it returns,
    the answer is in the cache under the key of its repository, ref and
    pattern, and every entry that was in the cache before is still there
    unchanged; when it fails, by a thrown error of any kind, the tree
    cache is as it was.  The blob cache is never touched. *)
Theorem globFiles_cache_grows :
  forall (target : RepoTarget) (pattern : string) (ref : option string)
         (s : ViewerState),
    match globFiles encodeURIComponent urlToString minimatch remote target pattern ref s with
    | (Returned found, s') =>
        treeCache s' !! globCacheKey target (gr_ref found) pattern
          = Some {| matches := gr_matches found; truncated := gr_truncated found |} /\
        (forall key entry, treeCache s !! key = Some entry ->
                           treeCache s' !! key = Some entry) /\
        blobCache s' = blobCache s
    | (_, s') => treeCache s' = treeCache s /\ blobCache s' = blobCache s
    end.
Proof.
  intros target pattern [ref|] s.
  - pose proof (globFiles_with_ref_effect target pattern ref s) as H.
    destruct (globFiles _ _ _ _ _ _ (Some ref) s) as [[found| |] s'].
    + destruct H as (-> & Hentry & Hkeeps & Hblob & _). auto.
    + destruct H as (Htree & Hblob & _). auto.
    + destruct H as (Htree & Hblob & _). auto.
  - rewrite globFiles_default.
    pose proof (getDefaultBranch_effect encodeURIComponent remote target s) as Hb.
    destruct (getDefaultBranch encodeURIComponent remote target s) as [[branch| |] s0].
    + destruct Hb as (Htree0 & Hblob0 & _).
      pose proof (globFiles_with_ref_effect target pattern branch s0) as H.
      destruct (globFiles _ _ _ _ _ _ (Some branch) s0) as [[found| |] s'].
      * destruct H as (-> & Hentry & Hkeeps & Hblob & _).
        rewrite Htree0 in Hkeeps. repeat split; auto; congruence.
      * destruct H as (Htree & Hblob & _). split; congruence.
      * destruct H as (Htree & Hblob & _). split; congruence.
    + destruct Hb as (Htree0 & Hblob0 & _). auto.
    + destruct Hb as (Htree0 & Hblob0 & _). auto.
Qed.

(** X7.  On a miss of the tree cache, for a tree that the remote serves,
    [globFiles] returns exactly the paths of the entries of kind [blob]
    that the pattern matches, in the order of the tree and never an entry
    of another kind, together with the truncation flag of the remote
    ([false] when the remote sends none), whether or not anything
    matched. *)
Theorem globFiles_matching_blobs :
  forall (target : RepoTarget) (pattern ref : string) (s : ViewerState)
         (response : Response GitHubTreeResponse.t)
         (listed : list GitHubTreeEntry.t),
    treeCache s !! globCacheKey target ref pattern = None ->
    trees remote (requests s) (treeUrl encodeURIComponent urlToString target ref) = Some response ->
    ok response = true ->
    GitHubTreeResponse.tree (json response) = Some listed ->
    exists found s',
      globFiles encodeURIComponent urlToString minimatch remote target pattern (Some ref) s
        = (Returned found, s') /\
      gr_matches found
        = map GitHubTreeEntry.path
              (filter (fun entry =>
                         bool_decide (GitHubTreeEntry.type entry = "blob")
                         && minimatch (GitHubTreeEntry.path entry) pattern)
                      listed) /\
      (forall path,
          In path (gr_matches found) <->
          exists entry,
            In entry listed /\ GitHubTreeEntry.path entry = path /\
            GitHubTreeEntry.type entry = "blob" /\ minimatch path pattern = true) /\
      gr_truncated found = orElse (GitHubTreeResponse.truncated (json response)) false.
Proof.
  intros target pattern ref s response listed Hcold Hresp Hok Htree.
  unfold globFiles, bind, ret, gets, fetchTree, bind, ghFetch, modify, throw.
  simpl. rewrite Hcold. simpl. rewrite Hresp, Hok. simpl. rewrite Htree. simpl.
  rewrite lookup_insert_eq. simpl. rewrite ?Htree. simpl.
  eexists. eexists. split; [reflexivity|]. simpl. split; [reflexivity|]. split; auto.
  intros path. rewrite in_map_iff. split.
  - intros (entry & Hpath & Hin).
    apply list_elem_of_In in Hin. apply list_elem_of_filter in Hin as [Hkeep Hin].
    apply list_elem_of_In in Hin.
    apply andb_prop_elim in Hkeep as [Hblob Hmatch].
    apply bool_decide_unpack in Hblob. apply Is_true_true in Hmatch.
    exists entry. subst path. auto.
  - intros (entry & Hin & Hpath & Hblob & Hmatch).
    exists entry. split; auto.
    apply list_elem_of_In. apply list_elem_of_filter. split.
    + apply andb_prop_intro. split.
      * now apply bool_decide_pack.
      * apply Is_true_true. now rewrite Hpath.
    + now apply list_elem_of_In.
Qed.

End GlobCacheFacts.

Lemma globFiles_matching_blobs_witness :
  exists found s',
    globFiles Sample.encodeURIComponent Sample.urlToString Sample.minimatch Sample.treeRemote
              Sample.example "*" (Some "main") freshViewer
      = (Returned found, s') /\
    gr_matches found
      = map GitHubTreeEntry.path
            (filter (fun entry =>
                       bool_decide (GitHubTreeEntry.type entry = "blob")
                       && Sample.minimatch (GitHubTreeEntry.path entry) "*")
                    Sample.treeListed) /\
    (forall path,
        In path (gr_matches found) <->
        exists entry,
          In entry Sample.treeListed /\ GitHubTreeEntry.path entry = path /\
          GitHubTreeEntry.type entry = "blob" /\ Sample.minimatch path "*" = true) /\
    gr_truncated found
      = orElse (GitHubTreeResponse.truncated
                  (json (Sample.respond
                           {| GitHubTreeResponse.tree := Some Sample.treeListed;
                              GitHubTreeResponse.truncated := Some true |}))) false.
Proof.
  apply (globFiles_matching_blobs Sample.encodeURIComponent Sample.urlToString Sample.minimatch
           Sample.treeRemote Sample.example "*" "main" freshViewer
           (Sample.respond {| GitHubTreeResponse.tree := Some Sample.treeListed;
                              GitHubTreeResponse.truncated := Some true |})
           Sample.treeListed); reflexivity.
Defined.

(** ** Invariants of the discovery *)

Section KeepsFacts.

Context {P : JsMap.t Candidate -> Prop}.

Lemma keeps_ret {A : Type} (a : A) : keeps P (ret a).
Proof. intros d Hd. exact Hd. Qed.

Lemma keeps_exhausted {A : Type} : keeps P (@exhausted Discovery A).
Proof. intros d Hd. exact Hd. Qed.

Lemma keeps_bind {A B : Type} (m : M Discovery A) (k : A -> M Discovery B) :
  keeps P m -> (forall a, keeps P (k a)) -> keeps P (bind m k).
Proof.
  intros Hm Hk d Hd. unfold bind. specialize (Hm d Hd).
  destruct (m d) as [[a|e|] d']; simpl in *; auto.
  now apply Hk.
Qed.

Lemma keeps_liftViewer {A : Type} (m : M ViewerState A) : keeps P (liftViewer m).
Proof.
  intros d Hd. unfold liftViewer. now destruct (m (viewer d)).
Qed.

Lemma keeps_gets {A : Type} (f : Discovery -> A) : keeps P (gets f).
Proof. intros d Hd. exact Hd. Qed.

Lemma keeps_swallow (m : M Discovery unit) : keeps P m -> keeps P (swallowViewerError m).
Proof.
  intros Hm d Hd. unfold swallowViewerError. specialize (Hm d Hd).
  destruct (m d) as [[[]|[e|url|enc]|] d']; simpl in *; auto.
Qed.

End KeepsFacts.

Section DiscoveryInvariants.

Variable encodeURIComponent : string -> string.
Variable urlToString : string -> list (string * string) -> string.
Variable localeCompareAccent : string -> string -> Z.
Variable authToken : option string.
Variable remote : Remote.
Variable filters : Filters.
Variable maxIntermediate : count.
Variable P : JsMap.t Candidate -> Prop.

Hypothesis addRepository_keeps :
  forall repo prio c,
    prio = 0%Z \/ prio = 1%Z ->
    P c -> P (addRepository localeCompareAccent filters repo prio c).

Lemma addPage_keeps prio page c :
  prio = 0%Z \/ prio = 1%Z ->
  P c -> P (fst (addPage localeCompareAccent filters maxIntermediate prio page c)).
Proof.
  intros Hprio. revert c. induction page as [|r rest IH]; intros c Hc; simpl; auto.
  destruct (Count.leb _ _); simpl; auto.
Qed.

Lemma addPageM_keeps prio page :
  prio = 0%Z \/ prio = 1%Z ->
  keeps P (addPageM localeCompareAccent filters maxIntermediate prio page).
Proof.
  intros Hprio d Hd. unfold addPageM.
  pose proof (addPage_keeps prio page (collected d) Hprio Hd) as H.
  now destruct (addPage _ _ _ _ _ _).
Qed.

Lemma collectListing_keeps fuel url :
  keeps P (collectListing localeCompareAccent remote filters maxIntermediate fuel url).
Proof.
  revert url. induction fuel as [|fuel IH]; intros [u|]; simpl;
    try apply keeps_ret.
  - destruct (Str.isEmpty u); [apply keeps_ret|apply keeps_exhausted].
  - destruct (Str.isEmpty u); [apply keeps_ret|].
    apply keeps_bind; [apply keeps_liftViewer|]. intros response.
    apply keeps_bind; [apply addPageM_keeps; auto|]. intros [|]; [apply keeps_ret|].
    apply IH.
Qed.

Lemma searchLoop_keeps fuel query page :
  keeps P (searchLoop encodeURIComponent localeCompareAccent remote filters
                      maxIntermediate fuel query page).
Proof.
  revert page. induction fuel as [|fuel IH]; intros page; simpl.
  - apply keeps_bind; [apply keeps_gets|]. intros c.
    destruct (Count.gtb _ _); [apply keeps_exhausted|apply keeps_ret].
  - apply keeps_bind; [apply keeps_gets|]. intros c.
    destruct (Count.gtb _ _); [|apply keeps_ret].
    apply keeps_bind; [apply keeps_liftViewer|]. intros response.
    destruct (orElse (json response) []) as [|item items]; [apply keeps_ret|].
    apply keeps_bind; [apply addPageM_keeps; auto|]. intros _.
    destruct (_ <? _)%Z; [apply keeps_ret|apply IH].
Qed.

(** Whatever [addRepository] keeps, the whole collection keeps. *)
Lemma collectCandidates_keeps fuel toCollect :
  keeps P (collectCandidates encodeURIComponent localeCompareAccent authToken remote
                             filters maxIntermediate fuel toCollect).
Proof.
  unfold collectCandidates.
  apply keeps_bind.
  - assert (Huser : keeps P (swallowViewerError
                               (collectUserRepositories localeCompareAccent authToken
                                  remote filters maxIntermediate fuel))).
    { apply keeps_swallow. unfold collectUserRepositories.
      destruct (negb (truthy authToken)); [apply keeps_ret|apply collectListing_keeps]. }
    destruct (organization filters) as [org|]; auto.
    destruct (Str.isEmpty org); auto.
    apply collectListing_keeps.
  - intros _. apply keeps_bind; [apply keeps_gets|]. intros c.
    destruct (Count.gtb _ _); [apply searchLoop_keeps|apply keeps_ret].
Qed.

End DiscoveryInvariants.

Lemma sublist_map {A B : Type} (f : A -> B) (l1 l2 : list A) :
  l1 `sublist_of` l2 -> map f l1 `sublist_of` map f l2.
Proof.
  induction 1; simpl; [constructor|now constructor|now constructor].
Qed.

Lemma slice_sublist {A : Type} (l : list A) (first last : count) :
  slice l first last `sublist_of` l.
Proof.
  unfold slice. etransitivity; [apply sublist_take|apply sublist_drop].
Qed.

Lemma keyed_names (c : JsMap.t Candidate) :
  keyedByFullName c ->
  map RepositorySummary.fullName (map summary (JsMap.values c)) = JsMap.keys c.
Proof.
  unfold keyedByFullName, JsMap.values, JsMap.keys.
  induction 1 as [|[k v] c Hk Hc IH]; simpl in *; auto.
  now rewrite IH, Hk.
Qed.

Lemma addRepository_keeps_keys localeCompareAccent filters repo prio c :
  NoDup (JsMap.keys c) /\ keyedByFullName c ->
  NoDup (JsMap.keys (addRepository localeCompareAccent filters repo prio c)) /\
  keyedByFullName (addRepository localeCompareAccent filters repo prio c).
Proof.
  intros [Hnodup Hkeyed].
  destruct (addRepository_cases localeCompareAccent filters repo prio c)
    as [->|(s & Hs & -> & Hwhy)]; auto.
  split; [|now apply set_keeps_keyed].
  destruct Hwhy as [Hnone|(e & He & Hlt)].
  - rewrite keys_set_absent by assumption.
    apply NoDup_app. repeat split; auto.
    + intros k Hk Hin. apply list_elem_of_In in Hk.
      apply list_elem_of_singleton in Hin. subst k.
      now apply (get_None_not_key c (RepositorySummary.fullName s)).
    + apply NoDup_singleton.
  - now rewrite (keys_set_present c _ _ e).
Qed.

(** X8.  [searchRepositories] never returns a repository twice: the full
    names of the summaries it returns are pairwise different, whatever
    the channels sent and however often they sent the same repository. *)
Theorem searchRepositories_no_duplicates :
  forall (encodeURIComponent : string -> string)
         (localeCompareAccent localeCompare : string -> string -> Z)
         (authToken : option string) (remote : Remote)
         (fuel : nat) (params : RepositorySearchParams) (s : ViewerState),
    match searchRepositories encodeURIComponent localeCompareAccent localeCompare
                             authToken remote fuel params s with
    | (Returned found, _) => NoDup (map RepositorySummary.fullName found)
    | _ => True
    end.
Proof.
  intros enc cmpA cmp token remote fuel params s. unfold searchRepositories.
  match goal with
  | |- context [collectCandidates ?e ?c ?t ?r ?f ?m fuel ?n ?d0] =>
      pose proof (collectCandidates_keeps e c t r f m
                    (fun c => NoDup (JsMap.keys c) /\ keyedByFullName c)
                    (fun repo prio c _ H => addRepository_keeps_keys cmpA f repo prio c H)
                    fuel n d0) as Hkeeps;
      destruct (collectCandidates e c t r f m fuel n d0) as [[[]|e0|] d] eqn:Hrun
  end; auto.
  destruct Hkeeps as [Hnodup Hkeyed]; [split; constructor|].
  unfold sortAndSlice.
  eapply sublist_NoDup; [|apply sublist_map, sublist_map, slice_sublist].
  rewrite (Permutation_map _ (Permutation_map _ (sort_perm _ _))).
  now rewrite keyed_names.
Qed.

Lemma set_Forall_values (Q : Candidate -> Prop) (c : JsMap.t Candidate) key v :
  Forall Q (JsMap.values c) -> Q v -> Forall Q (JsMap.values (JsMap.set c key v)).
Proof.
  unfold JsMap.values. intros Hc Hv.
  induction c as [|[k v0] c IH]; simpl.
  - repeat constructor; auto.
  - inversion Hc; subst. destruct (String.eqb k key); simpl; constructor; auto.
Qed.

Lemma addRepository_keeps_wanted localeCompareAccent filters repo prio c :
  Forall (wanted localeCompareAccent filters) (JsMap.values c) ->
  Forall (wanted localeCompareAccent filters)
         (JsMap.values (addRepository localeCompareAccent filters repo prio c)).
Proof.
  intros Hc. unfold addRepository.
  destruct (mapRepoSummary repo) as [s|]; auto.
  destruct (ownerMismatch _ _ _); auto.
  destruct (patternMismatch _ _) eqn:Hp; auto.
  destruct (languageMismatch _ _ _) eqn:Hl; auto.
  destruct (languageUnknown _ _ _) eqn:Hu; auto.
  assert (Hfresh : wanted localeCompareAccent filters
                          {| summary := s; priority := prio;
                             stars := RepositorySummary.stars s;
                             score := GitHubRepoSummary.score repo |}).
  { repeat split; auto. }
  destruct (JsMap.get c (RepositorySummary.fullName s)) as [existing|].
  - destruct (prio <? priority existing)%Z; auto. now apply set_Forall_values.
  - now apply set_Forall_values.
Qed.

(** X9.  Every repository that [searchRepositories] returns passed the
    filters of the call: some name of it (short or full) contains every
    term of the pattern, and its language, when it has one, is the
    language asked for. *)
Theorem searchRepositories_results_pass_filters :
  forall (encodeURIComponent : string -> string)
         (urlToString : string -> list (string * string) -> string)
         (localeCompareAccent localeCompare : string -> string -> Z)
         (authToken : option string) (remote : Remote)
         (fuel : nat) (params : RepositorySearchParams) (s : ViewerState),
    match searchRepositories encodeURIComponent localeCompareAccent localeCompare
                             authToken remote fuel params s with
    | (Returned found, _) =>
        Forall (fun r =>
                  patternMismatch (filtersOf params) r = false /\
                  languageMismatch localeCompareAccent (filtersOf params) r = false)
               found
    | _ => True
    end.
Proof.
  intros enc url cmpA cmp token remote fuel params s. unfold searchRepositories.
  match goal with
  | |- context [collectCandidates ?e ?c ?t ?r ?f ?m fuel ?n ?d0] =>
      pose proof (collectCandidates_keeps e c t r f m
                    (fun c => Forall (wanted cmpA f) (JsMap.values c))
                    (fun repo prio c _ H => addRepository_keeps_wanted cmpA f repo prio c H)
                    fuel n d0) as Hkeeps;
      destruct (collectCandidates e c t r f m fuel n d0) as [[[]|e0|] d] eqn:Hrun
  end; auto.
  specialize (Hkeeps ltac:(constructor)). simpl in Hkeeps.
  unfold sortAndSlice.
  apply Forall_forall. intros r Hr. apply list_elem_of_In in Hr.
  apply in_map_iff in Hr as (entry & <- & Hin).
  assert (Hentry : entry ∈ JsMap.values (collected d)).
  { rewrite <- (sort_perm (compareCandidates cmp) (JsMap.values (collected d))).
    apply list_elem_of_In in Hin.
    eapply elem_of_sublist; [exact Hin|]. apply slice_sublist. }
  rewrite Forall_forall in Hkeeps.
  destruct (Hkeeps entry Hentry) as (Hp & Hl & _). auto.
Qed.

(** ** Code search: what fails it, and in what order it answers *)

Section SearchCodeFacts.

Variable encodeURIComponent : string -> string.
Variable urlToString : string -> list (string * string) -> string.
Variable bufferFrom : string -> string -> option string.
Variable remote : Remote.

Local Abbreviation prepare := (prepareAll encodeURIComponent bufferFrom remote).

Lemma prepareItem_entry target context item fileCache s fc entry s' :
  prepareItem encodeURIComponent bufferFrom remote target context item fileCache s
    = (Returned (fc, entry), s') ->
  csr_fullName entry
    = GitHubCodeSearchItem.full_name (GitHubCodeSearchItem.repository item) /\
  csr_path entry = GitHubCodeSearchItem.path item /\
  csr_ref entry = GitHubCodeSearchItem.sha item.
Proof.
  unfold prepareItem. unfold bind at 1.
  match goal with
  | |- context [match ?m s with _ => _ end] => destruct (m s) as [[known|e|] s0]
  end; try discriminate.
  intros [= _ <- _]. auto.
Qed.

Lemma prepareAll_hits target context results fileCache prepared s out s' :
  prepare target context results fileCache prepared s = (Returned out, s') ->
  map csr_fullName out
    = map csr_fullName prepared
        ++ map (fun item => GitHubCodeSearchItem.full_name
                              (GitHubCodeSearchItem.repository item)) results /\
  map csr_path out = map csr_path prepared ++ map GitHubCodeSearchItem.path results /\
  map csr_ref out = map csr_ref prepared ++ map GitHubCodeSearchItem.sha results.
Proof.
  revert fileCache prepared s.
  induction results as [|item rest IH]; intros fileCache prepared s; simpl.
  - intros [= <- _]. now rewrite !app_nil_r.
  - unfold bind at 1.
    destruct (prepareItem _ _ _ _ _ item fileCache s) as [[[fc entry]|e|] s0] eqn:Hitem;
      try discriminate.
    apply prepareItem_entry in Hitem as (Hname & Hpath & Href).
    intros H. apply IH in H as (H1 & H2 & H3).
    rewrite H1, H2, H3, !map_app. simpl.
    rewrite Hname, Hpath, Href, <- !app_assoc. auto.
Qed.

(** X10.  A blob that cannot be read never fails a code search.  When
    [searchCode] throws a [ViewerError], the pattern was blank, or the
    very same error was thrown by the requests for the pages of hits. *)
Theorem searchCode_viewer_errors :
  forall fuel target options s,
    match searchCode encodeURIComponent bufferFrom remote fuel target options s with
    | (Threw (Viewer e), s') =>
        (Str.isEmpty (Str.trim (cs_pattern options)) = true /\
         e = PatternRequired /\ s' = s) \/
        collectPages (codeSearch remote) (codePageUrl encodeURIComponent target options)
                     (codeHitsWanted options) fuel [] 1 s
          = (Threw (Viewer e), s')
    | _ => True
    end.
Proof.
  intros fuel target options s. unfold searchCode.
  destruct (Str.isEmpty (Str.trim (cs_pattern options))) eqn:Hblank.
  - simpl. left. auto.
  - unfold bind.
    match goal with
    | |- context [collectPages ?ep ?url ?n fuel [] 1 s] =>
        destruct (collectPages ep url n fuel [] 1 s)
          as [[gathered|e|] s1] eqn:Hpages
    end; auto.
    + destruct gathered as [|item gathered]; [exact I|].
      match goal with
      | |- match ?run with _ => _ end =>
          destruct run as [[out|[e| |]|] s2] eqn:Hprepare
      end; auto.
      now apply prepareAll_throws in Hprepare.
    + destruct e as [e| |]; auto.
Qed.

(** X11.  [searchCode] answers in the order of the remote: its results
    name, one for one and in the same order, the repository, the path and
    the blob of the hits that the window [offset, offset + limit) cuts out
    of the hits gathered from the pages. *)
Theorem searchCode_follows_hits :
  forall fuel target options s,
    match searchCode encodeURIComponent bufferFrom remote fuel target options s with
    | (Returned found, _) =>
        exists s1 gathered,
          collectPages (codeSearch remote) (codePageUrl encodeURIComponent target options)
                       (codeHitsWanted options) fuel [] 1 s = (Returned gathered, s1) /\
          let hits := slice gathered (normalizeOffset (cs_offset options))
                            (codeHitsWanted options) in
          map csr_fullName found
            = map (fun item => GitHubCodeSearchItem.full_name
                                 (GitHubCodeSearchItem.repository item)) hits /\
          map csr_path found = map GitHubCodeSearchItem.path hits /\
          map csr_ref found = map GitHubCodeSearchItem.sha hits
    | _ => True
    end.
Proof.
  intros fuel target options s. unfold searchCode.
  destruct (Str.isEmpty (Str.trim (cs_pattern options))) eqn:Hblank; [exact I|].
  unfold bind.
  match goal with
  | |- context [collectPages ?ep ?url ?n fuel [] 1 s] =>
      destruct (collectPages ep url n fuel [] 1 s)
        as [[gathered|e|] s1] eqn:Hpages
  end; auto.
  destruct gathered as [|item gathered].
  - simpl. exists s1, []. split; [exact Hpages|].
    unfold slice. simpl. now rewrite skipn_nil, firstn_nil.
  - match goal with
    | |- match ?run with _ => _ end =>
        destruct run as [[out|e|] s2] eqn:Hprepare
    end; auto.
    exists s1, (item :: gathered). split; [exact Hpages|].
    apply prepareAll_hits in Hprepare. exact Hprepare.
Qed.

End SearchCodeFacts.

(** ** Paged searches: termination, and an offset beyond every result *)

(** X12.  The paged searches end.  With a finite offset, [offset + 100]
    rounds of the pagination loop are enough for [searchCode] and for
    [searchCommits] to return or to throw, whatever the remote sends:
    every round that goes on has gathered at least one more hit, and no
    more than [offset + limit] hits, with a limit of at most 100, are
    gathered. *)
Theorem paged_searches_finish :
  forall (encodeURIComponent : string -> string)
         (bufferFrom : string -> string -> option string) (remote : Remote)
         (fuel : nat) (target : RepoTarget) (s : ViewerState)
         (offset : option number) (o : Z),
    normalizeOffset offset = Fin o ->
    (Z.to_nat (o + 100) <= fuel)%nat ->
    (forall options, cs_offset options = offset ->
       finished (fst (searchCode encodeURIComponent bufferFrom remote fuel target
                                 options s)) = true) /\
    (forall options, cm_offset options = offset ->
       finished (fst (searchCommits encodeURIComponent remote fuel target
                                    options s)) = true).
Proof.
  intros enc buf remote fuel target s offset o Ho Hfuel. split.
  - intros options Hoffset.
    pose proof (normalizeLimit_bounds (cs_limit options) 30 100 ltac:(lia)) as Hlimit.
    pose proof (searchCode_enough_fuel enc buf remote fuel target options s o) as H.
    rewrite Hoffset in H. specialize (H Ho ltac:(lia)).
    destruct (fst _); auto; congruence.
  - intros options Hoffset.
    pose proof (normalizeLimit_bounds (cm_limit options) 50 100 ltac:(lia)) as Hlimit.
    pose proof (searchCommits_enough_fuel enc remote fuel target options s o) as H.
    rewrite Hoffset in H. specialize (H Ho ltac:(lia)).
    destruct (fst _); auto; congruence.
Qed.

Lemma paged_searches_finish_witness :
  normalizeOffset None = Fin 0 /\
  (Z.to_nat (0 + 100) <= 100)%nat /\
  finished (fst (searchCode Sample.encodeURIComponent Sample.bufferFrom Sample.generous
                            100 Sample.example Sample.greedySearch freshViewer)) = true /\
  finished (fst (searchCommits Sample.encodeURIComponent Sample.generous
                               100 Sample.example Sample.greedyCommits freshViewer)) = true.
Proof.
  split; [reflexivity|]. split; [simpl; lia|].
  destruct (paged_searches_finish Sample.encodeURIComponent Sample.bufferFrom
              Sample.generous 100 Sample.example freshViewer None 0 eq_refl
              ltac:(simpl; lia)) as [Hcode Hcommits].
  split; [apply Hcode|apply Hcommits]; reflexivity.
Defined.

Lemma slice_beyond {A : Type} (l : list A) (limit : Z) :
  slice l Inf (Count.add Inf limit) = [].
Proof.
  unfold slice. simpl. now rewrite Z.sub_diag.
Qed.

(** X13.  An infinite offset is beyond every result.  With the offset
    [Infinity], which [normalizeOffset] lets through, [searchRepositories],
    [searchCode] and [searchCommits] return the empty list whenever they
    return. *)
Theorem infinite_offset_returns_nothing :
  forall (encodeURIComponent : string -> string)
         (localeCompareAccent localeCompare : string -> string -> Z)
         (bufferFrom : string -> string -> option string)
         (authToken : option string) (remote : Remote)
         (fuel : nat) (target : RepoTarget) (s : ViewerState),
    (forall pattern organization language limit,
       match searchRepositories encodeURIComponent localeCompareAccent localeCompare
               authToken remote fuel
               {| rs_pattern := pattern; rs_organization := organization;
                  rs_language := language; rs_limit := limit;
                  rs_offset := Some Infinity |} s with
       | (Returned found, _) => found = []
       | _ => True
       end) /\
    (forall pattern path limit context,
       match searchCode encodeURIComponent bufferFrom remote fuel target
               {| cs_pattern := pattern; cs_path := path; cs_limit := limit;
                  cs_offset := Some Infinity; cs_context := context |} s with
       | (Returned found, _) => found = []
       | _ => True
       end) /\
    (forall query author path since until limit,
       match searchCommits encodeURIComponent remote fuel target
               {| cm_query := query; cm_author := author; cm_path := path;
                  cm_since := since; cm_until := until; cm_limit := limit;
                  cm_offset := Some Infinity |} s with
       | (Returned found, _) => found = []
       | _ => True
       end).
Proof.
  intros enc cmpA cmp buf token remote fuel target s. repeat split.
  - intros pattern organization language limit. unfold searchRepositories.
    cbn [rs_offset rs_limit normalizeOffset].
    match goal with
    | |- context [collectCandidates ?e ?c ?t ?r ?f ?m fuel ?n ?d0] =>
        destruct (collectCandidates e c t r f m fuel n d0) as [[[]|e0|] d]
    end; auto.
    unfold sortAndSlice. now rewrite slice_beyond.
  - intros pattern path limit context. unfold searchCode.
    cbn [cs_offset cs_limit cs_pattern cs_path cs_context normalizeOffset].
    destruct (Str.isEmpty (Str.trim pattern)); [exact I|].
    unfold bind.
    match goal with
    | |- context [collectPages ?ep ?url ?n fuel [] 1 s] =>
        destruct (collectPages ep url n fuel [] 1 s) as [[gathered|e|] s1]
    end; auto.
    destruct gathered as [|item gathered]; [reflexivity|].
    rewrite slice_beyond. reflexivity.
  - intros query author path since until limit. unfold searchCommits.
    cbn [cm_offset cm_limit normalizeOffset].
    unfold bind.
    match goal with
    | |- context [collectPages ?ep ?url ?n fuel [] 1 s] =>
        destruct (collectPages ep url n fuel [] 1 s) as [[gathered|e|] s1]
    end; auto.
    rewrite slice_beyond. reflexivity.
Qed.

(** ** Reading files: ranges that start before the file, whole files *)

Lemma linesBetween_before fileLines last :
  (last < 1)%Z -> linesBetween fileLines 1 last = [].
Proof.
  intros H. unfold linesBetween.
  replace (Z.to_nat (last - 1 + 1)) with 0%nat by lia. reflexivity.
Qed.

Lemma extractRangeFrom_before fuel fileLines lineNumber last taken :
  (lineNumber <= 0)%Z ->
  Z.of_nat fuel = Z.max 0 (last - lineNumber + 1) ->
  extractRangeFrom fuel fileLines lineNumber last taken
  = taken ++ replicate (Z.to_nat (Z.min last 0 - lineNumber + 1)) EmptyString
          ++ linesBetween fileLines 1 (Z.min last (Z.of_nat (length fileLines))).
Proof.
  revert lineNumber taken.
  induction fuel as [|fuel IH]; intros lineNumber taken Hline Hfuel.
  - simpl. replace (Z.to_nat (Z.min last 0 - lineNumber + 1)) with 0%nat by lia.
    rewrite linesBetween_before by lia. simpl. now rewrite app_nil_r.
  - cbn [extractRangeFrom].
    destruct (Z.leb_spec lineNumber last); [|lia].
    destruct (Z.leb_spec (Z.of_nat (length fileLines)) (lineNumber - 1)); [lia|].
    destruct (Z.ltb_spec (lineNumber - 1) 0); [|lia].
    replace (Z.to_nat (Z.min last 0 - lineNumber + 1))
      with (S (Z.to_nat (Z.min last 0 - (lineNumber + 1) + 1))) by lia.
    destruct (Z.eq_dec lineNumber 0%Z) as [->|Hneg].
    + rewrite extractRangeFrom_spec by lia.
      replace (Z.to_nat (Z.min last 0 - (0 + 1) + 1)) with 0%nat by lia.
      simpl. now rewrite <- app_assoc.
    + rewrite IH by lia. simpl. now rewrite <- app_assoc.
Qed.

(** X14.  A range that starts before the first line.  [extractRange]
    does not reject a start of zero or less: it yields one empty line for
    each line number from [start] up to zero (or up to [end], when [end]
    is smaller), even for an empty file, and then the lines 1 to [end] of
    the file. *)
Theorem extractRange_before_first_line :
  forall (fileLines : list string) (r : ReadRange),
    (start r <= 0)%Z ->
    extractRange fileLines r
    = replicate (Z.to_nat (Z.min (end_ r) 0 - start r + 1)) EmptyString
        ++ linesBetween fileLines 1 (Z.min (end_ r) (Z.of_nat (length fileLines))).
Proof.
  intros fileLines r Hstart. unfold extractRange.
  rewrite extractRangeFrom_before by lia. reflexivity.
Qed.

Lemma extractRange_before_first_line_witness :
  (start {| start := -1; end_ := 2 |} <= 0)%Z /\
  extractRange ["a"; "b"; "c"] {| start := -1; end_ := 2 |}
  = replicate (Z.to_nat (Z.min (end_ {| start := -1; end_ := 2 |}) 0
                         - start {| start := -1; end_ := 2 |} + 1)) EmptyString
      ++ linesBetween ["a"; "b"; "c"] 1
           (Z.min (end_ {| start := -1; end_ := 2 |}) (Z.of_nat (length ["a"; "b"; "c"]))).
Proof.
  split; [simpl; lia|].
  apply (extractRange_before_first_line ["a"; "b"; "c"] {| start := -1; end_ := 2 |}).
  simpl; lia.
Defined.

Lemma startsWith_head c s p prefix :
  Ascii.eqb c p = false -> Str.startsWith (String c s) (String p prefix) = false.
Proof.
  intros H. simpl. now rewrite H.
Qed.

Lemma replaceAll_absent p pat by_ s :
  hasChar p s = false -> Str.replaceAll (String p pat) by_ s = s.
Proof.
  unfold Str.replaceAll. simpl.
  induction s as [|c s IH]; [reflexivity|].
  intros H. simpl in H. apply orb_false_iff in H as [Hc Hs].
  cbn [Str.replaceAllFrom].
  rewrite startsWith_head by exact Hc.
  now rewrite (IH Hs).
Qed.

Section WholeFileFacts.

Variable encodeURIComponent : string -> string.
Variable urlToString : string -> list (string * string) -> string.
Variable bufferFrom : string -> string -> option string.
Variable remote : Remote.

(** X15.  A file read without a range can be put together again.  When
    [readFile] returns for a call without range and without line numbers,
    the remote answered the one request with a content that decodes to a
    text of at most 204800 characters; no returned line holds a line feed;
    and the lines joined by line feeds are that text with every CR LF
    turned into LF, hence the text itself when it holds no carriage
    return. *)
Theorem readFile_whole_file_round_trip :
  forall (target : RepoTarget) (filePath : string) (ref : option string)
         (s : ViewerState),
    match readFile encodeURIComponent urlToString bufferFrom remote target filePath
                   {| read_ref := ref; range := None;
                      includeLineNumbers := None |} s with
    | (Returned result, _) =>
        exists response buffer,
          contents remote (requests s)
                   (contentsUrl encodeURIComponent urlToString target filePath ref) = Some response /\
          bufferFrom (orElse (GitHubContentEntry.content (json response)) EmptyString)
                     (orElse (GitHubContentEntry.encoding (json response)) "base64")
            = Some buffer /\
          (Z.of_nat (String.length buffer) <= 204800)%Z /\
          Forall (fun line => hasChar Str.LF line = false) (rr_lines result) /\
          Str.join Str.NL (rr_lines result) = Str.replaceAll Str.CRLF Str.NL buffer /\
          (hasChar Str.CR buffer = false -> Str.join Str.NL (rr_lines result) = buffer)
    | _ => True
    end.
Proof.
  intros target filePath ref s. unfold readFile.
  cbn [read_ref range includeLineNumbers]. unfold bind at 1. unfold ghFetch.
  destruct (contents remote (requests s) _) as [response|] eqn:Hfetch; [|exact I].
  destruct (ok response); [|exact I].
  destruct (negb _ || negb _); [exact I|].
  destruct (bufferFrom _ _) as [buffer|] eqn:Hdecode; [|exact I].
  cbn [andb]. 
  destruct (Z.ltb_spec 204800 (Z.of_nat (String.length buffer))); [exact I|].
  cbn [orElse ret rr_lines].
  exists response, buffer. unfold splitLines. repeat split; auto.
  - apply split_pieces.
  - apply split_join.
  - intros Hcr. change Str.NL with (String Str.LF EmptyString).
    rewrite split_join. now apply replaceAll_absent.
Qed.

(** X16.  [readFile] keeps nothing.  Every call issues exactly one
    request, for the URL that the [URL] object of the contents path, with
    the [ref] as its search parameter when there is one, is written as,
    whether the call returns or throws; the caches of the viewer are left
    as they were, so that a file read twice is requested twice. *)
Theorem readFile_one_request :
  forall (target : RepoTarget) (filePath : string) (options : ReadOptions)
         (s : ViewerState),
    snd (readFile encodeURIComponent urlToString bufferFrom remote
                  target filePath options s)
    = logRequest (contentsUrl encodeURIComponent urlToString target filePath
                              (read_ref options)) s.
Proof.
  intros target filePath options s. unfold readFile.
  unfold bind at 1. unfold ghFetch.
  destruct (contents remote (requests s) _) as [response|]; [|reflexivity].
  destruct (ok response); [|reflexivity].
  destruct (negb _ || negb _); [reflexivity|].
  destruct (bufferFrom _ _) as [buffer|]; [|reflexivity].
  destruct (_ && _); reflexivity.
Qed.

End WholeFileFacts.

(** ** The failures of the listing of the user's repositories *)

Section CalmFacts.

Context {S : Type}.

Lemma calm_ret {A : Type} (a : A) : calm (@ret S A a).
Proof. intros s. exact I. Qed.

Lemma calm_exhausted {A : Type} : calm (@exhausted S A).
Proof. intros s. exact I. Qed.

Lemma calm_gets {A : Type} (f : S -> A) : calm (gets f).
Proof. intros s. exact I. Qed.

Lemma calm_bind {A B : Type} (m : M S A) (k : A -> M S B) :
  calm m -> (forall a, calm (k a)) -> calm (bind m k).
Proof.
  intros Hm Hk s. unfold bind. specialize (Hm s).
  destruct (m s) as [[a|e|] s']; simpl in *; auto.
  apply Hk.
Qed.

Lemma calm_swallow (m : M S unit) : calm (swallowViewerError m).
Proof.
  intros s. unfold swallowViewerError.
  destruct (m s) as [[[]|[e|url|enc]|] s']; exact I.
Qed.

End CalmFacts.

Lemma calm_fetch {T : Type} (endpoint : Endpoint T) (url : string) :
  healthy endpoint -> calm (liftViewer (ghFetch endpoint url)).
Proof.
  intros Hok d. unfold liftViewer, ghFetch. specialize (Hok (requests (viewer d)) url).
  destruct (endpoint _ url) as [response|]; simpl; auto.
  rewrite Hok. exact I.
Qed.

Section UserListingFacts.

Variable encodeURIComponent : string -> string.
Variable urlToString : string -> list (string * string) -> string.
Variable localeCompareAccent localeCompare : string -> string -> Z.
Variable authToken : option string.
Variable remote : Remote.

Lemma searchLoop_calm filters maxIntermediate fuel query page :
  healthy (repoSearch remote) ->
  calm (searchLoop encodeURIComponent localeCompareAccent remote filters
                   maxIntermediate fuel query page).
Proof.
  intros Hok. revert page. induction fuel as [|fuel IH]; intros page; simpl.
  - apply calm_bind; [apply calm_gets|]. intros c.
    destruct (Count.gtb _ _); [apply calm_exhausted|apply calm_ret].
  - apply calm_bind; [apply calm_gets|]. intros c.
    destruct (Count.gtb _ _); [|apply calm_ret].
    apply calm_bind; [now apply calm_fetch|]. intros response.
    destruct (orElse (json response) []) as [|item items]; [apply calm_ret|].
    apply calm_bind.
    + intros d. unfold addPageM. now destruct (addPage _ _ _ _ _ _).
    + intros _. destruct (_ <? _)%Z; [apply calm_ret|apply IH].
Qed.

(** X17.  The listing of the user's repositories cannot fail a search.
    When no organization is asked for, [searchRepositories] throws a
    [ViewerError] only for an HTTP failure of the search end point: as
    long as that end point answers without such a failure, the call never
    throws a [ViewerError], however the listing of the repositories of
    the authenticated user fails. *)
Theorem user_listing_failures_are_swallowed :
  forall (fuel : nat) (params : RepositorySearchParams) (s : ViewerState),
    truthy (organization (filtersOf params)) = false ->
    healthy (repoSearch remote) ->
    match searchRepositories encodeURIComponent localeCompareAccent localeCompare
                             authToken remote fuel params s with
    | (Threw (Viewer _), _) => False
    | _ => True
    end.
Proof.
  intros fuel params s Horg Hok. unfold searchRepositories.
  match goal with
  | |- context [collectCandidates ?e ?c ?t ?r ?f ?m fuel ?n ?d0] =>
      assert (Hcalm : calm (collectCandidates e c t r f m fuel n));
      [|specialize (Hcalm d0);
        destruct (collectCandidates e c t r f m fuel n d0) as [[[]|[e0|url|enc]|] d];
        simpl in Hcalm; auto]
  end.
  unfold collectCandidates. apply calm_bind.
  - destruct (organization (filtersOf params)) as [org|]; [|apply calm_swallow].
    simpl in Horg. apply negb_false_iff in Horg. rewrite Horg. apply calm_swallow.
  - intros _. apply calm_bind; [apply calm_gets|]. intros c.
    destruct (Count.gtb _ _); [now apply searchLoop_calm|apply calm_ret].
Qed.

End UserListingFacts.

Lemma user_listing_failures_are_swallowed_witness :
  truthy (organization (filtersOf Sample.askAll)) = false /\
  healthy (repoSearch Sample.brokenListing) /\
  match searchRepositories Sample.encodeURIComponent Sample.localeCompareAccent
                           Sample.localeCompare (Some "token") Sample.brokenListing
                           3 Sample.askAll freshViewer with
  | (Threw (Viewer _), _) => False
  | _ => True
  end.
Proof.
  assert (Hok : healthy (repoSearch Sample.brokenListing)).
  { intros log url. reflexivity. }
  split; [reflexivity|]. split; [exact Hok|].
  apply (user_listing_failures_are_swallowed
           Sample.encodeURIComponent Sample.localeCompareAccent Sample.localeCompare
           (Some "token") Sample.brokenListing 3 Sample.askAll freshViewer);
    [reflexivity|exact Hok].
Defined.

(** The failed listing costs one request, and the search still answers. *)
Example broken_listing_still_answers :
  searchRepositories Sample.encodeURIComponent Sample.localeCompareAccent
                     Sample.localeCompare (Some "token") Sample.brokenListing
                     3 Sample.askAll freshViewer
  = (Returned [Sample.summaryOf Sample.gadget],
     logRequest "https://api.github.com/search/repositories?q=stars:>0 in:name&per_page=100&page=1&sort=stars&order=desc"
       (logRequest userReposUrl freshViewer)).
Proof. vm_compute. reflexivity. Qed.

(** ** Patterns and link headers *)

Lemma lowerChar_idempotent c : Str.lowerChar (Str.lowerChar c) = Str.lowerChar c.
Proof.
  destruct c as [[] [] [] [] [] [] [] []]; reflexivity.
Qed.

Lemma toLowerCase_idempotent s : Str.toLowerCase (Str.toLowerCase s) = Str.toLowerCase s.
Proof.
  induction s as [|c s IH]; simpl; [reflexivity|].
  now rewrite lowerChar_idempotent, IH.
Qed.

(** X18.  [matchesPattern] is blind to the case of the letters, in the
    value and in the pattern: lowering either changes nothing. *)
Theorem matchesPattern_case_blind :
  forall value pattern : string,
    matchesPattern (Str.toLowerCase value) pattern = matchesPattern value pattern /\
    matchesPattern value (Str.toLowerCase pattern) = matchesPattern value pattern.
Proof.
  intros value pattern. unfold matchesPattern.
  now rewrite !toLowerCase_idempotent.
Qed.

Lemma hasChar_app c a b : hasChar c (a +:+ b) = hasChar c a || hasChar c b.
Proof.
  induction a as [|x a IH]; simpl; [reflexivity|].
  now rewrite IH, orb_assoc.
Qed.

Lemma split_app_separator sep a b :
  Str.split sep (a +:+ String sep b) = Str.split sep a ++ Str.split sep b.
Proof.
  induction a as [|c a IH]; simpl.
  - now rewrite Ascii.eqb_refl.
  - destruct (Ascii.eqb c sep); rewrite IH; [reflexivity|].
    pose proof (split_nonempty sep a) as Hne.
    destruct (Str.split sep a) as [|p ps]; [congruence|]. reflexivity.
Qed.

Lemma split_head sep a rest :
  hasChar sep a = false ->
  exists piece pieces, Str.split sep (a +:+ rest) = (a +:+ piece) :: pieces.
Proof.
  induction a as [|c a IH]; simpl; intros H.
  - pose proof (split_nonempty sep rest) as Hne.
    destruct (Str.split sep rest) as [|p ps] eqn:E; [congruence|].
    exists p, ps. exact E.
  - apply orb_false_iff in H as [Hc Ha]. rewrite Hc.
    destruct (IH Ha) as (piece & pieces & ->). eauto.
Qed.

Lemma split_keeps_absent c sep s :
  hasChar c s = false -> Forall (fun piece => hasChar c piece = false) (Str.split sep s).
Proof.
  induction s as [|x s IH]; simpl; intros H.
  - repeat constructor.
  - apply orb_false_iff in H as [Hx Hs]. specialize (IH Hs).
    destruct (Ascii.eqb x sep).
    + constructor; auto.
    + destruct (Str.split sep s) as [|p ps]; [repeat constructor; simpl; now rewrite Hx|].
      inversion IH; subst. constructor; auto. simpl. now rewrite Hx.
Qed.

Lemma untilClose_run run rest :
  hasChar ">" run = false -> untilClose (run +:+ String ">" rest) = Some (run, rest).
Proof.
  induction run as [|c run IH]; simpl; intros H; [reflexivity|].
  apply orb_false_iff in H as [Hc Hrun]. now rewrite Hc, (IH Hrun).
Qed.

Lemma untilClose_open s : hasChar ">" s = false -> untilClose s = None.
Proof.
  induction s as [|c s IH]; simpl; intros H; [reflexivity|].
  apply orb_false_iff in H as [Hc Hs]. now rewrite Hc, (IH Hs).
Qed.

Lemma append_assoc (a b c : string) : (a +:+ b) +:+ c = a +:+ (b +:+ c).
Proof.
  induction a as [|x a IH]; [reflexivity|].
  change (String x ((a +:+ b) +:+ c) = String x (a +:+ (b +:+ c))). now f_equal.
Qed.

Lemma startsWith_append prefix rest : Str.startsWith (prefix +:+ rest) prefix = true.
Proof.
  induction prefix as [|c prefix IH]; simpl.
  - now destruct rest.
  - now rewrite Ascii.eqb_refl, IH.
Qed.

Lemma matchNextAt_nextLink url rest :
  url <> EmptyString -> hasChar ">" url = false ->
  matchNextAt (nextLink url +:+ rest) = Some url.
Proof.
  intros Hurl Hclose. unfold nextLink. rewrite !append_assoc.
  change (matchNextAt
            (String "<" (url +:+ String ">" (String ";" (String " " (relNext +:+ rest)))))
          = Some url).
  unfold matchNextAt. rewrite Ascii.eqb_refl.
  rewrite untilClose_run by assumption. rewrite Ascii.eqb_refl.
  destruct url; [congruence|].
  change (Str.trimStart (String " " (relNext +:+ rest))) with (relNext +:+ rest).
  rewrite startsWith_append. reflexivity.
Qed.

Lemma matchNext_head s url : matchNextAt s = Some url -> matchNext s = Some url.
Proof.
  intros H. destruct s; simpl in *; now rewrite H.
Qed.

Lemma matchNext_unclosed s : hasChar ">" s = false -> matchNext s = None.
Proof.
  induction s as [|c s IH]; intros H; [reflexivity|].
  pose proof H as Hall. simpl in H. apply orb_false_iff in H as [Hc Hs].
  cbn [matchNext]. rewrite (IH Hs).
  unfold matchNextAt. destruct (Ascii.eqb c "<"); [|reflexivity].
  now rewrite (untilClose_open s Hs).
Qed.

Lemma matchNext_unopened s : hasChar "<" s = false -> matchNext s = None.
Proof.
  induction s as [|c s IH]; intros H; [reflexivity|].
  simpl in H. apply orb_false_iff in H as [Hc Hs].
  cbn [matchNext]. rewrite (IH Hs). unfold matchNextAt. now rewrite Hc.
Qed.

Lemma firstNext_none parts :
  Forall (fun part => matchNext part = None) parts ->
  fold_right (fun part found =>
                match matchNext part with
                | Some url => Some url
                | None => found
                end) None parts = None.
Proof.
  induction 1 as [|part parts Hpart _ IH]; simpl; [reflexivity|].
  now rewrite Hpart.
Qed.

Lemma parseNextLink_parts header :
  parseNextLink (Some header)
  = fold_right (fun part found =>
                  match matchNext part with
                  | Some url => Some url
                  | None => found
                  end) None (Str.split "," header).
Proof.
  unfold parseNextLink. destruct header; reflexivity.
Qed.

(** X19.  [parseNextLink] finds the link it is made for.  A header that
    starts with [<url>; rel="next"] yields [url], whatever follows, when
    [url] is not empty and holds neither [>] nor a comma. *)
Theorem parseNextLink_round_trip :
  forall url rest : string,
    url <> EmptyString ->
    hasChar ">" url = false ->
    hasChar "," url = false ->
    parseNextLink (Some (nextLink url +:+ rest)) = Some url.
Proof.
  intros url rest Hurl Hclose Hcomma. rewrite parseNextLink_parts.
  assert (Hlink : hasChar "," (nextLink url) = false).
  { unfold nextLink. rewrite !hasChar_app, Hcomma. reflexivity. }
  destruct (split_head "," (nextLink url) rest Hlink) as (piece & pieces & Hsplit).
  rewrite Hsplit. cbn [fold_right].
  now rewrite (matchNext_head _ url (matchNextAt_nextLink url piece Hurl Hclose)).
Qed.

Lemma parseNextLink_round_trip_witness :
  parseNextLink
    (Some (nextLink "https://api.github.com/orgs/acme/repos?per_page=100&page=2"
             +:+ ", <https://api.github.com/orgs/acme/repos?per_page=100&page=9>; rel=last"))
  = Some "https://api.github.com/orgs/acme/repos?per_page=100&page=2".
Proof.
  apply parseNextLink_round_trip; [discriminate|reflexivity|reflexivity].
Defined.

(** X20.  The parts of a link header are tried from left to right: for a
    header made of two texts around a comma, [parseNextLink] answers what
    it answers for the left text and, when that is nothing, what it
    answers for the right one. *)
Theorem parseNextLink_left_to_right :
  forall left right : string,
    parseNextLink (Some (left +:+ String "," right))
    = match parseNextLink (Some left) with
      | Some url => Some url
      | None => parseNextLink (Some right)
      end.
Proof.
  intros left right. rewrite !parseNextLink_parts, split_app_separator.
  induction (Str.split "," left) as [|part parts IH]; simpl; [reflexivity|].
  destruct (matchNext part); auto.
Qed.

(** X21.  A comma inside the URL hides the link.  The header is cut at
    every comma before the links are looked for, so that the link
    [<url>; rel="next"] of a URL with a comma in it, with no [>] before
    that comma and no [<] after it, is not found. *)
Theorem parseNextLink_comma_in_url :
  forall before after : string,
    hasChar ">" before = false ->
    hasChar "<" after = false ->
    parseNextLink (Some (nextLink (before +:+ String "," after))) = None.
Proof.
  intros before after Hbefore Hafter. rewrite parseNextLink_parts.
  unfold nextLink.
  replace ("<" +:+ (before +:+ String "," after) +:+ ">; " +:+ relNext)
    with (("<" +:+ before) +:+ String "," (after +:+ ">; " +:+ relNext))
    by (now rewrite !append_assoc).
  rewrite split_app_separator, fold_right_app.
  rewrite (firstNext_none (Str.split "," (after +:+ ">; " +:+ relNext))).
  - apply firstNext_none.
    eapply Forall_impl; [apply (split_keeps_absent ">")|apply matchNext_unclosed].
    rewrite hasChar_app, Hbefore. reflexivity.
  - eapply Forall_impl; [apply (split_keeps_absent "<")|apply matchNext_unopened].
    rewrite hasChar_app, Hafter. reflexivity.
Qed.

Lemma parseNextLink_comma_in_url_witness :
  parseNextLink
    (Some (nextLink ("https://api.github.com/user/repos?affiliation=owner"
                       +:+ String "," "collaborator&page=2")))
  = None.
Proof.
  apply parseNextLink_comma_in_url; reflexivity.
Defined.

(** ** Directory listings *)

Lemma formatEntry_fields entry :
  (DirectoryEntry.size (formatEntry entry) <> None ->
   DirectoryEntry.type (formatEntry entry) = File) /\
  (DirectoryEntry.target (formatEntry entry) <> None ->
   DirectoryEntry.type (formatEntry entry) = Symlink).
Proof.
  unfold formatEntry.
  repeat match goal with
         | |- context [if ?b then _ else _] => destruct b
         | |- context [match ?o with Some _ => _ | None => _ end] => destruct o
         end; simpl; split; congruence.
Qed.

(** X22.  What [listPath] returns.  When it returns, the remote answered
    the one request of the call; the entries are a part, in the order of
    the payload, of the formatted entries of the payload, a single object
    counting as a list of one; without limit and without offset they are
    all of them; with a limit they are at most that limit normalized
    between 1 and 1000; and every entry carries a size only when it is a
    file and a target only when it is a symbolic link. *)
Theorem listPath_window :
  forall (encodeURIComponent : string -> string)
         (urlToString : string -> list (string * string) -> string) (directory : Endpoint ContentsPayload)
         (target : RepoTarget) (rawPath : string) (options : ListOptions)
         (s : ViewerState),
    match listPath encodeURIComponent urlToString directory target rawPath options s with
    | (Returned result, s') =>
        exists response,
          directory (requests s)
                    (contentsUrl encodeURIComponent urlToString target
                                 (if String.eqb rawPath "." then EmptyString else rawPath)
                                 (lo_ref options)) = Some response /\
          s' = logRequest (contentsUrl encodeURIComponent urlToString target
                             (if String.eqb rawPath "." then EmptyString else rawPath)
                             (lo_ref options)) s /\
          let formatted :=
            match json response with
            | EntryList listed => map formatEntry listed
            | SingleEntry entry => [formatEntry entry]
            end in
          entries result `sublist_of` formatted /\
          (lo_limit options = None -> lo_offset options = None ->
           entries result = formatted) /\
          (forall requested, lo_limit options = Some requested ->
             (Z.of_nat (length (entries result))
              <= normalizeLimit (Some requested) 1 1000 <= 1000)%Z) /\
          Forall (fun entry =>
                    (DirectoryEntry.size entry <> None -> DirectoryEntry.type entry = File) /\
                    (DirectoryEntry.target entry <> None ->
                     DirectoryEntry.type entry = Symlink))
                 (entries result)
    | _ => True
    end.
Proof.
  intros enc url directory target rawPath options s. unfold listPath.
  unfold bind at 1. unfold ghFetch.
  destruct (directory (requests s) _) as [response|] eqn:Hfetch; [|exact I].
  destruct (ok response); [|exact I].
  cbn [ret entries]. exists response.
  set (formatted := match json response with
                    | EntryList listed => map formatEntry listed
                    | SingleEntry entry => [formatEntry entry]
                    end).
  assert (Hformatted : Forall (fun entry =>
                    (DirectoryEntry.size entry <> None -> DirectoryEntry.type entry = File) /\
                    (DirectoryEntry.target entry <> None ->
                     DirectoryEntry.type entry = Symlink)) formatted).
  { subst formatted. destruct (json response) as [entry|listed].
    - repeat constructor; apply formatEntry_fields.
    - apply Forall_forall. intros entry Hin. apply list_elem_of_In in Hin.
      apply in_map_iff in Hin as (raw & <- & _). apply formatEntry_fields. }
  assert (Hpart : match lo_limit options with
                  | Some requested =>
                      slice formatted (normalizeOffset (lo_offset options))
                            (Count.add (normalizeOffset (lo_offset options))
                                       (normalizeLimit (Some requested) 1 1000))
                  | None =>
                      if positive (normalizeOffset (lo_offset options))
                      then slice formatted (normalizeOffset (lo_offset options)) Inf
                      else formatted
                  end `sublist_of` formatted).
  { destruct (lo_limit options); [apply slice_sublist|].
    destruct (positive _); [apply slice_sublist|reflexivity]. }
  split; [reflexivity|]. split; [reflexivity|]. cbv zeta.
  split; [exact Hpart|]. split; [|split].
  - intros -> ->. reflexivity.
  - intros requested ->.
    pose proof (normalizeLimit_bounds (Some requested) 1 1000 ltac:(lia)) as Hlimit.
    split; [|lia]. apply slice_length. lia.
  - apply Forall_forall. intros entry Hin.
    rewrite Forall_forall in Hformatted. apply Hformatted.
    eapply elem_of_sublist; eauto.
Qed.

(** X23.  Slashes that separate nothing do not count.  [encodeContentPath]
    drops the empty segments, so that a slash in front, a slash at the
    end and a doubled slash change nothing. *)
Theorem encodeContentPath_slashes :
  forall (encodeURIComponent : string -> string) (path rest : string),
    encodeContentPath encodeURIComponent (String "/" path)
      = encodeContentPath encodeURIComponent path /\
    encodeContentPath encodeURIComponent (path +:+ "/")
      = encodeContentPath encodeURIComponent path /\
    encodeContentPath encodeURIComponent (path +:+ String "/" (String "/" rest))
      = encodeContentPath encodeURIComponent (path +:+ String "/" rest).
Proof.
  intros enc path rest. unfold encodeContentPath. split; [|split].
  - reflexivity.
  - change (path +:+ "/") with (path +:+ String "/" EmptyString).
    rewrite split_app_separator, filter_app.
    change (filter (fun segment => negb (Str.isEmpty segment)) (Str.split "/" EmptyString))
      with (@nil string).
    now rewrite app_nil_r.
  - rewrite (split_app_separator "/" path (String "/" rest)).
    rewrite (split_app_separator "/" path rest).
    rewrite !filter_app. reflexivity.
Qed.

(** ** The command line: [--read path@start-end] *)

Lemma digits_only (c : ascii) (d : Decimal.uint) :
  (nat_of_ascii c < 48 \/ 57 < nat_of_ascii c)%nat ->
  hasChar c (NilEmpty.string_of_uint d) = false.
Proof.
  intros Hc.
  assert (Hne : forall digit : ascii,
             (48 <= nat_of_ascii digit <= 57)%nat -> Ascii.eqb digit c = false).
  { intros digit Hdigit. apply Ascii.eqb_neq. intros ->. lia. }
  induction d; cbn [NilEmpty.string_of_uint hasChar]; auto;
    rewrite IHd, orb_false_r; apply Hne; vm_compute; lia.
Qed.

Lemma ofZ_positive (p : BinNums.positive) :
  Str.ofZ (Z.pos p) = NilEmpty.string_of_uint (Pos.to_uint p) /\
  Str.isEmpty (Str.ofZ (Z.pos p)) = false /\
  numberOfDigits (Str.ofZ (Z.pos p)) = Some (roundToDouble (Z.pos p)).
Proof.
  pose proof (Unsigned.to_uint_nonnil p) as Hnonnil.
  assert (Hstring : Str.ofZ (Z.pos p) = NilEmpty.string_of_uint (Pos.to_uint p)).
  { unfold Str.ofZ. simpl. unfold NilZero.string_of_uint.
    destruct (Pos.to_uint p); congruence. }
  assert (Hparse : NilZero.uint_of_string (Str.ofZ (Z.pos p)) = Some (Pos.to_uint p)).
  { unfold Str.ofZ. simpl. now apply NilZero.usu. }
  assert (Hfull : Str.isEmpty (Str.ofZ (Z.pos p)) = false).
  { destruct (Str.ofZ (Z.pos p)); [discriminate|reflexivity]. }
  repeat split; auto.
  unfold numberOfDigits. rewrite Hfull, Hparse. simpl.
  unfold Z.of_uint. now rewrite Unsigned.of_to.
Qed.

Lemma ofZ_digits (c : ascii) (z : Z) :
  (0 < z)%Z -> (nat_of_ascii c < 48 \/ 57 < nat_of_ascii c)%nat ->
  hasChar c (Str.ofZ z) = false.
Proof.
  intros Hz Hc. destruct z as [|p|p]; try lia.
  destruct (ofZ_positive p) as (-> & _). now apply digits_only.
Qed.

Lemma isEmpty_append a b : Str.isEmpty a = false -> Str.isEmpty (a +:+ b) = false.
Proof.
  destruct a; [discriminate|reflexivity].
Qed.

Lemma roundToDouble_safe (n : Z) :
  (n <= maxSafeInteger)%Z -> roundToDouble n = Fin n.
Proof.
  unfold maxSafeInteger, roundToDouble. intros Hn.
  destruct (Z.leb_spec n 9007199254740992); [reflexivity|lia].
Qed.

(** X24.  A well-formed argument of [--read] is read back.  For a path
    that is not empty and holds no [@], and line numbers with [1 <= start
    <= end] that a number holds exactly, [parseReadArg] of
    [path@start-end] returns the path and the range. *)
Theorem parseReadArg_round_trip :
  forall (path : string) (first last : Z),
    path <> EmptyString ->
    hasChar "@" path = false ->
    (1 <= first <= last)%Z ->
    (last <= maxSafeInteger)%Z ->
    parseReadArg (path +:+ String "@" (Str.ofZ first +:+ String "-" (Str.ofZ last)))
    = inr {| ra_path := path;
             ra_range := Some {| nr_start := Fin first; nr_end := Fin last |} |}.
Proof.
  intros path first last Hpath Hat Horder Hsafe.
  destruct first as [|p|p]; try lia. destruct last as [|q|q]; try lia.
  destruct (ofZ_positive p) as (_ & Hp & Hfirst).
  destruct (ofZ_positive q) as (_ & Hq & Hlast).
  rewrite roundToDouble_safe in Hfirst by lia.
  rewrite roundToDouble_safe in Hlast by lia.
  set (suffix := Str.ofZ (Z.pos p) +:+ String "-" (Str.ofZ (Z.pos q))).
  assert (Hsuffix : hasChar "@" suffix = false).
  { subst suffix. rewrite hasChar_app. cbn [hasChar].
    rewrite !ofZ_digits by first [lia | vm_compute; lia]. reflexivity. }
  unfold parseReadArg.
  rewrite split_at_separator by assumption.
  rewrite (split_without_separator "@" suffix Hsuffix).
  cbn [lookup list_lookup orElse].
  destruct path as [|c path]; [congruence|]. cbn [Str.isEmpty].
  assert (Hfull : truthy (Some suffix) = true).
  { unfold truthy. subst suffix. now rewrite isEmpty_append. }
  rewrite Hfull. cbn [negb]. subst suffix.
  rewrite split_at_separator by (apply ofZ_digits; first [lia | vm_compute; lia]).
  rewrite split_without_separator by (apply ofZ_digits; first [lia | vm_compute; lia]).
  rewrite Hfirst, Hlast. unfold numberLt.
  destruct (Z.ltb_spec (Z.pos p) 1); [lia|].
  destruct (Z.ltb_spec (Z.pos q) (Z.pos p)); [lia|].
  reflexivity.
Qed.

Lemma parseReadArg_round_trip_witness :
  parseReadArg ("src/viewer.ts" +:+ String "@" (Str.ofZ 120 +:+ String "-" (Str.ofZ 160)))
  = inr {| ra_path := "src/viewer.ts";
           ra_range := Some {| nr_start := Fin 120; nr_end := Fin 160 |} |}.
Proof.
  apply parseReadArg_round_trip;
    [discriminate|reflexivity|lia|unfold maxSafeInteger; lia].
Defined.

(** X25.  What [parseReadArg] lets through.  A parsed argument has a
    path that is not empty and holds no [@]; and its range, when it has
    one, starts at 1 or later and does not end before it starts, the
    bounds being compared as the numbers that [Number] made of the
    digits. *)
Theorem parseReadArg_ranges :
  forall arg : string,
    match parseReadArg arg with
    | inr parsed =>
        Str.isEmpty (ra_path parsed) = false /\
        hasChar "@" (ra_path parsed) = false /\
        match ra_range parsed with
        | Some r =>
            match nr_start r, nr_end r with
            | Fin first, Fin last => (1 <= first <= last)%Z
            | Fin first, Inf => (1 <= first)%Z
            | Inf, Fin _ => False
            | Inf, Inf => True
            end
        | None => True
        end
    | inl _ => True
    end.
Proof.
  intros arg. unfold parseReadArg.
  pose proof (split_pieces "@" arg) as Hpieces.
  pose proof (split_nonempty "@" arg) as Hne.
  destruct (Str.split "@" arg) as [|path rest]; [congruence|].
  inversion Hpieces as [|? ? Hpath _]; subst.
  cbn [lookup list_lookup orElse].
  destruct (Str.isEmpty path) eqn:Hfull; [exact I|].
  destruct (negb (truthy (rest !! 0%nat))); [simpl; auto|].
  destruct (Str.split "-" _) as [|first [|last [|]]]; try exact I.
  destruct (numberOfDigits first) as [a|]; [|exact I].
  destruct (numberOfDigits last) as [b|]; [|exact I].
  destruct (numberLt a (Fin 1)) eqn:Hlow; [exact I|].
  destruct (numberLt b a) eqn:Horder; [exact I|].
  cbn [orb ra_path ra_range nr_start nr_end]. repeat split; auto.
  destruct a as [first'|], b as [last'|]; simpl in Hlow, Horder; try discriminate;
    auto; lia.
Qed.

(** ** The cap on the candidates held *)

Lemma set_size {V : Type} (c : JsMap.t V) key v :
  (JsMap.size c <= JsMap.size (JsMap.set c key v) <= JsMap.size c + 1)%Z.
Proof.
  unfold JsMap.size.
  induction c as [|[k v0] c IH]; simpl; [lia|].
  destruct (String.eqb k key); simpl; lia.
Qed.

Section CapFacts.

Variable encodeURIComponent : string -> string.
Variable urlToString : string -> list (string * string) -> string.
Variable localeCompareAccent : string -> string -> Z.
Variable authToken : option string.
Variable remote : Remote.
Variable filters : Filters.
Variable cap : Z.

Local Abbreviation held := (fun d : Discovery => JsMap.size (collected d)).

Lemma addRepository_size repo prio c :
  (JsMap.size (addRepository localeCompareAccent filters repo prio c)
   <= JsMap.size c + 1)%Z.
Proof.
  destruct (addRepository_cases localeCompareAccent filters repo prio c)
    as [->|(s & _ & -> & _)]; [lia|].
  apply set_size.
Qed.

Lemma addPage_cap prio page c :
  (JsMap.size c < cap)%Z ->
  (JsMap.size (fst (addPage localeCompareAccent filters (Fin cap) prio page c)) <= cap)%Z /\
  (snd (addPage localeCompareAccent filters (Fin cap) prio page c) = false ->
   (JsMap.size (fst (addPage localeCompareAccent filters (Fin cap) prio page c)) < cap)%Z).
Proof.
  revert c. induction page as [|r rest IH]; intros c Hc; simpl.
  - split; [lia|auto].
  - pose proof (addRepository_size r prio c) as Hgrow.
    unfold Count.leb, Count.gtb.
    destruct (Z.ltb_spec (JsMap.size (addRepository localeCompareAccent filters r prio c))
                         cap); simpl.
    + now apply IH.
    + split; [lia|discriminate].
Qed.

Lemma collectListing_cap fuel url d :
  (held d < cap)%Z ->
  (held (snd (collectListing localeCompareAccent remote filters (Fin cap) fuel url d))
   <= cap)%Z.
Proof.
  revert url d. induction fuel as [|fuel IH]; intros [u|] d Hd; simpl; try lia.
  - destruct (Str.isEmpty u); simpl; lia.
  - destruct (Str.isEmpty u); [simpl; lia|].
    unfold bind at 1. unfold liftViewer, ghFetch.
    destruct (repoListing remote _ u) as [response|]; [|simpl; lia].
    destruct (ok response); [|simpl; lia].
    unfold bind at 1. unfold addPageM. cbn [collected viewer].
    pose proof (addPage_cap 0 (json response) (collected d) Hd) as [Hcap Hopen].
    destruct (addPage _ _ _ _ _ _) as [c full]. simpl in Hcap, Hopen.
    destruct full; [simpl; lia|].
    apply IH. simpl. auto.
Qed.

Lemma searchLoop_cap fuel query page d :
  (held d <= cap)%Z ->
  (held (snd (searchLoop encodeURIComponent localeCompareAccent remote filters (Fin cap)
                         fuel query page d)) <= cap)%Z.
Proof.
  revert page d. induction fuel as [|fuel IH]; intros page d Hd; simpl;
    unfold bind at 1, gets; unfold Count.gtb;
    destruct (Z.ltb_spec (JsMap.size (collected d)) cap) as [Hroom|Hfull];
    try (simpl; lia).
  unfold bind at 1. unfold liftViewer, ghFetch.
  destruct (repoSearch remote _ _) as [response|]; [|simpl; lia].
  destruct (ok response); [|simpl; lia].
  destruct (orElse (json response) []) as [|item items]; [simpl; lia|].
  unfold bind at 1. unfold addPageM. cbn [collected viewer].
  pose proof (addPage_cap 1 (item :: items) (collected d) Hroom) as [Hcap _].
  destruct (addPage _ _ _ _ _ _) as [c full]. simpl in Hcap.
  destruct (_ <? _)%Z; [simpl; lia|].
  apply IH. simpl. lia.
Qed.

Lemma collectUserRepositories_cap fuel d :
  (held d < cap)%Z ->
  (held (snd (swallowViewerError
                (collectUserRepositories localeCompareAccent authToken remote
                   filters (Fin cap) fuel) d)) <= cap)%Z.
Proof.
  intros Hd. unfold swallowViewerError, collectUserRepositories.
  destruct (negb (truthy authToken)); [simpl in *; lia|].
  match goal with
  | |- context [collectListing ?c ?r ?f ?m fuel ?url d] =>
      pose proof (collectListing_cap fuel url d Hd) as H;
      destruct (collectListing c r f m fuel url d) as [[[]|[e|u|enc]|] d']; exact H
  end.
Qed.

Lemma collectCandidates_cap fuel toCollect d :
  (held d < cap)%Z ->
  (held (snd (collectCandidates encodeURIComponent localeCompareAccent authToken remote
                                filters (Fin cap) fuel toCollect d)) <= cap)%Z.
Proof.
  intros Hd. unfold collectCandidates.
  assert (Hrest : forall (outcome : Outcome unit) d1,
             (held d1 <= cap)%Z ->
             (held (snd (match (outcome, d1) with
                         | (Returned _, d2) =>
                             (let* c := gets collected in
                              if Count.gtb toCollect (JsMap.size c)
                              then collectSearchResults encodeURIComponent
                                     localeCompareAccent remote filters (Fin cap) fuel
                              else ret tt) d2
                         | (Threw e, d2) => (@Threw unit e, d2)
                         | (OutOfFuel, d2) => (@OutOfFuel unit, d2)
                         end)) <= cap)%Z).
  { intros [[]|e|] d1 Hd1; try exact Hd1.
    unfold bind at 1, gets.
    destruct (Count.gtb toCollect _); [|exact Hd1].
    unfold collectSearchResults. now apply searchLoop_cap. }
  unfold bind at 1.
  destruct (organization filters) as [org|].
  - destruct (Str.isEmpty org).
    + pose proof (collectUserRepositories_cap fuel d Hd) as H.
      destruct (swallowViewerError _ d) as [outcome d1]. now apply Hrest.
    + pose proof (collectListing_cap fuel
                    (Some (api +:+ "/orgs/" +:+ encodeURIComponent org
                               +:+ "/repos?per_page=100&type=all&sort=updated&direction=desc"))
                    d Hd) as H.
      unfold collectOrgRepositories.
      destruct (collectListing _ _ _ _ _ _ d) as [outcome d1]. now apply Hrest.
  - pose proof (collectUserRepositories_cap fuel d Hd) as H.
    destruct (swallowViewerError _ d) as [outcome d1]. now apply Hrest.
Qed.

End CapFacts.

(** X26.  The discovery holds no more candidates than its cap.  For a
    finite offset, whatever the channels send and however the collection
    ends, [searchRepositories] has collected at most [offset + limit + 100]
    candidates, whereas it returns at most [limit] of them. *)
Theorem discovery_holds_no_more_than_the_cap :
  forall (encodeURIComponent : string -> string)
         (localeCompareAccent : string -> string -> Z)
         (authToken : option string) (remote : Remote)
         (fuel : nat) (params : RepositorySearchParams) (s : ViewerState),
    match normalizeOffset (rs_offset params) with
    | Fin offset =>
        let limit := normalizeLimit (rs_limit params) 30 100 in
        (JsMap.size
           (collected
              (snd (collectCandidates encodeURIComponent localeCompareAccent authToken
                      remote (filtersOf params)
                      (Count.add (Count.add (Fin offset) limit) 100) fuel
                      (Count.add (Fin offset) limit)
                      {| collected := JsMap.empty; viewer := s |})))
         <= offset + limit + 100)%Z
    | Inf => True
    end.
Proof.
  intros enc cmpA token remote fuel params s.
  destruct (normalizeOffset (rs_offset params)) as [offset|] eqn:Hoffset; [|exact I].
  cbv zeta. cbn [Count.add].
  pose proof (normalizeOffset_nonneg _ _ Hoffset).
  pose proof (normalizeLimit_bounds (rs_limit params) 30 100 ltac:(lia)).
  apply collectCandidates_cap. cbn. unfold JsMap.size. simpl. lia.
Qed.

(** ** Names: what is listed, what is found, what is asked *)

Lemma listRepositoriesFrom_sent remote fuel url results s :
  Forall (sentBy remote) results ->
  match listRepositoriesFrom remote fuel url results s with
  | (Returned out, _) => Forall (sentBy remote) out
  | _ => True
  end.
Proof.
  revert url results s.
  induction fuel as [|fuel IH]; intros [u|] results s Hresults; simpl; auto.
  - destruct (Str.isEmpty u); simpl; auto.
  - destruct (Str.isEmpty u); [simpl; auto|].
    unfold bind at 1. unfold ghFetch.
    destruct (repoListing remote (requests s) u) as [response|] eqn:Hfetch; [|exact I].
    destruct (ok response) eqn:Hok; [|exact I].
    apply IH. apply Forall_app. split; [exact Hresults|].
    apply Forall_forall. intros name Hin. apply list_elem_of_In in Hin.
    apply in_map_iff in Hin as (r & Hname & Hr).
    exists (requests s), u, response, r. auto.
Qed.

(** X27.  [listRepositories] invents no name and returns no empty one:
    every name it returns is not empty and is the full name, or without a
    full name the name, of a repository that the listing end point sent
    in an answer that was not a failure. *)
Theorem listRepositories_names :
  forall (encodeURIComponent : string -> string) (remote : Remote)
         (fuel : nat) (scope : Scope) (s : ViewerState),
    match listRepositories encodeURIComponent remote fuel scope s with
    | (Returned names, _) =>
        Forall (fun name => Str.isEmpty name = false /\ sentBy remote name) names
    | _ => True
    end.
Proof.
  intros enc remote fuel scope s. unfold listRepositories. unfold bind at 1.
  match goal with
  | |- context [listRepositoriesFrom remote fuel ?url [] s] =>
      pose proof (listRepositoriesFrom_sent remote fuel url [] s ltac:(constructor)) as H;
      destruct (listRepositoriesFrom remote fuel url [] s) as [[results|e|] s1]
  end; auto.
  cbn [ret]. apply Forall_forall. intros name Hin.
  apply list_elem_of_filter in Hin as [Hfull Hin].
  rewrite Forall_forall in H. split; [|now apply H].
  now destruct (Str.isEmpty name).
Qed.

Lemma addRepository_keeps_named localeCompareAccent filters repo prio c :
  Forall (fun entry => Str.isEmpty (RepositorySummary.fullName (summary entry)) = false)
         (JsMap.values c) ->
  Forall (fun entry => Str.isEmpty (RepositorySummary.fullName (summary entry)) = false)
         (JsMap.values (addRepository localeCompareAccent filters repo prio c)).
Proof.
  intros Hc.
  destruct (addRepository_cases localeCompareAccent filters repo prio c)
    as [->|(s & Hs & -> & _)]; [exact Hc|].
  apply set_Forall_values; [exact Hc|].
  unfold mapRepoSummary in Hs.
  destruct (Str.isEmpty (orElse (GitHubRepoSummary.full_name repo) EmptyString)) eqn:Hfull;
    [discriminate|].
  injection Hs as <-. exact Hfull.
Qed.

(** X28.  [searchRepositories] returns no repository without a full
    name: what the channels send without one is dropped. *)
Theorem searchRepositories_results_named :
  forall (encodeURIComponent : string -> string)
         (localeCompareAccent localeCompare : string -> string -> Z)
         (authToken : option string) (remote : Remote)
         (fuel : nat) (params : RepositorySearchParams) (s : ViewerState),
    match searchRepositories encodeURIComponent localeCompareAccent localeCompare
                             authToken remote fuel params s with
    | (Returned found, _) =>
        Forall (fun r => Str.isEmpty (RepositorySummary.fullName r) = false) found
    | _ => True
    end.
Proof.
  intros enc cmpA cmp token remote fuel params s. unfold searchRepositories.
  match goal with
  | |- context [collectCandidates ?e ?c ?t ?r ?f ?m fuel ?n ?d0] =>
      pose proof (collectCandidates_keeps e c t r f m
                    (fun c => Forall (fun entry =>
                                        Str.isEmpty (RepositorySummary.fullName
                                                       (summary entry)) = false)
                                     (JsMap.values c))
                    (fun repo prio c _ H => addRepository_keeps_named cmpA f repo prio c H)
                    fuel n d0) as Hkeeps;
      destruct (collectCandidates e c t r f m fuel n d0) as [[[]|e0|] d] eqn:Hrun
  end; auto.
  specialize (Hkeeps ltac:(constructor)). simpl in Hkeeps.
  unfold sortAndSlice.
  apply Forall_forall. intros r Hr. apply list_elem_of_In in Hr.
  apply in_map_iff in Hr as (entry & <- & Hin).
  rewrite Forall_forall in Hkeeps. apply Hkeeps.
  rewrite <- (sort_perm (compareCandidates cmp) (JsMap.values (collected d))).
  apply list_elem_of_In in Hin.
  eapply elem_of_sublist; [exact Hin|]. apply slice_sublist.
Qed.

Lemma includes_self s : Str.includes s s = true.
Proof.
  pose proof (startsWith_append s EmptyString) as H.
  replace (s +:+ EmptyString) with s in H.
  - destruct s; simpl in *; [reflexivity|]. now rewrite H.
  - clear. induction s as [|c s IH]; [reflexivity|].
    change (String c s = String c (s +:+ EmptyString)). now f_equal.
Qed.

Lemma includes_append_left a b needle :
  Str.includes a needle = true -> Str.includes (a +:+ b) needle = true.
Proof.
  assert (Hstarts : forall a, Str.startsWith a needle = true ->
                              Str.startsWith (a +:+ b) needle = true).
  { induction needle as [|p needle IH]; intros a0 H.
    - now destruct (a0 +:+ b).
    - destruct a0 as [|c a0]; [discriminate|]. simpl in *.
      apply andb_true_iff in H as [Hc Hrest]. rewrite Hc. now apply IH. }
  induction a as [|c a IH]; intros H.
  - simpl in H. rewrite orb_false_r in H.
    destruct needle; [|discriminate]. now destruct b.
  - cbn [Str.includes] in H. apply orb_true_iff in H as [H|H].
    + change (String c a +:+ b) with (String c (a +:+ b)). cbn [Str.includes].
      change (String c (a +:+ b)) with (String c a +:+ b).
      now rewrite (Hstarts _ H).
    + change (String c a +:+ b) with (String c (a +:+ b)). cbn [Str.includes].
      rewrite (IH H). apply orb_true_r.
Qed.

Lemma includes_append_right a b needle :
  Str.includes b needle = true -> Str.includes (a +:+ b) needle = true.
Proof.
  intros H. induction a as [|c a IH]; [exact H|].
  change (String c a +:+ b) with (String c (a +:+ b)). cbn [Str.includes].
  rewrite IH. apply orb_true_r.
Qed.

(** X29.  The searches name their repository.  The query of a code
    search always holds the qualifier [repo:owner/repo] of the repository
    searched, and the query of a commit search starts with it. *)
Theorem search_queries_name_the_repository :
  forall (target : RepoTarget),
    (forall (trimmedPattern : string) (path : option string),
       Str.includes (codeSearchQuery target trimmedPattern path)
                    ("repo:" +:+ owner target +:+ "/" +:+ repo target) = true) /\
    (forall options : CommitSearchOptions,
       Str.startsWith (commitSearchQuery target options)
                      ("repo:" +:+ owner target +:+ "/" +:+ repo target) = true).
Proof.
  intros target. split.
  - intros trimmedPattern path. unfold codeSearchQuery.
    set (qualifier := "repo:" +:+ owner target +:+ "/" +:+ repo target).
    destruct (Str.includes trimmedPattern qualifier) eqn:Hin.
    + destruct (truthy path); cbn [app Str.join].
      * now apply includes_append_left.
      * exact Hin.
    + destruct (truthy path); cbn [app Str.join].
      * apply includes_append_right, includes_append_right, includes_append_left.
        apply includes_self.
      * apply includes_append_right, includes_append_right. apply includes_self.
  - intros options. unfold commitSearchQuery.
    set (qualifier := "repo:" +:+ owner target +:+ "/" +:+ repo target).
    match goal with
    | |- Str.startsWith (Str.join " " ([qualifier] ++ ?rest)) qualifier = true =>
        destruct rest as [|part parts]
    end.
    + cbn [app Str.join]. pose proof (startsWith_append qualifier EmptyString) as H.
      replace (qualifier +:+ EmptyString) with qualifier in H; [exact H|].
      generalize qualifier. clear. intros s.
      induction s as [|c s IH]; [reflexivity|].
      change (String c s = String c (s +:+ EmptyString)). now f_equal.
    + cbn [app Str.join]. apply startsWith_append.
Qed.
